(** * Password audit (lab1_password_audit.py): a shallow embedding

    The Python module scores a password against personal data (name, surname,
    date of birth) and against generic complexity heuristics.  This file
    embeds its functions as Rocq functions and proves the properties of the
    specification about them.

    Data model.
    - A Python [str] is a sequence of Unicode code points: [list N].
    - Python's character tables ([str.isspace], [str.islower], [str.lower],
      the regular expression classes [\s] and [\d], [int]) are fixed here on
      the ASCII range, where CPython's behaviour is a short table, and are
      taken from a parameter of class [Unicode] on every other code point.
      Every theorem holds for every such parameter.
    - [ValueError], raised by [datetime.strptime], is the one exception the
      analysis can meet (the string methods, [re.sub] and [re.search] with
      their fixed patterns, [len], [sorted] on strings and the f-strings
      raise nothing); fallible code returns an [outcome].
    - [main] is a command on a console (the lines to read, the texts
      written); [input] raises [EOFError] when no line is left.

    The specification calls [analyze_password] analyze,
    [extract_birth_tokens] extractBirthTokens, [has_sequences] hasSequence,
    [char_classes] classify and the [ValueError] of a date that does not
    parse InvalidDateFormat. *)

From Stdlib Require Import NArith ZArith String Ascii List Bool Lia.
From stdpp Require Import gmap sorting.

Open Scope N_scope.

(** ** Strings *)

Abbreviation str := (list N).

(** A literal of the source, read as its sequence of (ASCII) code points. *)
Definition py (s : string) : str := map N_of_ascii (list_ascii_of_string s).

(** CPython's tables on the ASCII range (code points below 128). *)
Definition ascii_isspace (c : N) : bool :=
  ((9 <=? c) && (c <=? 13)) || ((28 <=? c) && (c <=? 32)).
Definition ascii_islower (c : N) : bool := (97 <=? c) && (c <=? 122).
Definition ascii_isupper (c : N) : bool := (65 <=? c) && (c <=? 90).
Definition ascii_isdigit (c : N) : bool := (48 <=? c) && (c <=? 57).
Definition ascii_isalnum (c : N) : bool :=
  ascii_islower c || ascii_isupper c || ascii_isdigit c.
Definition ascii_tolower (c : N) : N := if ascii_isupper c then c + 32 else c.

(** The Unicode character database outside ASCII.  [uni_lower s i c] is the
    lowercase expansion of the character [c] standing at index [i] of [s]
    ([str.lower] may map one character to several, and the capital sigma by
    its context).  A decimal digit has a value below ten and is no white
    space. *)
Class Unicode := {
  uni_isspace : N → bool;
  uni_islower : N → bool;
  uni_isupper : N → bool;
  uni_isdigit : N → bool;
  uni_isalnum : N → bool;
  uni_decimal : N → option N;
  uni_lower : str → nat → N → str;
  uni_decimal_lt : ∀ c v, uni_decimal c = Some v → v < 10;
  uni_decimal_not_space : ∀ c v, uni_decimal c = Some v → uni_isspace c = false
}.

(** A database with nothing outside ASCII: no further space, letter or digit,
    and lowercasing leaves other characters alone. *)
Program Definition ascii_only : Unicode := {|
  uni_isspace := λ _, false;
  uni_islower := λ _, false;
  uni_isupper := λ _, false;
  uni_isdigit := λ _, false;
  uni_isalnum := λ _, false;
  uni_decimal := λ _, None;
  uni_lower := λ _ _ c, [c]
|}.
Next Obligation. intros c v H. discriminate H. Defined.
Next Obligation. intros c v H. discriminate H. Defined.

Definition is_ascii (c : N) : bool := c <? 128.

Fixpoint startswith (needle hay : str) : bool :=
  match needle, hay with
  | [], _ => true
  | _ :: _, [] => false
  | a :: needle', b :: hay' => (a =? b) && startswith needle' hay'
  end.

(** [needle in hay] on Python strings: substring containment. *)
Fixpoint str_in (needle hay : str) : bool :=
  startswith needle hay ||
  match hay with
  | [] => false
  | _ :: hay' => str_in needle hay'
  end.

(** Python truthiness of a string: [if s] holds for the non-empty ones. *)
Definition truthy (s : str) : bool := match s with [] => false | _ => true end.

(** ** Exceptions *)

(** Why [datetime.strptime] raises [ValueError]. *)
Inductive value_error :=
  | does_not_match      (* time data ... does not match format ... *)
  | unconverted_data    (* unconverted data remains: ... *)
  | invalid_literal     (* invalid literal for int() *)
  | out_of_range.       (* year, month or day is out of range *)

Inductive exception := ValueError (why : value_error).

Inductive outcome (A : Type) :=
  | Return (a : A)
  | Raise (e : exception).
Arguments Return {A} a.
Arguments Raise {A} e.

#[export] Instance outcome_ret : MRet outcome := λ A a, Return a.
#[export] Instance outcome_bind : MBind outcome := λ A B f m,
  match m with
  | Return a => f a
  | Raise e => Raise e
  end.

(** [try: body / except ValueError: handler] *)
Definition try_except_ValueError {A} (body : outcome A)
    (handler : outcome A) : outcome A :=
  match body with
  | Return a => Return a
  | Raise (ValueError _) => handler
  end.

(** ** Dates and their formatting *)

Record date := { year : N; month : N; day : N }.

(** [datetime._is_leap] *)
Definition is_leap (y : N) : bool :=
  (y mod 4 =? 0) && (negb (y mod 100 =? 0) || (y mod 400 =? 0)).

(** [datetime._days_in_month], for a month in 1..12. *)
Definition days_in_month (y m : N) : N :=
  if (m =? 2) && is_leap y then 29
  else nth (N.to_nat m) [0; 31; 28; 31; 30; 31; 30; 31; 31; 30; 31; 30; 31] 0.

(** The range checks of the [date] constructor (MINYEAR = 1, MAXYEAR = 9999). *)
Definition valid_date (y m d : N) : bool :=
  (1 <=? y) && (y <=? 9999) && (1 <=? m) && (m <=? 12) &&
  (1 <=? d) && (d <=? days_in_month y m).

Fixpoint uint_digits (u : Decimal.uint) : str :=
  match u with
  | Decimal.Nil => []
  | Decimal.D0 u => 48 :: uint_digits u
  | Decimal.D1 u => 49 :: uint_digits u
  | Decimal.D2 u => 50 :: uint_digits u
  | Decimal.D3 u => 51 :: uint_digits u
  | Decimal.D4 u => 52 :: uint_digits u
  | Decimal.D5 u => 53 :: uint_digits u
  | Decimal.D6 u => 54 :: uint_digits u
  | Decimal.D7 u => 55 :: uint_digits u
  | Decimal.D8 u => 56 :: uint_digits u
  | Decimal.D9 u => 57 :: uint_digits u
  end.

(** [f"{n:0{width}d}"] for a natural number: its decimal digits, padded with
    zeros on the left up to [width] characters. *)
Definition format_0d (width : nat) (n : N) : str :=
  let digits := uint_digits (N.to_uint n) in
  replicate (width - length digits) 48 ++ digits.

(** ** Regular expressions, as lists of successes

    A matcher maps the remaining input to the ways its pattern can match a
    prefix of it, each a pair of the matched text and the rest, in the order
    in which [re]'s backtracking tries them. *)

Definition matcher := str → list (str * str).

Definition one_of (p : N → bool) : matcher := λ s,
  match s with
  | c :: rest => if p c then [([c], rest)] else []
  | [] => []
  end.

Definition then_ (m1 m2 : matcher) : matcher := λ s,
  '(a, r1) ← m1 s; '(b, r2) ← m2 r1; [(a ++ b, r2)].

Definition alternatives (ms : list matcher) : matcher := λ s, m ← ms; m s.

Definition chr (c : N) : matcher := one_of (N.eqb c).
Definition in_range (lo hi : N) : matcher := one_of (λ c, (lo <=? c) && (c <=? hi)).

(** ** Findings *)

(** The issue messages of [analyze_password], by kind.  The message about the
    date of birth carries the tokens found, sorted. *)
Inductive issue :=
  | CONTAINS_FIRST_NAME
  | CONTAINS_LAST_NAME
  | CONTAINS_BIRTH_FRAGMENT (tokens : list str)
  | INVALID_DOB_FORMAT
  | TOO_SHORT
  | MEDIUM_LENGTH
  | SINGLE_CHAR_CLASS
  | TWO_CHAR_CLASSES
  | NO_SPECIAL_CHARS
  | REPEATED_CHARS
  | HAS_SEQUENCE
  | COMMON_WORD.

(** The fourteen recommendation messages, pairwise distinct texts in the
    source, one constructor each (in the order of the source lines). *)
Inductive recommendation :=
  | AVOID_FIRST_NAME      (* line 64 *)
  | AVOID_LAST_NAME       (* line 69 *)
  | AVOID_BIRTH_DATE      (* line 77 *)
  | ENTER_VALID_DOB       (* line 81 *)
  | USE_AT_LEAST_12       (* line 88 *)
  | PREFER_12_OR_MORE     (* line 92 *)
  | LENGTH_GOOD           (* line 95 *)
  | MIX_CLASSES           (* line 103 *)
  | ADD_MORE_CLASSES      (* line 107 *)
  | ADD_SPECIAL           (* line 111 *)
  | AVOID_REPEATS         (* line 117 *)
  | AVOID_SEQUENCES       (* line 122 *)
  | AVOID_COMMON_WORDS    (* line 129 *)
  | GOOD_PRACTICE.        (* line 136 *)

#[export] Instance recommendation_eq_dec : EqDecision recommendation.
Proof. solve_decision. Defined.

(** The local variables [issues], [recs] and [score] of [analyze_password]. *)
Record vars := { v_issues : list issue; v_recs : list recommendation; v_score : Z }.

(** [issues.append(i); score -= penalty; recs.append(r)] *)
Definition flag (i : issue) (penalty : Z) (r : recommendation) (v : vars) : vars :=
  {| v_issues := v_issues v ++ [i];
     v_recs := v_recs v ++ [r];
     v_score := (v_score v - penalty)%Z |}.

(** [recs.append(r)] *)
Definition advise (r : recommendation) (v : vars) : vars :=
  {| v_issues := v_issues v; v_recs := v_recs v ++ [r]; v_score := v_score v |}.

Record char_class_flags :=
  { lowercase : bool; uppercase : bool; digits : bool; special : bool }.

(** The dictionary [analyze_password] returns. *)
Record analysis := {
  score : Z;
  issues : list issue;
  recommendations : list recommendation;
  pw_length : Z;
  classes : char_class_flags
}.

(** ** Dictionaries

    A [dict] keeps its keys in insertion order: an association list. *)
Section Dict.
Context {K V : Type} `{EqDecision K}.

(** [d[k] = v]: an existing key keeps its place, a new one goes last. *)
Fixpoint dict_setitem (d : list (K * V)) (k : K) (v : V) : list (K * V) :=
  match d with
  | [] => [(k, v)]
  | (k', v') :: d' =>
      if decide (k' = k) then (k', v) :: d' else (k', v') :: dict_setitem d' k v
  end.

(** [dict.fromkeys(keys)], every value [None] (here [v]). *)
Definition dict_fromkeys (keys : list K) (v : V) : list (K * V) :=
  foldl (λ d k, dict_setitem d k v) [] keys.

(** [list(d)]: the keys, in order. *)
Definition dict_keys (d : list (K * V)) : list K := d.*1.

End Dict.

(** ** The fixed tables of the module *)

Definition COMMON_WORDS : gset str :=
  {[ py "password"; py "qwerty"; py "admin"; py "welcome"; py "login";
     py "user"; py "iloveyou"; py "123456"; py "12345678"; py "111111";
     py "000000" ]}.

Definition sequences : list str :=
  [ py "0123456789"; py "abcdefghijklmnopqrstuvwxyz"; py "qwertyuiop";
    py "asdfghjkl"; py "zxcvbnm" ].

(** [s[i:j]] for [0 <= i <= j]. *)
Definition slice (s : str) (i j : nat) : str := take (j - i) (drop i s).

(** Lexicographic order on strings, by code point: [a <= b]. *)
Fixpoint str_leb (a b : str) : bool :=
  match a, b with
  | [], _ => true
  | _ :: _, [] => false
  | x :: a', y :: b' => (x <? y) || ((x =? y) && str_leb a' b')
  end.

(** [sorted(l)] on strings. *)
Definition sorted (l : list str) : list str := merge_sort (λ a b, str_leb a b) l.

(** [re.search(r"(.)\1\1", s)] finds a match: some character other than the
    newline stands three times in a row. *)
Fixpoint has_triple_repeat (s : str) : bool :=
  match s with
  | a :: s' =>
      match s' with
      | b :: c :: _ => (negb (a =? 10) && (a =? b) && (b =? c)) || has_triple_repeat s'
      | _ => false
      end
  | [] => false
  end.

(** [max(1, min(10, score))] *)
Definition clamp (score : Z) : Z := Z.max 1 (Z.min 10 score).

(** ** Notions the statements use *)

(** [w] occurs in [s] as a contiguous run of characters. *)
Definition substring (w s : str) : Prop := ∃ pre post, s = pre ++ w ++ post.

(** The variables at the start of [analyze_password]. *)
Definition initial_vars : vars := {| v_issues := []; v_recs := []; v_score := 10 |}.

(** [n] written with exactly two, and with exactly four, decimal digits. *)
Definition two_digits (n : N) : str := [48 + n / 10; 48 + n mod 10].
Definition four_digits (n : N) : str :=
  [48 + n / 1000; 48 + (n / 100) mod 10; 48 + (n / 10) mod 10; 48 + n mod 10].

(** The ten tokens of a date: dd, mm, yyyy, yy (the last two digits of the
    year), dd+mm, mm+dd, yyyy+mm+dd, dd+mm+yyyy, yy+mm+dd and dd+mm+yy. *)
Definition birth_tokens (dt : date) : gset str :=
  let dd := two_digits (day dt) in
  let mm := two_digits (month dt) in
  let yyyy := four_digits (year dt) in
  let yy := two_digits (year dt mod 100) in
  {[ dd; mm; yyyy; yy;
     dd ++ mm; mm ++ dd;
     yyyy ++ mm ++ dd; dd ++ mm ++ yyyy;
     yy ++ mm ++ dd; dd ++ mm ++ yy ]}.

(** The fields of [s] between the occurrences of [sep] ([s.split(sep)]). *)
Fixpoint split_on (sep : N) (s : str) : list str :=
  match s with
  | [] => [[]]
  | c :: s' =>
      if c =? sep then [] :: split_on sep s'
      else match split_on sep s' with
           | field :: fields => (c :: field) :: fields
           | [] => [[c]]
           end
  end.

(** A date of birth in the strict form DD.MM.YYYY: ten characters, two
    ASCII digits for the day, two for the month, four for the year, periods
    between them, and a day that exists in that month of that year. *)
Definition strict_dob (s : str) : option date :=
  match s with
  | [d1; d2; p1; m1; m2; p2; y1; y2; y3; y4] =>
      if forallb ascii_isdigit [d1; d2; m1; m2; y1; y2; y3; y4]
         && (p1 =? 46) && (p2 =? 46)
      then
        let d := 10 * (d1 - 48) + (d2 - 48) in
        let m := 10 * (m1 - 48) + (m2 - 48) in
        let y := 1000 * (y1 - 48) + 100 * (y2 - 48) + 10 * (y3 - 48) + (y4 - 48) in
        if valid_date y m d then Some {| year := y; month := m; day := d |} else None
      else None
  | _ => None
  end.

(** The index at which [x] first occurs in [l]. *)
Fixpoint first_index {A} `{EqDecision A} (x : A) (l : list A) : option nat :=
  match l with
  | [] => None
  | y :: l' => if decide (y = x) then Some 0%nat else S <$> first_index x l'
  end.

(** Each entry of [l] once, at the place of its first occurrence. *)
Fixpoint first_occurrences {A} `{EqDecision A} (l : list A) : list A :=
  match l with
  | [] => []
  | x :: l' => x :: filter (λ y, y ≠ x) (first_occurrences l')
  end.

(** Variables that record nothing, and the findings of [b] put after those
    of [a]: issues and recommendations in order, penalties added up. *)
Definition no_findings : vars := {| v_issues := []; v_recs := []; v_score := 0 |}.

Definition combine (a b : vars) : vars :=
  {| v_issues := v_issues a ++ v_issues b;
     v_recs := v_recs a ++ v_recs b;
     v_score := (v_score a + v_score b)%Z |}.

(** How many of the four character classes are present. *)
Definition class_count (c : char_class_flags) : nat :=
  count_occ bool_dec [lowercase c; uppercase c; digits c; special c] true.

(** What one check may do to the variables: nothing, one issue with its
    penalty (at least one point) and recommendation, or one recommendation. *)
Inductive check_step : vars → vars → Prop :=
  | step_skip v : check_step v v
  | step_flag i k r v : (1 ≤ k)%Z → check_step v (flag i k r v)
  | step_advise r v : check_step v (advise r v).

(** The findings of a check made on its own: nothing, or an issue of kind
    [I] with a recommendation of kind [R], or such a recommendation alone. *)
Inductive finds (I : issue → Prop) (R : recommendation → Prop) : vars → Prop :=
  | finds_nothing : finds I R no_findings
  | finds_flag i k r : I i → R r → finds I R (flag i k r no_findings)
  | finds_advice r : R r → finds I R (advise r no_findings).

(** The invariant of the aggregation: every issue has cost at least one
    point, and without issues the score is untouched. *)
Definition penalised (v : vars) : Prop :=
  (v_score v ≤ 10 - Z.of_nat (length (v_issues v)))%Z ∧
  (v_issues v = [] → v_score v = 10%Z).

(** ** The tables the checks follow

    The penalty and the recommendation that come with each issue, and the
    place of each issue and recommendation in the order of the checks. *)

Definition issue_penalty (i : issue) : Z :=
  match i with
  | CONTAINS_FIRST_NAME | CONTAINS_LAST_NAME | CONTAINS_BIRTH_FRAGMENT _ => 3
  | INVALID_DOB_FORMAT => 1
  | TOO_SHORT => 4
  | MEDIUM_LENGTH => 2
  | SINGLE_CHAR_CLASS => 4
  | TWO_CHAR_CLASSES => 2
  | NO_SPECIAL_CHARS => 1
  | REPEATED_CHARS => 1
  | HAS_SEQUENCE => 2
  | COMMON_WORD => 3
  end%Z.

Definition issue_advice (i : issue) : recommendation :=
  match i with
  | CONTAINS_FIRST_NAME => AVOID_FIRST_NAME
  | CONTAINS_LAST_NAME => AVOID_LAST_NAME
  | CONTAINS_BIRTH_FRAGMENT _ => AVOID_BIRTH_DATE
  | INVALID_DOB_FORMAT => ENTER_VALID_DOB
  | TOO_SHORT => USE_AT_LEAST_12
  | MEDIUM_LENGTH => PREFER_12_OR_MORE
  | SINGLE_CHAR_CLASS => MIX_CLASSES
  | TWO_CHAR_CLASSES => ADD_MORE_CLASSES
  | NO_SPECIAL_CHARS => ADD_SPECIAL
  | REPEATED_CHARS => AVOID_REPEATS
  | HAS_SEQUENCE => AVOID_SEQUENCES
  | COMMON_WORD => AVOID_COMMON_WORDS
  end.

(** The check that reports an issue, counted from 1 in the order of the
    source: first name, last name, date of birth, length, character classes,
    repeats, sequences, common words. *)
Definition issue_rank (i : issue) : nat :=
  match i with
  | CONTAINS_FIRST_NAME => 1
  | CONTAINS_LAST_NAME => 2
  | CONTAINS_BIRTH_FRAGMENT _ | INVALID_DOB_FORMAT => 3
  | TOO_SHORT | MEDIUM_LENGTH => 4
  | SINGLE_CHAR_CLASS | TWO_CHAR_CLASSES | NO_SPECIAL_CHARS => 5
  | REPEATED_CHARS => 6
  | HAS_SEQUENCE => 7
  | COMMON_WORD => 8
  end%nat.

(** The same for a recommendation; the advice on good practice, appended
    after the checks, comes ninth. *)
Definition recommendation_rank (r : recommendation) : nat :=
  match r with
  | AVOID_FIRST_NAME => 1
  | AVOID_LAST_NAME => 2
  | AVOID_BIRTH_DATE | ENTER_VALID_DOB => 3
  | USE_AT_LEAST_12 | PREFER_12_OR_MORE | LENGTH_GOOD => 4
  | MIX_CLASSES | ADD_MORE_CLASSES | ADD_SPECIAL => 5
  | AVOID_REPEATS => 6
  | AVOID_SEQUENCES => 7
  | AVOID_COMMON_WORDS => 8
  | GOOD_PRACTICE => 9
  end%nat.

(** The findings of the [k]-th check made on its own: nothing, or one issue
    of that check with the penalty and the recommendation of the tables, or
    (for the length check) the remark that the length is good. *)
Inductive finding (k : nat) : vars → Prop :=
  | finding_nothing : finding k no_findings
  | finding_issue i :
      issue_rank i = k →
      finding k (flag i (issue_penalty i) (issue_advice i) no_findings)
  | finding_length_good : k = 4%nat → finding k (advise LENGTH_GOOD no_findings).

(** The sum of the penalties of a list of issues. *)
Definition total_penalty (l : list issue) : Z := foldr Z.add 0%Z (issue_penalty <$> l).

(** The most the checks before the [k]-th can cost together: 3, 3, 3, 4, 4,
    1, 2 and 3 points for the eight checks. *)
Definition penalty_budget (k : nat) : Z :=
  match k with
  | 0%nat | 1%nat => 0%Z
  | 2%nat => 3%Z
  | 3%nat => 6%Z
  | 4%nat => 9%Z
  | 5%nat => 13%Z
  | 6%nat => 17%Z
  | 7%nat => 18%Z
  | 8%nat => 20%Z
  | _ => 23%Z
  end.

(** [a <= b] on strings, as a relation. *)
Definition str_le : relation str := λ a b, str_leb a b.

(** A string of ASCII characters, and a string of ASCII digits. *)
Definition ascii_string (s : str) : Prop := Forall (λ c, c < 128) s.
Definition digit_string (s : str) : Prop := Forall (λ c, 48 ≤ c ≤ 57) s.

(** The class [[\s_\-\.]] on the ASCII range: the ASCII white space, the
    underscore, the hyphen and the period. *)
Definition ascii_is_separator (c : N) : bool :=
  ascii_isspace c || (c =? 95) || (c =? 45) || (c =? 46).

(** What the aggregation keeps true of the variables after the checks
    before the [k]-th: the score is 10 less the penalties of the issues
    recorded, issues and recommendations stand in the order of the checks
    that gave them, and every recommendation is the advice of a recorded
    issue or the remark on the length. *)
Record tabled (k : nat) (v : vars) : Prop := {
  tabled_score : v_score v = (10 - total_penalty (v_issues v))%Z;
  tabled_issues : StronglySorted lt (issue_rank <$> v_issues v);
  tabled_issues_lt : Forall (λ n, (n < k)%nat) (issue_rank <$> v_issues v);
  tabled_recs : StronglySorted lt (recommendation_rank <$> v_recs v);
  tabled_recs_lt : Forall (λ n, (n < k)%nat) (recommendation_rank <$> v_recs v);
  tabled_advice : ∀ i, i ∈ v_issues v → issue_advice i ∈ v_recs v;
  tabled_origin : ∀ r, r ∈ v_recs v →
                    r = LENGTH_GOOD ∨ ∃ i, i ∈ v_issues v ∧ issue_advice i = r;
  tabled_length :
    length (v_recs v) =
      (length (v_issues v) + if bool_decide (LENGTH_GOOD ∈ v_recs v) then 1 else 0)%nat;
  tabled_budget : (0 ≤ total_penalty (v_issues v) ≤ penalty_budget k)%Z
}.

(** ** The console of [main]

    [main] reads lines from standard input and writes to standard output.
    The console holds the lines still to be read (without their line ends)
    and what has been written so far; the texts written are taken by kind,
    as the messages of the analysis are. *)

(** The keys of the dictionary of character classes. *)
Inductive class_key := KEY_LOWERCASE | KEY_UPPERCASE | KEY_DIGITS | KEY_SPECIAL.

Inductive prompt :=
  | ASK_FIRST_NAME        (* line 153 *)
  | ASK_LAST_NAME         (* line 154 *)
  | ASK_DOB               (* line 155 *)
  | ASK_PASSWORD.         (* line 156 *)

Inductive output :=
  | BANNER                                          (* line 152 *)
  | PROMPT (p : prompt)                             (* written by [input] *)
  | RESULT_HEADER                                   (* line 160 *)
  | SCORE_LINE (score : Z)                          (* line 161 *)
  | LENGTH_LINE (length : Z)                        (* line 162 *)
  | CLASSES_LINE (names : list class_key)           (* line 164, the names joined *)
  | CLASSES_LINE_NONE                               (* line 164, no name to join *)
  | ISSUES_HEADER                                   (* line 166 *)
  | ISSUE_LINE (i : Z) (x : issue)                  (* line 169 *)
  | NO_ISSUES_LINE                                  (* line 171 *)
  | RECOMMENDATIONS_HEADER                          (* line 173 *)
  | RECOMMENDATION_LINE (i : Z) (x : recommendation).  (* line 175 *)

Record console := { stdin : list str; stdout : list output }.

(** [input] raises [EOFError] at the end of the input; an exception of
    [analyze_password] would pass through [main]. *)
Inductive main_exception := EOFError | Uncaught (e : exception).

(** A command: from the console to its result, or the exception it raises,
    and the console it leaves. *)
Definition io (A : Type) : Type := console → (A + main_exception) * console.

#[export] Instance io_ret : MRet io := λ A a w, (inl a, w).
#[export] Instance io_bind : MBind io := λ A B f m w,
  match m w with
  | (inl a, w') => f a w'
  | (inr e, w') => (inr e, w')
  end.
#[export] Instance io_fmap : FMap io := λ A B f m w,
  match m w with
  | (inl a, w') => (inl (f a), w')
  | (inr e, w') => (inr e, w')
  end.

(** [print(x)] *)
Definition print (x : output) : io unit := λ w,
  (inl (), {| stdin := stdin w; stdout := stdout w ++ [x] |}).

(** [input(p)]: writes the prompt, then reads one line. *)
Definition input (p : prompt) : io str := λ w,
  let out := stdout w ++ [PROMPT p] in
  match stdin w with
  | [] => (inr EOFError, {| stdin := []; stdout := out |})
  | line :: rest => (inl line, {| stdin := rest; stdout := out |})
  end.

(** A call of a function that may raise. *)
Definition call {A} (m : outcome A) : io A := λ w,
  match m with
  | Return a => (inl a, w)
  | Raise e => (inr (Uncaught e), w)
  end.

(** [for x in l: body(x)] *)
Fixpoint for_each {A} (body : A → io unit) (l : list A) : io unit :=
  match l with
  | [] => mret ()
  | x :: l' => body x;; for_each body l'
  end.

(** [enumerate(l, start)] *)
Definition enumerate {A} (l : list A) (start : Z) : list (Z * A) :=
  imap (λ i x, ((start + Z.of_nat i)%Z, x)) l.

(** The flag that the dictionary of character classes holds for a key. *)
Definition class_flag (cls : char_class_flags) (k : class_key) : bool :=
  match k with
  | KEY_LOWERCASE => lowercase cls
  | KEY_UPPERCASE => uppercase cls
  | KEY_DIGITS => digits cls
  | KEY_SPECIAL => special cls
  end.

(** [cls.items()] for the dictionary of lines 143-148. *)
Definition class_items (cls : char_class_flags) : list (class_key * bool) :=
  [ (KEY_LOWERCASE, lowercase cls); (KEY_UPPERCASE, uppercase cls);
    (KEY_DIGITS, digits cls); (KEY_SPECIAL, special cls) ].

Section WithUnicode.
Context {U : Unicode}.

Definition isspace (c : N) : bool :=
  if is_ascii c then ascii_isspace c else uni_isspace c.
Definition islower (c : N) : bool :=
  if is_ascii c then ascii_islower c else uni_islower c.
Definition isupper (c : N) : bool :=
  if is_ascii c then ascii_isupper c else uni_isupper c.
Definition isdigit (c : N) : bool :=
  if is_ascii c then ascii_isdigit c else uni_isdigit c.
Definition isalnum (c : N) : bool :=
  if is_ascii c then ascii_isalnum c else uni_isalnum c.

(** The value of a decimal digit ([\d] of [re], the digits [int] reads). *)
Definition decimal (c : N) : option N :=
  if is_ascii c then (if ascii_isdigit c then Some (c - 48) else None)
  else uni_decimal c.

Definition lower_at (s : str) (i : nat) (c : N) : str :=
  if is_ascii c then [ascii_tolower c] else uni_lower s i c.

(** [s.lower()] *)
Definition lower (s : str) : str := concat (imap (lower_at s) s).

Fixpoint lstrip (s : str) : str :=
  match s with
  | c :: s' => if isspace c then lstrip s' else s
  | [] => []
  end.

(** [s.strip()] *)
Definition strip (s : str) : str := rev (lstrip (rev (lstrip s))).

(** The class [[\s_\-\.]] of [normalize]'s pattern. *)
Definition is_separator (c : N) : bool :=
  isspace c || (c =? 95) || (c =? 45) || (c =? 46).

(** [re.sub(r"[\s_\-\.]+", "", s)]: every maximal run of separator
    characters is replaced by the empty string, which leaves exactly the
    characters outside the class, in order. *)
Definition remove_separators (s : str) : str :=
  List.filter (λ c, negb (is_separator c)) s.

Definition normalize (s : str) : str := remove_separators (lower (strip s)).

(** ** [datetime.strptime(dob, "%d.%m.%Y")]

    [_strptime] compiles the format to the regular expression
    [(?P<d>3[0-1]|[1-2]\d|0[1-9]|[1-9]| [1-9])\.(?P<m>1[0-2]|0[1-9]|[1-9])\.(?P<Y>\d\d\d\d)]
    (with IGNORECASE, which changes nothing for digits, the period and the
    space), matches it at the start of the string, refuses what is left
    over, converts the groups with [int] and builds the date. *)

(** [\d] *)
Definition re_digit : matcher := one_of (λ c, bool_decide (is_Some (decimal c))).

Definition re_d : matcher :=
  alternatives
    [ then_ (chr 51) (in_range 48 49);
      then_ (in_range 49 50) re_digit;
      then_ (chr 48) (in_range 49 57);
      in_range 49 57;
      then_ (chr 32) (in_range 49 57) ].

Definition re_m : matcher :=
  alternatives
    [ then_ (chr 49) (in_range 48 50);
      then_ (chr 48) (in_range 49 57);
      in_range 49 57 ].

Definition re_Y : matcher :=
  then_ re_digit (then_ re_digit (then_ re_digit re_digit)).

(** The groups d, m, Y of each match and the text after it. *)
Definition format_regex (s : str) : list (str * str * str * str) :=
  '(d, r1) ← re_d s;
  '(_, r2) ← chr 46 r1;
  '(m, r3) ← re_m r2;
  '(_, r4) ← chr 46 r3;
  '(y, r5) ← re_Y r4;
  [(d, m, y, r5)].

(** [int(s)] on the texts the groups capture: blanks around the digits are
    skipped, the digits are read in base ten. *)
Definition int (s : str) : option N :=
  let t := strip s in
  if truthy t
  then foldl (λ acc c, a ← acc; v ← decimal c; Some (10 * a + v)) (Some 0) t
  else None.

Definition strptime (data_string : str) : outcome date :=
  match head (format_regex data_string) with
  | None => Raise (ValueError does_not_match)
  | Some (d, m, y, rest) =>
      if truthy rest then Raise (ValueError unconverted_data)
      else match int y, int m, int d with
           | Some y, Some m, Some d =>
               if valid_date y m d
               then Return {| year := y; month := m; day := d |}
               else Raise (ValueError out_of_range)
           | _, _, _ => Raise (ValueError invalid_literal)
           end
  end.

Definition extract_birth_tokens (dob : str) : outcome (gset str) :=
  dt ← strptime dob;
  let dd := format_0d 2 (day dt) in
  let mm := format_0d 2 (month dt) in
  let yyyy := format_0d 4 (year dt) in
  let yy := drop 2 yyyy in
  mret {[ dd; mm; yyyy; yy;
          dd ++ mm; mm ++ dd;
          yyyy ++ mm ++ dd; dd ++ mm ++ yyyy;
          yy ++ mm ++ dd; dd ++ mm ++ yy ]}.

(** ** The checks *)

Definition char_classes (password : str) : bool * bool * bool * bool :=
  let has_lower := existsb islower password in
  let has_upper := existsb isupper password in
  let has_digit := existsb isdigit password in
  let has_special := existsb (λ c, negb (isalnum c)) password in
  (has_lower, has_upper, has_digit, has_special).

Definition has_sequences (password : str) : bool :=
  let p := lower password in
  existsb (λ sq,
    existsb (λ i, str_in (slice sq i (i + 4)) p) (seq 0 (length sq - 3)))
    sequences.

(** Lines 61-64 and 66-69. *)
Definition check_first_name (p_norm fn_norm : str) (v : vars) : vars :=
  if truthy fn_norm && str_in fn_norm p_norm
  then flag CONTAINS_FIRST_NAME 3 AVOID_FIRST_NAME v else v.

Definition check_last_name (p_norm ln_norm : str) (v : vars) : vars :=
  if truthy ln_norm && str_in ln_norm p_norm
  then flag CONTAINS_LAST_NAME 3 AVOID_LAST_NAME v else v.

(** Lines 71-81. *)
Definition check_birth (password dob : str) (v : vars) : outcome vars :=
  try_except_ValueError
    (dob_tokens ← extract_birth_tokens dob;
     let found_tokens := List.filter (λ t, str_in t password) (elements dob_tokens) in
     mret (match found_tokens with
           | [] => v
           | _ => flag (CONTAINS_BIRTH_FRAGMENT (sorted found_tokens)) 3 AVOID_BIRTH_DATE v
           end))
    (mret (flag INVALID_DOB_FORMAT 1 ENTER_VALID_DOB v)).

(** Lines 84-95. *)
Definition check_length (password : str) (v : vars) : vars :=
  let length := Z.of_nat (length password) in
  if (length <? 8)%Z then flag TOO_SHORT 4 USE_AT_LEAST_12 v
  else if ((8 <=? length) && (length <? 12))%Z then flag MEDIUM_LENGTH 2 PREFER_12_OR_MORE v
  else if ((12 <=? length) && (length <? 16))%Z then advise LENGTH_GOOD v
  else v.

(** Lines 97-111. *)
Definition check_classes (password : str) (v : vars) : vars :=
  let '(has_lower, has_upper, has_digit, has_special) := char_classes password in
  let classes := foldl Z.add 0%Z (Z.b2z <$> [has_lower; has_upper; has_digit; has_special]) in
  if (classes <=? 1)%Z then flag SINGLE_CHAR_CLASS 4 MIX_CLASSES v
  else if (classes =? 2)%Z then flag TWO_CHAR_CLASSES 2 ADD_MORE_CLASSES v
  else if (classes =? 3)%Z && negb has_special then flag NO_SPECIAL_CHARS 1 ADD_SPECIAL v
  else v.

(** Lines 114-117. *)
Definition check_repeats (password : str) (v : vars) : vars :=
  if has_triple_repeat password then flag REPEATED_CHARS 1 AVOID_REPEATS v else v.

(** Lines 119-122. *)
Definition check_sequences (password : str) (v : vars) : vars :=
  if has_sequences password then flag HAS_SEQUENCE 2 AVOID_SEQUENCES v else v.

(** Lines 125-129. *)
Definition check_common_words (password : str) (v : vars) : vars :=
  let p_low := lower password in
  if existsb (λ w, str_in w p_low) (elements COMMON_WORDS)
  then flag COMMON_WORD 3 AVOID_COMMON_WORDS v else v.

(** Lines 52-129 of [analyze_password]: the variables [issues], [recs] and
    [score] as they stand before the score is clamped. *)
Definition run_checks (password first_name last_name dob : str) : outcome vars :=
  let v := {| v_issues := []; v_recs := []; v_score := 10 |} in
  let p_norm := normalize password in
  let fn_norm := normalize first_name in
  let ln_norm := normalize last_name in
  let v := check_first_name p_norm fn_norm v in
  let v := check_last_name p_norm ln_norm v in
  v ← check_birth password dob v;
  let v := check_length password v in
  let v := check_classes password v in
  let v := check_repeats password v in
  let v := check_sequences password v in
  let v := check_common_words password v in
  mret v.

(** The whole function: lines 131-149 after the checks.  The flags of
    [char_classes] in the result are the ones line 97 computed. *)
Definition analyze_password (password first_name last_name dob : str)
    : outcome analysis :=
  v ← run_checks password first_name last_name dob;
  let score := clamp (v_score v) in
  let v := match v_issues v with [] => advise GOOD_PRACTICE v | _ => v end in
  let '(has_lower, has_upper, has_digit, has_special) := char_classes password in
  mret {| score := score;
          issues := v_issues v;
          recommendations := dict_keys (dict_fromkeys (v_recs v) ());
          pw_length := Z.of_nat (length password);
          classes := {| lowercase := has_lower; uppercase := has_upper;
                        digits := has_digit; special := has_special |} |}.

(** ** The dates of birth [strptime] reads, stated on their own

    A day is written as one digit 1-9, as two digits 01-31, or as a space
    and one digit 1-9; a month as one digit 1-9 or as two digits 01-12; a
    year as four decimal digits.  The leading digit of a day or a month is
    an ASCII digit; where the pattern has [\d] any decimal digit stands. *)

Definition in_1_9 (c : N) : bool := (49 <=? c) && (c <=? 57).

Definition day_text (s : str) : option N :=
  match s with
  | [b] => if in_1_9 b then Some (b - 48) else None
  | [a; b] =>
      if (a =? 51) && (48 <=? b) && (b <=? 49) then Some (30 + (b - 48))
      else if (49 <=? a) && (a <=? 50) then v ← decimal b; Some (10 * (a - 48) + v)
      else if ((a =? 48) || (a =? 32)) && in_1_9 b then Some (b - 48)
      else None
  | _ => None
  end.

Definition month_text (s : str) : option N :=
  match s with
  | [b] => if in_1_9 b then Some (b - 48) else None
  | [a; b] =>
      if (a =? 49) && (48 <=? b) && (b <=? 50) then Some (10 + (b - 48))
      else if (a =? 48) && in_1_9 b then Some (b - 48)
      else None
  | _ => None
  end.

Definition year_text (s : str) : option N :=
  match s with
  | [a; b; c; d] =>
      va ← decimal a; vb ← decimal b; vc ← decimal c; vd ← decimal d;
      Some (1000 * va + 100 * vb + 10 * vc + vd)
  | _ => None
  end.

(** The date a string of the form day.month.year names, if it names one. *)
Definition read_dob (s : str) : option date :=
  match split_on 46 s with
  | [ds; ms; ys] =>
      d ← day_text ds; m ← month_text ms; y ← year_text ys;
      if valid_date y m d then Some {| year := y; month := m; day := d |} else None
  | _ => None
  end.

(** ** The command line *)

(** Lines 151-175. *)
Definition main : io unit :=
  print BANNER;;
  first_name ← strip <$> input ASK_FIRST_NAME;
  last_name ← strip <$> input ASK_LAST_NAME;
  dob ← strip <$> input ASK_DOB;
  password ← strip <$> input ASK_PASSWORD;
  result ← call (analyze_password password first_name last_name dob);
  print RESULT_HEADER;;
  print (SCORE_LINE (score result));;
  print (LENGTH_LINE (pw_length result));;
  let cls := classes result in
  print (match (List.filter snd (class_items cls)).*1 with
         | [] => CLASSES_LINE_NONE
         | names => CLASSES_LINE names
         end);;
  print ISSUES_HEADER;;
  (match issues result with
   | [] => print NO_ISSUES_LINE
   | _ => for_each (λ '(i, issue), print (ISSUE_LINE i issue))
                   (enumerate (issues result) 1)
   end);;
  print RECOMMENDATIONS_HEADER;;
  for_each (λ '(i, rec), print (RECOMMENDATION_LINE i rec))
           (enumerate (recommendations result) 1).

(** * Properties *)

(** ** Substring containment *)

Lemma startswith_spec (w s : str) :
  startswith w s = true ↔ ∃ post, s = w ++ post.
Proof.
  revert s. induction w as [|a w IH]; intros s; simpl.
  - split; eauto.
  - destruct s as [|b s]; simpl.
    + split; [discriminate | intros [post H]; discriminate H].
    + rewrite andb_true_iff, N.eqb_eq, IH. split.
      * intros [-> [post ->]]. eauto.
      * intros [post H]. injection H as -> ->. eauto.
Qed.

Lemma str_in_spec (w s : str) : str_in w s = true ↔ substring w s.
Proof.
  unfold substring. induction s as [|b s IH].
  - simpl. rewrite orb_false_r, startswith_spec. split.
    + intros [post H]. exists [], post. exact H.
    + intros [pre [post H]]. destruct pre as [|c pre]; [eauto | discriminate H].
  - cbn [str_in]. rewrite orb_true_iff, startswith_spec, IH. split.
    + intros [[post H] | [pre [post H]]].
      * exists [], post. exact H.
      * exists (b :: pre), post. rewrite H. reflexivity.
    + intros [pre [post H]]. destruct pre as [|c pre].
      * left. eauto.
      * right. injection H as _ H. eauto.
Qed.

(** ** The checks, one step each *)

Lemma check_first_name_step pn fn v : check_step v (check_first_name pn fn v).
Proof. unfold check_first_name. case_match; constructor; lia. Qed.

Lemma check_last_name_step pn ln v : check_step v (check_last_name pn ln v).
Proof. unfold check_last_name. case_match; constructor; lia. Qed.

Lemma check_birth_returns password dob v :
  ∃ v', check_birth password dob v = Return v' ∧ check_step v v'.
Proof.
  unfold check_birth. destruct (extract_birth_tokens dob) as [tokens|[why]]; simpl.
  - eexists. split; [reflexivity|]. case_match; constructor; lia.
  - eexists. split; [reflexivity|]. constructor; lia.
Qed.

Lemma check_length_step password v : check_step v (check_length password v).
Proof. unfold check_length. repeat case_match; constructor; lia. Qed.

Lemma check_classes_step password v : check_step v (check_classes password v).
Proof.
  unfold check_classes. destruct (char_classes password) as [[[l u] d] s].
  repeat case_match; constructor; lia.
Qed.

Lemma check_repeats_step password v : check_step v (check_repeats password v).
Proof. unfold check_repeats. case_match; constructor; lia. Qed.

Lemma check_sequences_step password v : check_step v (check_sequences password v).
Proof. unfold check_sequences. case_match; constructor; lia. Qed.

Lemma check_common_words_step password v : check_step v (check_common_words password v).
Proof. unfold check_common_words. case_match; constructor; lia. Qed.

Lemma check_step_grows v v' :
  check_step v v' →
  (v_score v' ≤ v_score v)%Z ∧
  (∃ more, v_issues v' = v_issues v ++ more) ∧
  (∃ more, v_recs v' = v_recs v ++ more).
Proof.
  intros [|i k r w Hk|r w]; simpl.
  - split; [lia|]. split; exists []; by rewrite app_nil_r.
  - split; [lia|]. split; eauto.
  - split; [lia|]. split; [exists []; by rewrite app_nil_r | eauto].
Qed.

Lemma check_steps_grow v v' :
  rtc check_step v v' →
  (v_score v' ≤ v_score v)%Z ∧
  (∃ more, v_issues v' = v_issues v ++ more) ∧
  (∃ more, v_recs v' = v_recs v ++ more).
Proof.
  induction 1 as [v|v w v' Hstep _ IH].
  - split; [lia|]. split; exists []; by rewrite app_nil_r.
  - destruct (check_step_grows _ _ Hstep) as (Hs & [mi Hi] & [mr Hr]).
    destruct IH as (Hs' & [mi' Hi'] & [mr' Hr']).
    split; [lia|]. split.
    + exists (mi ++ mi'). by rewrite Hi', Hi, <- app_assoc.
    + exists (mr ++ mr'). by rewrite Hr', Hr, <- app_assoc.
Qed.

Lemma check_step_penalised v v' : check_step v v' → penalised v → penalised v'.
Proof.
  unfold penalised. intros [|i k r w Hk|r w] [Hle Hnil]; simpl.
  - done.
  - split.
    + rewrite length_app. simpl. lia.
    + intros H. by destruct (v_issues w).
  - done.
Qed.

Lemma check_steps_penalised v v' : rtc check_step v v' → penalised v → penalised v'.
Proof. induction 1; eauto using check_step_penalised. Qed.

Lemma initial_vars_penalised : penalised initial_vars.
Proof. split; simpl; [lia | done]. Qed.

(** [run_checks] always comes back: the checks on the names, then the one on
    the date of birth (which returns [vb] whatever the date), then the
    others, each applied to the variables the one before left. *)
Lemma run_checks_unfold password first_name last_name dob :
  let v2 := check_last_name (normalize password) (normalize last_name)
              (check_first_name (normalize password) (normalize first_name) initial_vars) in
  ∃ vb,
    check_birth password dob v2 = Return vb ∧ check_step v2 vb ∧
    run_checks password first_name last_name dob =
      Return (check_common_words password (check_sequences password
        (check_repeats password (check_classes password
          (check_length password vb))))).
Proof.
  intros v2. destruct (check_birth_returns password dob v2) as (vb & Hb & Hstep).
  exists vb. split; [done|]. split; [done|].
  unfold run_checks. fold initial_vars. fold v2. rewrite Hb. reflexivity.
Qed.

Lemma later_checks_steps password vb :
  rtc check_step vb
    (check_common_words password (check_sequences password
      (check_repeats password (check_classes password
        (check_length password vb))))).
Proof.
  eapply rtc_l; [apply check_length_step|].
  eapply rtc_l; [apply check_classes_step|].
  eapply rtc_l; [apply check_repeats_step|].
  eapply rtc_l; [apply check_sequences_step|].
  apply rtc_once, check_common_words_step.
Qed.

Lemma run_checks_returns password first_name last_name dob :
  ∃ v, run_checks password first_name last_name dob = Return v ∧
       rtc check_step
         (check_first_name (normalize password) (normalize first_name) initial_vars) v.
Proof.
  destruct (run_checks_unfold password first_name last_name dob) as (vb & Hb & Hstep & Hrun).
  eexists. split; [exact Hrun|].
  eapply rtc_l; [apply check_last_name_step|].
  eapply rtc_l; [exact Hstep|].
  apply later_checks_steps.
Qed.

(** [analyze_password] in terms of the variables [run_checks] leaves. *)
Lemma analyze_password_unfold password first_name last_name dob v :
  run_checks password first_name last_name dob = Return v →
  ∃ r, analyze_password password first_name last_name dob = Return r ∧
       score r = clamp (v_score v) ∧
       issues r = v_issues v ∧
       recommendations r =
         dict_keys (dict_fromkeys
           (v_recs (match v_issues v with [] => advise GOOD_PRACTICE v | _ => v end)) ()) ∧
       pw_length r = Z.of_nat (length password) ∧
       char_classes password =
         (lowercase (classes r), uppercase (classes r), digits (classes r),
          special (classes r)).
Proof.
  intros Hrun. unfold analyze_password. rewrite Hrun.
  destruct (char_classes password) as [[[l u] d] s].
  eexists. split; [reflexivity|]. simpl.
  split; [reflexivity|]. split; [|repeat split; reflexivity].
  destruct (v_issues v) eqn:E; simpl; congruence.
Qed.

(** C1. For every input, [analyze_password] returns a result whose score is
    an integer between 1 and 10, both included, whatever the penalties add
    up to. *)
Theorem score_between_1_and_10 password first_name last_name dob :
  ∃ r, analyze_password password first_name last_name dob = Return r ∧
       (1 ≤ score r ≤ 10)%Z.
Proof.
  destruct (run_checks_returns password first_name last_name dob) as (v & Hrun & _).
  destruct (analyze_password_unfold _ _ _ _ _ Hrun) as (r & Hr & Hscore & _).
  exists r. split; [exact Hr|]. rewrite Hscore. unfold clamp. lia.
Qed.

(** C10. For every input, the score of the result is 10 exactly when its
    list of issues is empty: each recorded issue costs at least one point, so
    a result with an issue scores at most 9, and without issues nothing is
    subtracted. *)
Theorem score_10_iff_no_issues password first_name last_name dob :
  ∃ r, analyze_password password first_name last_name dob = Return r ∧
       (score r = 10%Z ↔ issues r = []) ∧
       (issues r ≠ [] → (score r ≤ 9)%Z).
Proof.
  destruct (run_checks_returns password first_name last_name dob) as (v & Hrun & Hsteps).
  destruct (analyze_password_unfold _ _ _ _ _ Hrun) as (r & Hr & Hscore & Hissues & _).
  assert (penalised v) as [Hle Hnil].
  { eapply check_steps_penalised; [exact Hsteps|].
    eapply check_step_penalised; [apply check_first_name_step|].
    apply initial_vars_penalised. }
  exists r. split; [exact Hr|]. rewrite Hscore, Hissues. unfold clamp.
  destruct (v_issues v) as [|i more] eqn:E.
  - rewrite (Hnil eq_refl). split; [done|]. intros H. by destruct H.
  - simpl in Hle. split; [|lia]. split; [lia | discriminate].
Qed.

(** ** Each check adds its own findings to the variables it is given *)

Lemma combine_no_findings v : combine v no_findings = v.
Proof. destruct v. unfold combine. simpl. rewrite !app_nil_r. f_equal; lia. Qed.

Lemma flag_combine i k r v : flag i k r v = combine v (flag i k r no_findings).
Proof. unfold flag, combine. simpl. f_equal; lia. Qed.

Lemma advise_combine r v : advise r v = combine v (advise r no_findings).
Proof. unfold advise, combine. simpl. rewrite app_nil_r. f_equal; lia. Qed.

Ltac frame_check :=
  repeat case_match;
  first [ apply flag_combine | apply advise_combine
        | symmetry; apply combine_no_findings ].

Lemma check_first_name_frame pn fn v :
  check_first_name pn fn v = combine v (check_first_name pn fn no_findings).
Proof. unfold check_first_name. frame_check. Qed.

Lemma check_last_name_frame pn ln v :
  check_last_name pn ln v = combine v (check_last_name pn ln no_findings).
Proof. unfold check_last_name. frame_check. Qed.

Lemma check_birth_frame password dob v :
  ∃ fb, check_birth password dob no_findings = Return fb ∧
        check_birth password dob v = Return (combine v fb).
Proof.
  unfold check_birth. destruct (extract_birth_tokens dob) as [tokens|[why]]; simpl.
  - eexists. split; [reflexivity|].
    destruct (List.filter _ _);
      [by rewrite combine_no_findings | by rewrite <- flag_combine].
  - eexists. split; [reflexivity|]. by rewrite <- flag_combine.
Qed.

Lemma check_length_frame password v :
  check_length password v = combine v (check_length password no_findings).
Proof. unfold check_length. frame_check. Qed.

Lemma check_classes_frame password v :
  check_classes password v = combine v (check_classes password no_findings).
Proof.
  unfold check_classes. destruct (char_classes password) as [[[l u] d] s].
  frame_check.
Qed.

Lemma check_repeats_frame password v :
  check_repeats password v = combine v (check_repeats password no_findings).
Proof. unfold check_repeats. frame_check. Qed.

Lemma check_sequences_frame password v :
  check_sequences password v = combine v (check_sequences password no_findings).
Proof. unfold check_sequences. frame_check. Qed.

Lemma check_common_words_frame password v :
  check_common_words password v = combine v (check_common_words password no_findings).
Proof. unfold check_common_words. frame_check. Qed.

(** The variables after the checks: the findings of the eight checks, each
    made on its own, put one after the other. *)
Lemma run_checks_findings password first_name last_name dob :
  ∃ fb, check_birth password dob no_findings = Return fb ∧
    run_checks password first_name last_name dob =
      Return (combine (combine (combine (combine (combine (combine (combine (combine
        initial_vars
        (check_first_name (normalize password) (normalize first_name) no_findings))
        (check_last_name (normalize password) (normalize last_name) no_findings))
        fb)
        (check_length password no_findings))
        (check_classes password no_findings))
        (check_repeats password no_findings))
        (check_sequences password no_findings))
        (check_common_words password no_findings)).
Proof.
  destruct (run_checks_unfold password first_name last_name dob) as (vb & Hb & _ & Hrun).
  destruct (check_birth_frame password dob
    (check_last_name (normalize password) (normalize last_name)
       (check_first_name (normalize password) (normalize first_name) initial_vars)))
    as (fb & Hfb & Hb').
  exists fb. split; [exact Hfb|]. rewrite Hrun. f_equal.
  rewrite Hb in Hb'. injection Hb' as ->.
  rewrite check_common_words_frame, check_sequences_frame, check_repeats_frame,
    check_classes_frame, check_length_frame.
  do 6 f_equal.
  rewrite check_last_name_frame, check_first_name_frame. reflexivity.
Qed.

Lemma elem_of_issues_combine i a b :
  i ∈ v_issues (combine a b) ↔ i ∈ v_issues a ∨ i ∈ v_issues b.
Proof. simpl. apply elem_of_app. Qed.

Lemma elem_of_recs_combine r a b :
  r ∈ v_recs (combine a b) ↔ r ∈ v_recs a ∨ r ∈ v_recs b.
Proof. simpl. apply elem_of_app. Qed.

(** ** [dict.fromkeys] keeps the first occurrence of each key *)

Section DictFacts.
Context {K V : Type} `{EqDecision K}.
Implicit Types (d : list (K * V)) (l : list K).

Lemma dict_keys_setitem d k v :
  dict_keys (dict_setitem d k v) =
    if decide (k ∈ dict_keys d) then dict_keys d else dict_keys d ++ [k].
Proof.
  unfold dict_keys. induction d as [|[k' v'] d IH]; csimpl.
  - done.
  - destruct (decide (k' = k)) as [->|Hne]; csimpl.
    + rewrite decide_True; [done | apply elem_of_cons; by left].
    + rewrite IH. destruct (decide (k ∈ d.*1)) as [Hin|Hnin].
      * rewrite decide_True; [done | apply elem_of_cons; by right].
      * rewrite decide_False; [done|].
        rewrite elem_of_cons. intros [->|?]; done.
Qed.

Lemma dict_keys_foldl l d v :
  dict_keys (foldl (λ d k, dict_setitem d k v) d l) =
    dict_keys d ++ filter (λ k, k ∉ dict_keys d) (first_occurrences l).
Proof.
  revert d. induction l as [|x l IH]; intros d; simpl.
  - by rewrite filter_nil, app_nil_r.
  - rewrite IH, dict_keys_setitem. destruct (decide (x ∈ dict_keys d)) as [Hin|Hnin].
    + rewrite filter_cons_False by (intros Hx; by apply Hx).
      rewrite list_filter_filter. f_equal. apply list_filter_iff.
      intros y. split; [|tauto]. intros Hy. split; [done|]. by intros ->.
    + rewrite filter_cons_True by done.
      rewrite <- app_assoc. simpl. do 2 f_equal.
      rewrite list_filter_filter. apply list_filter_iff.
      intros y. rewrite elem_of_app, list_elem_of_singleton. tauto.
Qed.

Lemma filter_keeps_all (P : K → Prop) `{∀ x, Decision (P x)} l :
  (∀ x, P x) → filter P l = l.
Proof.
  intros HP. induction l as [|x l IH]; [done|].
  rewrite filter_cons_True by apply HP. by rewrite IH.
Qed.

Lemma dict_keys_fromkeys l (v : V) :
  dict_keys (dict_fromkeys l v) = first_occurrences l.
Proof.
  unfold dict_fromkeys. rewrite dict_keys_foldl. simpl.
  apply filter_keeps_all. intros k. apply not_elem_of_nil.
Qed.

Lemma elem_of_first_occurrences l x : x ∈ first_occurrences l ↔ x ∈ l.
Proof.
  induction l as [|y l IH]; simpl; [done|].
  rewrite !elem_of_cons, list_elem_of_filter, IH.
  destruct (decide (x = y)); tauto.
Qed.

Lemma NoDup_first_occurrences l : NoDup (first_occurrences l).
Proof.
  induction l as [|y l IH]; simpl; [constructor|].
  constructor; [|by apply NoDup_filter].
  rewrite list_elem_of_filter. tauto.
Qed.

Lemma first_index_cons_ne x y l :
  y ≠ x → first_index x (y :: l) = S <$> first_index x l.
Proof. intros Hne. simpl. by rewrite decide_False. Qed.

Lemma first_index_elem_of x l : x ∈ l → ∃ a, first_index x l = Some a.
Proof.
  induction l as [|y l IH]; [by intros ?%elem_of_nil|].
  intros Hin. simpl. destruct (decide (y = x)) as [|Hne]; [eauto|].
  apply elem_of_cons in Hin as [->|Hin]; [done|].
  destruct (IH Hin) as [a ->]. simpl. eauto.
Qed.

(** The entries of a filtered list stand in the order they had. *)
Lemma filter_lookup_order (P : K → Prop) `{∀ x, Decision (P x)} l i j x y :
  filter P l !! i = Some x → filter P l !! j = Some y → (i < j)%nat →
  ∃ i' j', l !! i' = Some x ∧ l !! j' = Some y ∧ (i' < j')%nat.
Proof.
  revert i j. induction l as [|z l IH]; intros i j; [done|].
  destruct (decide (P z)) as [Hz|Hz].
  - rewrite filter_cons_True by done. destruct i as [|i], j as [|j]; simpl; try lia.
    + intros [= ->] Hy _.
      apply list_elem_of_lookup_2, list_elem_of_filter in Hy as [_ Hy].
      apply list_elem_of_lookup_1 in Hy as [j' Hj'].
      exists 0%nat, (S j'). split; [done|]. split; [done|]. lia.
    + intros Hx Hy Hij. destruct (IH i j Hx Hy) as (i' & j' & ? & ? & ?); [lia|].
      exists (S i'), (S j'). split; [done|]. split; [done|]. lia.
  - rewrite filter_cons_False by done.
    intros Hx Hy Hij. destruct (IH i j Hx Hy Hij) as (i' & j' & ? & ? & ?).
    exists (S i'), (S j'). split; [done|]. split; [done|]. lia.
Qed.

Lemma first_occurrences_order l i j x y :
  first_occurrences l !! i = Some x → first_occurrences l !! j = Some y →
  (i < j)%nat →
  ∃ a b, first_index x l = Some a ∧ first_index y l = Some b ∧ (a < b)%nat.
Proof.
  revert i j. induction l as [|z l IH]; intros i j; [done|].
  simpl. destruct i as [|i], j as [|j]; simpl; try lia.
  - intros [= ->] Hy _.
    apply list_elem_of_lookup_2, list_elem_of_filter in Hy as [Hne Hy].
    apply (proj1 (elem_of_first_occurrences _ _)) in Hy.
    apply first_index_elem_of in Hy as [b Hb].
    exists 0%nat, (S b). rewrite decide_True by done.
    rewrite decide_False by done. rewrite Hb. simpl.
    split; [done|]. split; [done|]. lia.
  - intros Hx Hy Hij.
    assert (x ≠ z ∧ y ≠ z) as [Hxz Hyz].
    { split; [apply list_elem_of_lookup_2 in Hx | apply list_elem_of_lookup_2 in Hy];
        rewrite list_elem_of_filter in *; tauto. }
    destruct (filter_lookup_order _ _ _ _ _ _ Hx Hy) as (i' & j' & Hi' & Hj' & Hlt); [lia|].
    destruct (IH _ _ Hi' Hj' Hlt) as (a & b & Ha & Hb & Hab).
    exists (S a), (S b). rewrite !decide_False by done. rewrite Ha, Hb. simpl.
    split; [done|]. split; [done|]. lia.
Qed.

End DictFacts.

(** ** Which check can report what *)

Lemma finds_issues I R f i : finds I R f → i ∈ v_issues f → I i.
Proof.
  intros [|i' k r Hi Hr|r Hr]; simpl.
  - by intros ?%elem_of_nil.
  - by intros ->%list_elem_of_singleton.
  - by intros ?%elem_of_nil.
Qed.

Lemma finds_recs I R f r : finds I R f → r ∈ v_recs f → R r.
Proof.
  intros [|i k r' Hi Hr|r' Hr]; simpl.
  - by intros ?%elem_of_nil.
  - by intros ->%list_elem_of_singleton.
  - by intros ->%list_elem_of_singleton.
Qed.

Lemma check_first_name_finds pn fn :
  finds (eq CONTAINS_FIRST_NAME) (eq AVOID_FIRST_NAME) (check_first_name pn fn no_findings).
Proof. unfold check_first_name. case_match; by constructor. Qed.

Lemma check_last_name_finds pn ln :
  finds (eq CONTAINS_LAST_NAME) (eq AVOID_LAST_NAME) (check_last_name pn ln no_findings).
Proof. unfold check_last_name. case_match; by constructor. Qed.

Lemma check_birth_finds password dob fb :
  check_birth password dob no_findings = Return fb →
  finds (λ i, i = INVALID_DOB_FORMAT ∨ ∃ t, i = CONTAINS_BIRTH_FRAGMENT t)
        (λ r, r = ENTER_VALID_DOB ∨ r = AVOID_BIRTH_DATE) fb.
Proof.
  unfold check_birth. destruct (extract_birth_tokens dob) as [tokens|[why]]; simpl.
  - intros [= <-]. case_match; constructor; eauto.
  - intros [= <-]. constructor; eauto.
Qed.

Lemma check_length_finds password :
  finds (λ i, i = TOO_SHORT ∨ i = MEDIUM_LENGTH)
        (λ r, r = USE_AT_LEAST_12 ∨ r = PREFER_12_OR_MORE ∨ r = LENGTH_GOOD)
        (check_length password no_findings).
Proof. unfold check_length. repeat case_match; constructor; eauto. Qed.

Lemma check_classes_finds password :
  finds (λ i, i = SINGLE_CHAR_CLASS ∨ i = TWO_CHAR_CLASSES ∨ i = NO_SPECIAL_CHARS)
        (λ r, r = MIX_CLASSES ∨ r = ADD_MORE_CLASSES ∨ r = ADD_SPECIAL)
        (check_classes password no_findings).
Proof.
  unfold check_classes. destruct (char_classes password) as [[[l u] d] s].
  repeat case_match; constructor; eauto.
Qed.

Lemma check_repeats_finds password :
  finds (eq REPEATED_CHARS) (eq AVOID_REPEATS) (check_repeats password no_findings).
Proof. unfold check_repeats. case_match; by constructor. Qed.

Lemma check_sequences_finds password :
  finds (eq HAS_SEQUENCE) (eq AVOID_SEQUENCES) (check_sequences password no_findings).
Proof. unfold check_sequences. case_match; by constructor. Qed.

Lemma check_common_words_finds password :
  finds (eq COMMON_WORD) (eq AVOID_COMMON_WORDS) (check_common_words password no_findings).
Proof. unfold check_common_words. case_match; by constructor. Qed.

(** The result of [analyze_password] in terms of the findings of the eight
    checks: its issues are theirs, its recommendations are theirs and, when
    there is no issue, the advice on good practice; its score is 10 less the
    penalties, clamped. *)
Lemma analysis_findings password first_name last_name dob :
  let f1 := check_first_name (normalize password) (normalize first_name) no_findings in
  let f2 := check_last_name (normalize password) (normalize last_name) no_findings in
  let f4 := check_length password no_findings in
  let f5 := check_classes password no_findings in
  let f6 := check_repeats password no_findings in
  let f7 := check_sequences password no_findings in
  let f8 := check_common_words password no_findings in
  ∃ f3 r,
    check_birth password dob no_findings = Return f3 ∧
    analyze_password password first_name last_name dob = Return r ∧
    (∀ i, i ∈ issues r ↔
       i ∈ v_issues f1 ∨ i ∈ v_issues f2 ∨ i ∈ v_issues f3 ∨ i ∈ v_issues f4 ∨
       i ∈ v_issues f5 ∨ i ∈ v_issues f6 ∨ i ∈ v_issues f7 ∨ i ∈ v_issues f8) ∧
    (∀ x, x ∈ recommendations r ↔
       x ∈ v_recs f1 ∨ x ∈ v_recs f2 ∨ x ∈ v_recs f3 ∨ x ∈ v_recs f4 ∨
       x ∈ v_recs f5 ∨ x ∈ v_recs f6 ∨ x ∈ v_recs f7 ∨ x ∈ v_recs f8 ∨
       (x = GOOD_PRACTICE ∧ issues r = [])) ∧
    score r = clamp (10 + v_score f1 + v_score f2 + v_score f3 + v_score f4 +
                     v_score f5 + v_score f6 + v_score f7 + v_score f8) ∧
    pw_length r = Z.of_nat (length password) ∧
    char_classes password =
      (lowercase (classes r), uppercase (classes r), digits (classes r),
       special (classes r)).
Proof.
  intros f1 f2 f4 f5 f6 f7 f8.
  destruct (run_checks_findings password first_name last_name dob) as (f3 & Hf3 & Hrun).
  fold f1 f2 f4 f5 f6 f7 f8 in Hrun.
  match type of Hrun with _ = Return ?v => set (v0 := v) in Hrun end.
  destruct (analyze_password_unfold _ _ _ _ _ Hrun)
    as (r & Hr & Hscore & Hiss & Hrecs & Hlen & Hcls).
  assert (∀ i, i ∈ v_issues v0 ↔
     i ∈ v_issues f1 ∨ i ∈ v_issues f2 ∨ i ∈ v_issues f3 ∨ i ∈ v_issues f4 ∨
     i ∈ v_issues f5 ∨ i ∈ v_issues f6 ∨ i ∈ v_issues f7 ∨ i ∈ v_issues f8) as Hi0.
  { intros i. unfold v0. rewrite !elem_of_issues_combine. simpl.
    rewrite elem_of_nil. tauto. }
  assert (∀ y, y ∈ v_recs v0 ↔
     y ∈ v_recs f1 ∨ y ∈ v_recs f2 ∨ y ∈ v_recs f3 ∨ y ∈ v_recs f4 ∨
     y ∈ v_recs f5 ∨ y ∈ v_recs f6 ∨ y ∈ v_recs f7 ∨ y ∈ v_recs f8) as Hr0.
  { intros y. unfold v0. rewrite !elem_of_recs_combine. simpl.
    rewrite elem_of_nil. tauto. }
  assert (v_score v0 = (10 + v_score f1 + v_score f2 + v_score f3 + v_score f4 +
                        v_score f5 + v_score f6 + v_score f7 + v_score f8)%Z) as Hs0
    by reflexivity.
  clearbody v0.
  exists f3, r. split; [exact Hf3|]. split; [exact Hr|].
  split; [|split; [|split; [|split; [exact Hlen | exact Hcls]]]].
  - intros i. by rewrite Hiss, Hi0.
  - intros x. rewrite Hrecs, dict_keys_fromkeys, elem_of_first_occurrences, Hiss.
    destruct (v_issues v0) as [|i0 more]; simpl.
    + rewrite elem_of_app, list_elem_of_singleton, Hr0. tauto.
    + rewrite Hr0.
      assert (¬ (x = GOOD_PRACTICE ∧ i0 :: more = [])) by (intros [_ ?]; discriminate).
      tauto.
  - by rewrite Hscore, Hs0.
Qed.

(** ** The length check and the character-class check *)

Lemma check_length_cases password v :
  let n := Z.of_nat (length password) in
  ((n < 8)%Z ∧ check_length password v = flag TOO_SHORT 4 USE_AT_LEAST_12 v) ∨
  ((8 ≤ n ≤ 11)%Z ∧ check_length password v = flag MEDIUM_LENGTH 2 PREFER_12_OR_MORE v) ∨
  ((12 ≤ n ≤ 15)%Z ∧ check_length password v = advise LENGTH_GOOD v) ∨
  ((16 ≤ n)%Z ∧ check_length password v = v).
Proof.
  intros n. unfold check_length. fold n.
  destruct (Z.ltb_spec n 8); [by left|].
  destruct (Z.leb_spec 8 n); [|lia].
  destruct (Z.ltb_spec n 12); simpl; [right; left; split; [lia|done]|].
  destruct (Z.leb_spec 12 n); [|lia].
  destruct (Z.ltb_spec n 16); simpl; [right; right; left; split; [lia|done]|].
  right; right; right. split; [lia|done].
Qed.

Lemma check_classes_cases password v :
  let '(l, u, d, s) := char_classes password in
  let n := class_count {| lowercase := l; uppercase := u; digits := d; special := s |} in
  ((n ≤ 1)%nat ∧ check_classes password v = flag SINGLE_CHAR_CLASS 4 MIX_CLASSES v) ∨
  (n = 2%nat ∧ check_classes password v = flag TWO_CHAR_CLASSES 2 ADD_MORE_CLASSES v) ∨
  (n = 3%nat ∧ s = false ∧ check_classes password v = flag NO_SPECIAL_CHARS 1 ADD_SPECIAL v) ∨
  ((n = 4%nat ∨ (n = 3%nat ∧ s = true)) ∧ check_classes password v = v).
Proof.
  unfold check_classes. destruct (char_classes password) as [[[l u] d] s].
  destruct l, u, d, s; vm_compute; intuition lia.
Qed.

(** [H] says that a check reported a finding of a kind, [Hk], that it never
    reports. *)
Ltac other_checks H Hk Hf3 :=
  first [ eapply finds_issues in H | eapply finds_recs in H ];
  [ idtac
  | lazymatch goal with
    | |- finds _ _ (check_first_name _ _ _) => apply check_first_name_finds
    | |- finds _ _ (check_last_name _ _ _) => apply check_last_name_finds
    | |- finds _ _ (check_length _ _) => apply check_length_finds
    | |- finds _ _ (check_classes _ _) => apply check_classes_finds
    | |- finds _ _ (check_repeats _ _) => apply check_repeats_finds
    | |- finds _ _ (check_sequences _ _) => apply check_sequences_finds
    | |- finds _ _ (check_common_words _ _) => apply check_common_words_finds
    | |- _ => exact (check_birth_finds _ _ _ Hf3)
    end ];
  clear -H Hk; cbv beta in H; destruct_or!;
  repeat match goal with E : ∃ _, _ |- _ => destruct E end; congruence.

Lemma analysis_length_findings password first_name last_name dob :
  ∃ r, analyze_password password first_name last_name dob = Return r ∧
    pw_length r = Z.of_nat (length password) ∧
    (∀ i, i = TOO_SHORT ∨ i = MEDIUM_LENGTH →
       i ∈ issues r ↔ i ∈ v_issues (check_length password no_findings)) ∧
    (∀ x, x = USE_AT_LEAST_12 ∨ x = PREFER_12_OR_MORE ∨ x = LENGTH_GOOD →
       x ∈ recommendations r ↔ x ∈ v_recs (check_length password no_findings)).
Proof.
  destruct (analysis_findings password first_name last_name dob)
    as (f3 & r & Hf3 & Hr & Hiss & Hrecs & _ & Hlen & _).
  exists r. split; [exact Hr|]. split; [exact Hlen|]. split.
  - intros i Hi. rewrite Hiss. split; [|tauto].
    intros [H|[H|[H|[H|[H|[H|[H|H]]]]]]]; try exact H;
      exfalso; other_checks H Hi Hf3.
  - intros x Hx. rewrite Hrecs. split; [|tauto].
    intros [H|[H|[H|[H|[H|[H|[H|[H|[H _]]]]]]]]]; try exact H;
      exfalso; first [other_checks H Hx Hf3 | destruct_or!; congruence].
Qed.

Lemma analysis_classes_findings password first_name last_name dob :
  ∃ r, analyze_password password first_name last_name dob = Return r ∧
    char_classes password =
      (lowercase (classes r), uppercase (classes r), digits (classes r),
       special (classes r)) ∧
    (∀ i, i = SINGLE_CHAR_CLASS ∨ i = TWO_CHAR_CLASSES ∨ i = NO_SPECIAL_CHARS →
       i ∈ issues r ↔ i ∈ v_issues (check_classes password no_findings)) ∧
    (∀ x, x = MIX_CLASSES ∨ x = ADD_MORE_CLASSES ∨ x = ADD_SPECIAL →
       x ∈ recommendations r ↔ x ∈ v_recs (check_classes password no_findings)).
Proof.
  destruct (analysis_findings password first_name last_name dob)
    as (f3 & r & Hf3 & Hr & Hiss & Hrecs & _ & _ & Hcls).
  exists r. split; [exact Hr|]. split; [exact Hcls|]. split.
  - intros i Hi. rewrite Hiss. split; [|tauto].
    intros [H|[H|[H|[H|[H|[H|[H|H]]]]]]]; try exact H;
      exfalso; other_checks H Hi Hf3.
  - intros x Hx. rewrite Hrecs. split; [|tauto].
    intros [H|[H|[H|[H|[H|[H|[H|[H|[H _]]]]]]]]]; try exact H;
      exfalso; first [other_checks H Hx Hf3 | destruct_or!; congruence].
Qed.

(** C7. The length check looks at the raw password and falls in exactly one
    of four bands: fewer than 8 characters, issue TOO_SHORT with penalty 4;
    8 to 11, issue MEDIUM_LENGTH with penalty 2; 12 to 15, no issue and only
    the recommendation that the length is good; 16 or more, nothing.  The
    result of [analyze_password] shows these findings, and no other check
    reports them. *)
Theorem length_bands password :
  let n := Z.of_nat (length password) in
  (∀ v,
     ((n < 8)%Z → check_length password v = flag TOO_SHORT 4 USE_AT_LEAST_12 v) ∧
     ((8 ≤ n ≤ 11)%Z →
        check_length password v = flag MEDIUM_LENGTH 2 PREFER_12_OR_MORE v) ∧
     ((12 ≤ n ≤ 15)%Z → check_length password v = advise LENGTH_GOOD v) ∧
     ((16 ≤ n)%Z → check_length password v = v)) ∧
  (∀ first_name last_name dob, ∃ r,
     analyze_password password first_name last_name dob = Return r ∧
     pw_length r = n ∧
     (TOO_SHORT ∈ issues r ↔ (n < 8)%Z) ∧
     (MEDIUM_LENGTH ∈ issues r ↔ (8 ≤ n ≤ 11)%Z) ∧
     (USE_AT_LEAST_12 ∈ recommendations r ↔ (n < 8)%Z) ∧
     (PREFER_12_OR_MORE ∈ recommendations r ↔ (8 ≤ n ≤ 11)%Z) ∧
     (LENGTH_GOOD ∈ recommendations r ↔ (12 ≤ n ≤ 15)%Z)).
Proof.
  intros n. split.
  - intros v.
    destruct (check_length_cases password v) as [[Hn ->]|[[Hn ->]|[[Hn ->]|[Hn ->]]]];
      fold n in Hn; repeat split; intros; first [reflexivity | lia].
  - intros first_name last_name dob.
    destruct (analysis_length_findings password first_name last_name dob)
      as (r & Hr & Hlen & Hi & Hx).
    exists r. split; [exact Hr|]. split; [exact Hlen|].
    rewrite (Hi TOO_SHORT), (Hi MEDIUM_LENGTH), (Hx USE_AT_LEAST_12),
      (Hx PREFER_12_OR_MORE), (Hx LENGTH_GOOD) by tauto.
    destruct (check_length_cases password no_findings)
      as [[Hn ->]|[[Hn ->]|[[Hn ->]|[Hn ->]]]];
      fold n in Hn; simpl;
      rewrite ?list_elem_of_singleton, ?elem_of_nil;
      repeat split; intros; first [lia | congruence | tauto].
Qed.

(** C8. The character-class check counts the classes present among
    lowercase, uppercase, digit and special and falls in exactly one case:
    at most one class, issue SINGLE_CHAR_CLASS with penalty 4; two, issue
    TWO_CHAR_CLASSES with penalty 2; three without a special character, issue
    NO_SPECIAL_CHARS with penalty 1; four, or three with a special character,
    nothing.  The result of [analyze_password] shows these findings for the
    classes it reports, and no other check reports them. *)
Theorem class_count_cases password :
  (∀ v,
     let '(l, u, d, s) := char_classes password in
     let n := class_count {| lowercase := l; uppercase := u; digits := d; special := s |} in
     ((n ≤ 1)%nat → check_classes password v = flag SINGLE_CHAR_CLASS 4 MIX_CLASSES v) ∧
     (n = 2%nat → check_classes password v = flag TWO_CHAR_CLASSES 2 ADD_MORE_CLASSES v) ∧
     (n = 3%nat ∧ s = false →
        check_classes password v = flag NO_SPECIAL_CHARS 1 ADD_SPECIAL v) ∧
     (n = 4%nat ∨ (n = 3%nat ∧ s = true) → check_classes password v = v)) ∧
  (∀ first_name last_name dob, ∃ r,
     analyze_password password first_name last_name dob = Return r ∧
     (lowercase (classes r) = true ↔ ∃ c, c ∈ password ∧ islower c = true) ∧
     (uppercase (classes r) = true ↔ ∃ c, c ∈ password ∧ isupper c = true) ∧
     (digits (classes r) = true ↔ ∃ c, c ∈ password ∧ isdigit c = true) ∧
     (special (classes r) = true ↔ ∃ c, c ∈ password ∧ isalnum c = false) ∧
     let n := class_count (classes r) in
     (SINGLE_CHAR_CLASS ∈ issues r ↔ (n ≤ 1)%nat) ∧
     (TWO_CHAR_CLASSES ∈ issues r ↔ n = 2%nat) ∧
     (NO_SPECIAL_CHARS ∈ issues r ↔ n = 3%nat ∧ special (classes r) = false) ∧
     (MIX_CLASSES ∈ recommendations r ↔ (n ≤ 1)%nat) ∧
     (ADD_MORE_CLASSES ∈ recommendations r ↔ n = 2%nat) ∧
     (ADD_SPECIAL ∈ recommendations r ↔ n = 3%nat ∧ special (classes r) = false)).
Proof.
  split.
  - intros v. pose proof (check_classes_cases password v) as H.
    destruct (char_classes password) as [[[l u] d] s].
    destruct H as [[Hn ->]|[[Hn ->]|[(Hn & Hs & ->)|[Hn ->]]]];
      repeat split; intros; first [reflexivity | exfalso; intuition congruence | exfalso; lia].
  - intros first_name last_name dob.
    destruct (analysis_classes_findings password first_name last_name dob)
      as (r & Hr & Hcls & Hi & Hx).
    exists r. split; [exact Hr|].
    assert (∀ (f : N → bool) b, existsb f password = b →
              b = true ↔ ∃ c, c ∈ password ∧ f c = true) as Hex.
    { intros f b <-. rewrite existsb_exists.
      split; intros (c & Hc & Hf); exists c; by rewrite list_elem_of_In in *. }
    unfold char_classes in Hcls. injection Hcls as Hl Hu Hd Hs.
    split; [by apply Hex|]. split; [by apply Hex|]. split; [by apply Hex|].
    split.
    { rewrite (Hex _ _ Hs). split; intros (c & Hc & Hf); exists c;
        (split; [done|]); by destruct (isalnum c). }
    intros n.
    rewrite (Hi SINGLE_CHAR_CLASS), (Hi TWO_CHAR_CLASSES), (Hi NO_SPECIAL_CHARS),
      (Hx MIX_CLASSES), (Hx ADD_MORE_CLASSES), (Hx ADD_SPECIAL) by tauto.
    pose proof (check_classes_cases password no_findings) as H.
    unfold char_classes in H. rewrite Hl, Hu, Hd, Hs in H.
    replace {| lowercase := lowercase (classes r); uppercase := uppercase (classes r);
               digits := digits (classes r); special := special (classes r) |}
      with (classes r) in H by (by destruct (classes r)).
    fold n in H.
    destruct H as [[Hn ->]|[[Hn ->]|[(Hn & Hsp & ->)|[Hn ->]]]]; simpl;
      rewrite ?list_elem_of_singleton, ?elem_of_nil;
      repeat split; intros; first [lia | congruence | tauto | intuition congruence].
Qed.

(** ** A date of birth that does not parse *)

Lemma check_birth_invalid password dob e v :
  extract_birth_tokens dob = Raise e →
  check_birth password dob v = Return (flag INVALID_DOB_FORMAT 1 ENTER_VALID_DOB v).
Proof. intros H. unfold check_birth. rewrite H. by destruct e. Qed.

(** C2. [analyze_password] returns a result for every input.  When the date
    of birth does not parse, the [ValueError] is caught: the check on the
    date reports INVALID_DOB_FORMAT with penalty 1 and its recommendation,
    the checks after it (length, character classes, repeats, sequences,
    common words) run on the variables so updated, and the result holds
    their issues and a score lowered by their penalties. *)
Theorem analyze_never_raises password first_name last_name dob :
  (∃ r, analyze_password password first_name last_name dob = Return r) ∧
  (∀ e, extract_birth_tokens dob = Raise e →
     let v2 := check_last_name (normalize password) (normalize last_name)
                 (check_first_name (normalize password) (normalize first_name)
                    initial_vars) in
     let v := check_common_words password (check_sequences password
                (check_repeats password (check_classes password
                  (check_length password
                     (flag INVALID_DOB_FORMAT 1 ENTER_VALID_DOB v2))))) in
     let f1 := check_first_name (normalize password) (normalize first_name) no_findings in
     let f2 := check_last_name (normalize password) (normalize last_name) no_findings in
     let f4 := check_length password no_findings in
     let f5 := check_classes password no_findings in
     let f6 := check_repeats password no_findings in
     let f7 := check_sequences password no_findings in
     let f8 := check_common_words password no_findings in
     ∃ r,
       analyze_password password first_name last_name dob = Return r ∧
       run_checks password first_name last_name dob = Return v ∧
       issues r = v_issues v ∧
       INVALID_DOB_FORMAT ∈ issues r ∧
       ENTER_VALID_DOB ∈ recommendations r ∧
       (∀ i, i ∈ issues r ↔
          i ∈ v_issues f1 ∨ i ∈ v_issues f2 ∨ i = INVALID_DOB_FORMAT ∨
          i ∈ v_issues f4 ∨ i ∈ v_issues f5 ∨ i ∈ v_issues f6 ∨
          i ∈ v_issues f7 ∨ i ∈ v_issues f8) ∧
       score r = clamp (10 + v_score f1 + v_score f2 - 1 + v_score f4 +
                        v_score f5 + v_score f6 + v_score f7 + v_score f8)).
Proof.
  split.
  - destruct (run_checks_returns password first_name last_name dob) as (v & Hrun & _).
    destruct (analyze_password_unfold _ _ _ _ _ Hrun) as (r & Hr & _). eauto.
  - intros e He v2 v f1 f2 f4 f5 f6 f7 f8.
    destruct (analysis_findings password first_name last_name dob)
      as (f3 & r & Hf3 & Hr & Hiss & Hrecs & Hscore & _).
    rewrite (check_birth_invalid _ _ _ _ He) in Hf3. injection Hf3 as <-.
    fold f1 f2 f4 f5 f6 f7 f8 in Hiss, Hrecs, Hscore. simpl in Hiss, Hrecs, Hscore.
    assert (run_checks password first_name last_name dob = Return v) as Hrun.
    { destruct (run_checks_unfold password first_name last_name dob) as (vb & Hb & _ & Hrun).
      fold v2 in Hb. rewrite (check_birth_invalid _ _ _ _ He) in Hb.
      injection Hb as <-. exact Hrun. }
    destruct (analyze_password_unfold _ _ _ _ _ Hrun) as (r' & Hr' & _ & Hiss' & _).
    rewrite Hr in Hr'. injection Hr' as <-.
    exists r. split; [exact Hr|]. split; [exact Hrun|]. split; [exact Hiss'|].
    split; [apply Hiss; rewrite list_elem_of_singleton; tauto|].
    split; [apply Hrecs; rewrite list_elem_of_singleton; tauto|].
    split.
    + intros i. rewrite Hiss, list_elem_of_singleton. tauto.
    + rewrite Hscore. f_equal.
Qed.

(** C3. The recommendations of the result hold no entry twice, hold exactly
    the entries recorded during the aggregation, and hold them in the order
    in which each was first recorded. *)
Theorem recommendations_distinct_first_seen password first_name last_name dob :
  ∃ v r,
    run_checks password first_name last_name dob = Return v ∧
    analyze_password password first_name last_name dob = Return r ∧
    let recs := v_recs (match v_issues v with
                        | [] => advise GOOD_PRACTICE v
                        | _ => v
                        end) in
    NoDup (recommendations r) ∧
    (∀ x, x ∈ recommendations r ↔ x ∈ recs) ∧
    (∀ i j x y,
       recommendations r !! i = Some x → recommendations r !! j = Some y →
       (i < j)%nat →
       ∃ a b, first_index x recs = Some a ∧ first_index y recs = Some b ∧ (a < b)%nat).
Proof.
  destruct (run_checks_returns password first_name last_name dob) as (v & Hrun & _).
  destruct (analyze_password_unfold _ _ _ _ _ Hrun) as (r & Hr & _ & _ & Hrecs & _).
  exists v, r. split; [exact Hrun|]. split; [exact Hr|]. intros recs.
  fold recs in Hrecs. rewrite Hrecs, dict_keys_fromkeys.
  split; [apply NoDup_first_occurrences|].
  split; [apply elem_of_first_occurrences|].
  apply first_occurrences_order.
Qed.

(** C9. When the normalized first name is not empty and occurs in the
    normalized password, the result holds the issue CONTAINS_FIRST_NAME and
    the score before clamping is at most 10 - 3. *)
Theorem first_name_in_password password first_name last_name dob :
  normalize first_name ≠ [] →
  substring (normalize first_name) (normalize password) →
  ∃ v r,
    run_checks password first_name last_name dob = Return v ∧
    analyze_password password first_name last_name dob = Return r ∧
    score r = clamp (v_score v) ∧
    CONTAINS_FIRST_NAME ∈ issues r ∧
    (v_score v ≤ 10 - 3)%Z.
Proof.
  intros Hne Hsub.
  destruct (run_checks_returns password first_name last_name dob) as (v & Hrun & Hsteps).
  destruct (analyze_password_unfold _ _ _ _ _ Hrun) as (r & Hr & Hscore & Hiss & _).
  exists v, r. split; [exact Hrun|]. split; [exact Hr|]. split; [exact Hscore|].
  assert (check_first_name (normalize password) (normalize first_name) initial_vars =
          flag CONTAINS_FIRST_NAME 3 AVOID_FIRST_NAME initial_vars) as Hflag.
  { unfold check_first_name. apply str_in_spec in Hsub. rewrite Hsub.
    by destruct (normalize first_name). }
  rewrite Hflag in Hsteps.
  destruct (check_steps_grow _ _ Hsteps) as (Hs & [more Hi] & _). simpl in Hs, Hi.
  split; [|lia]. rewrite Hiss, Hi. apply elem_of_cons. by left.
Qed.

(** ** Sequences *)

(** The windows of length four of a string are its substrings of that
    length. *)
Lemma window_substring (ref w : str) :
  (∃ i, (i < length ref - 3)%nat ∧ w = slice ref i (i + 4)) ↔
  (length w = 4%nat ∧ substring w ref).
Proof.
  unfold slice, substring. split.
  - intros (i & Hi & ->).
    replace (i + 4 - i)%nat with 4%nat by lia. split.
    + rewrite length_take, length_drop. lia.
    + exists (take i ref), (drop 4 (drop i ref)).
      by rewrite (take_drop 4 (drop i ref)), take_drop.
  - intros (Hlen & pre & post & ->). exists (length pre). split.
    + rewrite !length_app. lia.
    + replace (length pre + 4 - length pre)%nat with 4%nat by lia.
      rewrite drop_app_length. rewrite <- Hlen. by rewrite take_app_length.
Qed.

Lemma has_sequences_spec password :
  has_sequences password = true ↔
  ∃ ref i, ref ∈ sequences ∧ (i < length ref - 3)%nat ∧
           substring (slice ref i (i + 4)) (lower password).
Proof.
  unfold has_sequences. rewrite existsb_exists. split.
  - intros (ref & Href & H). apply existsb_exists in H as (i & Hi & H).
    exists ref, i. split; [by apply list_elem_of_In|].
    split; [apply in_seq in Hi; lia | by apply str_in_spec].
  - intros (ref & i & Href & Hi & H). exists ref.
    split; [by apply list_elem_of_In|].
    apply existsb_exists. exists i. split; [apply in_seq; lia | by apply str_in_spec].
Qed.

(** C6. [has_sequences] holds exactly when some run of four characters of one
    of the five reference strings occurs in the lowercased password; every
    window of each reference, [len(reference) - 3] of them, is tried.  It
    holds for "myqwerty1" and not for "Xk9Lm2Pq". *)
Theorem has_sequences_windows :
  sequences = [ py "0123456789"; py "abcdefghijklmnopqrstuvwxyz"; py "qwertyuiop";
                py "asdfghjkl"; py "zxcvbnm" ] ∧
  (∀ password,
     has_sequences password = true ↔
     ∃ ref w, ref ∈ sequences ∧ length w = 4%nat ∧
              substring w ref ∧ substring w (lower password)) ∧
  (∀ password,
     has_sequences password = true ↔
     ∃ ref i, ref ∈ sequences ∧ (i < length ref - 3)%nat ∧
              substring (slice ref i (i + 4)) (lower password)) ∧
  has_sequences (py "myqwerty1") = true ∧
  has_sequences (py "Xk9Lm2Pq") = false.
Proof.
  split; [reflexivity|]. split; [|split; [apply has_sequences_spec|]].
  - intros password. rewrite has_sequences_spec. split.
    + intros (ref & i & Href & Hi & H). exists ref, (slice ref i (i + 4)).
      destruct (proj1 (window_substring ref (slice ref i (i + 4)))) as [Hlen Hsub];
        [by exists i|].
      done.
    + intros (ref & w & Href & Hlen & Hsub & H).
      destruct (proj2 (window_substring ref w)) as (i & Hi & ->); [done|].
      by exists ref, i.
  - split; vm_compute; reflexivity.
Qed.

(** ** What the matchers match *)

Lemma elem_of_one_of p s a r :
  (a, r) ∈ one_of p s ↔ ∃ c, s = c :: r ∧ a = [c] ∧ p c = true.
Proof.
  destruct s as [|c s]; simpl.
  - rewrite elem_of_nil. split; [done|]. by intros (c & ? & _).
  - destruct (p c) eqn:E.
    + rewrite list_elem_of_singleton. split.
      * intros [= -> ->]. eauto.
      * by intros (c' & [= <- <-] & -> & _).
    + rewrite elem_of_nil. split; [done|].
      intros (c' & [= <- <-] & _ & E'). congruence.
Qed.

Lemma elem_of_then_ m1 m2 s a r :
  (a, r) ∈ then_ m1 m2 s ↔
  ∃ a1 r1 a2, (a1, r1) ∈ m1 s ∧ (a2, r) ∈ m2 r1 ∧ a = a1 ++ a2.
Proof.
  unfold then_. rewrite list_elem_of_bind. split.
  - intros ([a1 r1] & H & H1). apply list_elem_of_bind in H as ([a2 r2] & H & H2).
    apply list_elem_of_singleton in H as [= -> ->]. eauto 10.
  - intros (a1 & r1 & a2 & H1 & H2 & ->). exists (a1, r1). split; [|done].
    apply list_elem_of_bind. exists (a2, r). split; [|done].
    by apply list_elem_of_singleton.
Qed.

Lemma elem_of_alternatives ms s x :
  x ∈ alternatives ms s ↔ ∃ m, m ∈ ms ∧ x ∈ m s.
Proof.
  unfold alternatives. rewrite list_elem_of_bind. split; intros (m & ? & ?); eauto.
Qed.

Lemma elem_of_chr c s a r : (a, r) ∈ chr c s ↔ s = c :: r ∧ a = [c].
Proof.
  unfold chr. rewrite elem_of_one_of. split.
  - intros (c' & -> & -> & ->%N.eqb_eq). done.
  - intros [-> ->]. exists c. by rewrite N.eqb_refl.
Qed.

Lemma elem_of_in_range lo hi s a r :
  (a, r) ∈ in_range lo hi s ↔ ∃ c, s = c :: r ∧ a = [c] ∧ lo ≤ c ≤ hi.
Proof.
  unfold in_range. rewrite elem_of_one_of.
  split; intros (c & -> & -> & H); exists c; (split; [done|]); (split; [done|]).
  - apply andb_true_iff in H as [?%N.leb_le ?%N.leb_le]. done.
  - apply andb_true_iff. split; apply N.leb_le; tauto.
Qed.

Lemma elem_of_re_digit s a r :
  (a, r) ∈ re_digit s ↔ ∃ c, s = c :: r ∧ a = [c] ∧ is_Some (decimal c).
Proof.
  unfold re_digit. rewrite elem_of_one_of.
  split; intros (c & -> & -> & H); exists c; (split; [done|]); (split; [done|]).
  - by apply bool_decide_eq_true in H.
  - by apply bool_decide_eq_true.
Qed.

(** Facts about the tests on characters, as equations and inequalities. *)
Ltac tests :=
  repeat match goal with
  | |- context [N.eqb ?a ?b] => destruct (N.eqb_spec a b); try lia
  | |- context [N.leb ?a ?b] => destruct (N.leb_spec a b); try lia
  | H : context [N.eqb ?a ?b] |- _ => destruct (N.eqb_spec a b); try lia
  | H : context [N.leb ?a ?b] |- _ => destruct (N.leb_spec a b); try lia
  end.

Lemma decimal_ascii_digit c : 48 ≤ c ≤ 57 → decimal c = Some (c - 48).
Proof.
  intros H. unfold decimal, is_ascii, ascii_isdigit.
  destruct (N.ltb_spec c 128); [|lia]. tests. done.
Qed.

Lemma decimal_not_period c : is_Some (decimal c) → c ≠ 46.
Proof.
  intros [v H] ->. unfold decimal in H. vm_compute in H. discriminate H.
Qed.

Lemma decimal_not_space c : is_Some (decimal c) → isspace c = false.
Proof.
  intros [v H]. unfold decimal, isspace in *. destruct (is_ascii c).
  - unfold ascii_isdigit, ascii_isspace in *. tests; simpl in *; congruence.
  - by eapply uni_decimal_not_space.
Qed.

Lemma decimal_lt c v : decimal c = Some v → v < 10.
Proof.
  unfold decimal. destruct (is_ascii c).
  - unfold ascii_isdigit. tests; simpl; intros [= <-]; lia.
  - apply uni_decimal_lt.
Qed.

Lemma alternatives_nth k ms m s x :
  ms !! k = Some m → x ∈ m s → x ∈ alternatives ms s.
Proof.
  intros Hk Hx. apply elem_of_alternatives. exists m. split; [|done].
  by eapply list_elem_of_lookup_2.
Qed.

Lemma then_intro m1 m2 s a1 r1 a2 r :
  (a1, r1) ∈ m1 s → (a2, r) ∈ m2 r1 → (a1 ++ a2, r) ∈ then_ m1 m2 s.
Proof. intros H1 H2. apply elem_of_then_. eauto 10. Qed.

(** Takes a membership in the matches of a pattern apart, down to the facts
    about single characters. *)
Ltac unmatch H :=
  repeat match type of H with
  | _ ∈ alternatives _ _ =>
      let m := fresh "m" in let Hm := fresh "Hm" in
      apply elem_of_alternatives in H as (m & Hm & H);
      repeat (apply elem_of_cons in Hm as [->|Hm]);
      [.. | by apply elem_of_nil in Hm]
  | _ ∈ then_ _ _ _ =>
      let H1 := fresh "H" in
      apply elem_of_then_ in H as (? & ? & ? & H1 & H & ->); unmatch H1
  | _ ∈ chr _ _ => apply elem_of_chr in H as [-> ->]
  | _ ∈ in_range _ _ _ => apply elem_of_in_range in H as (? & -> & -> & H)
  | _ ∈ re_digit _ => apply elem_of_re_digit in H as (? & -> & -> & H)
  end.

(** Shows that a text of one or two characters is a match of a pattern made
    of [chr], [in_range] and [re_digit]. *)
Ltac rematch :=
  lazymatch goal with
  | |- ([_; _], _) ∈ then_ _ _ _ => eapply (then_intro _ _ _ [_] _ [_]); rematch
  | |- _ ∈ chr _ _ => by apply elem_of_chr
  | |- _ ∈ in_range _ _ _ =>
      apply elem_of_in_range; eexists; split; [done|]; split; [done|]; lia
  | |- _ ∈ re_digit _ =>
      apply elem_of_re_digit; eexists; split; [done|]; split; [done|]; assumption
  end.

Ltac no_text H := exfalso; simpl in H; by apply is_Some_None in H.

Lemma elem_of_re_d s a r :
  (a, r) ∈ re_d s ↔ s = a ++ r ∧ is_Some (day_text a).
Proof.
  split.
  - intros H. unfold re_d in H. unmatch H; (split; [done|]);
      unfold day_text, in_1_9; cbn [app]; tests; cbn [andb orb]; eauto.
    all: destruct H as [v ->]; simpl; eauto.
  - intros [-> H]. unfold re_d.
    destruct a as [|c1 [|c2 [|c3 a]]]; [no_text H | | | no_text H];
      unfold day_text, in_1_9 in H; cbn [app].
    + destruct (N.leb_spec 49 c1), (N.leb_spec c1 57); try no_text H.
      eapply (alternatives_nth 3); [done|]. rematch.
    + destruct (N.eqb_spec c1 51) as [->|];
        [destruct (N.leb_spec 48 c2), (N.leb_spec c2 49); try no_text H|].
      { eapply (alternatives_nth 0); [done|]. rematch. }
      cbn [andb] in H.
      destruct (N.leb_spec 49 c1), (N.leb_spec c1 50); cbn [andb] in H.
      { assert (is_Some (decimal c2)) by (destruct (decimal c2); [eauto | no_text H]).
        eapply (alternatives_nth 1); [done|]. rematch. }
      all: destruct (N.leb_spec 49 c2), (N.leb_spec c2 57);
        rewrite ?andb_false_r in H; try no_text H.
      all: destruct (N.eqb_spec c1 48) as [->|]; cbn [orb andb] in H;
        [eapply (alternatives_nth 2); [done|]; rematch|].
      all: destruct (N.eqb_spec c1 32) as [->|]; cbn [orb andb] in H;
        [eapply (alternatives_nth 4); [done|]; rematch | no_text H].
Qed.

Lemma elem_of_re_m s a r :
  (a, r) ∈ re_m s ↔ s = a ++ r ∧ is_Some (month_text a).
Proof.
  split.
  - intros H. unfold re_m in H. unmatch H; (split; [done|]);
      unfold month_text, in_1_9; cbn [app]; tests; cbn [andb orb]; eauto.
  - intros [-> H]. unfold re_m.
    destruct a as [|c1 [|c2 [|c3 a]]]; [no_text H | | | no_text H];
      unfold month_text, in_1_9 in H; cbn [app].
    + destruct (N.leb_spec 49 c1), (N.leb_spec c1 57); try no_text H.
      eapply (alternatives_nth 2); [done|]. rematch.
    + destruct (N.eqb_spec c1 49) as [->|];
        [destruct (N.leb_spec 48 c2), (N.leb_spec c2 50); try no_text H|].
      { eapply (alternatives_nth 0); [done|]. rematch. }
      cbn [andb] in H.
      destruct (N.eqb_spec c1 48) as [->|]; cbn [andb] in H; [|no_text H].
      destruct (N.leb_spec 49 c2), (N.leb_spec c2 57); try no_text H.
      eapply (alternatives_nth 1); [done|]. rematch.
Qed.

Lemma elem_of_re_Y s a r :
  (a, r) ∈ re_Y s ↔ s = a ++ r ∧ is_Some (year_text a).
Proof.
  split.
  - intros H. unfold re_Y in H. unmatch H. split; [done|].
    cbn [app year_text].
    repeat match goal with E : is_Some (decimal _) |- _ => destruct E as [? ->] end.
    simpl. eauto.
  - intros [-> H]. unfold re_Y.
    destruct a as [|c1 [|c2 [|c3 [|c4 [|c5 a]]]]]; try no_text H.
    cbn [year_text] in H.
    destruct (decimal c1) eqn:E1; [|no_text H].
    destruct (decimal c2) eqn:E2; [|no_text H].
    destruct (decimal c3) eqn:E3; [|no_text H].
    destruct (decimal c4) eqn:E4; [|no_text H].
    assert (∀ c v rest, decimal c = Some v → ([c], rest) ∈ re_digit (c :: rest)) as Hd.
    { intros c v rest E. apply elem_of_re_digit. exists c. rewrite E. eauto. }
    apply (then_intro _ _ _ [c1] (c2 :: c3 :: c4 :: r) [c2; c3; c4]); [by eapply Hd|].
    apply (then_intro _ _ _ [c2] (c3 :: c4 :: r) [c3; c4]); [by eapply Hd|].
    apply (then_intro _ _ _ [c3] (c4 :: r) [c4]); by eapply Hd.
Qed.

Lemma elem_of_format_regex s d m y r :
  (d, m, y, r) ∈ format_regex s ↔
  s = d ++ 46 :: m ++ 46 :: y ++ r ∧
  is_Some (day_text d) ∧ is_Some (month_text m) ∧ is_Some (year_text y).
Proof.
  unfold format_regex. split.
  - intros H.
    apply list_elem_of_bind in H as ([d' r1] & H & Hd).
    apply list_elem_of_bind in H as ([x1 r2] & H & H1).
    apply list_elem_of_bind in H as ([m' r3] & H & Hm).
    apply list_elem_of_bind in H as ([x2 r4] & H & H2).
    apply list_elem_of_bind in H as ([y' r5] & H & Hy).
    apply list_elem_of_singleton in H as [= -> -> -> ->].
    apply elem_of_re_d in Hd as [-> Hd]. apply elem_of_chr in H1 as [-> ->].
    apply elem_of_re_m in Hm as [-> Hm]. apply elem_of_chr in H2 as [-> ->].
    apply elem_of_re_Y in Hy as [-> Hy]. done.
  - intros (-> & Hd & Hm & Hy).
    apply list_elem_of_bind. exists (d, 46 :: m ++ 46 :: y ++ r).
    split; [|by apply elem_of_re_d].
    apply list_elem_of_bind. exists ([46], m ++ 46 :: y ++ r).
    split; [|by apply elem_of_chr].
    apply list_elem_of_bind. exists (m, 46 :: y ++ r).
    split; [|by apply elem_of_re_m].
    apply list_elem_of_bind. exists ([46], y ++ r).
    split; [|by apply elem_of_chr].
    apply list_elem_of_bind. exists (y, r).
    split; [|by apply elem_of_re_Y].
    by apply list_elem_of_singleton.
Qed.

(** ** The texts of days, months and years *)

Lemma day_text_cases a d :
  day_text a = Some d →
  (∃ c, a = [c] ∧ 49 ≤ c ≤ 57 ∧ d = c - 48) ∨
  (∃ c, a = [48; c] ∧ 49 ≤ c ≤ 57 ∧ d = c - 48) ∨
  (∃ c, a = [32; c] ∧ 49 ≤ c ≤ 57 ∧ d = c - 48) ∨
  (∃ c, a = [51; c] ∧ 48 ≤ c ≤ 49 ∧ d = 30 + (c - 48)) ∨
  (∃ c1 c2 v, a = [c1; c2] ∧ 49 ≤ c1 ≤ 50 ∧ decimal c2 = Some v ∧
              d = 10 * (c1 - 48) + v).
Proof.
  destruct a as [|c1 [|c2 [|c3 a]]]; try discriminate; unfold day_text, in_1_9.
  - tests; cbn [andb]; intros [= <-]; left; eauto.
  - destruct (N.eqb_spec c1 51) as [->|].
    { destruct (N.leb_spec 48 c2), (N.leb_spec c2 49); cbn [andb];
        [intros [= <-]; do 3 right; left; eauto | simpl; discriminate ..]. }
    cbn [andb].
    destruct (N.leb_spec 49 c1), (N.leb_spec c1 50); cbn [andb].
    { destruct (decimal c2) as [v|] eqn:E; simpl; [|discriminate].
      intros [= <-]. do 4 right. eauto 10. }
    all: destruct (N.leb_spec 49 c2), (N.leb_spec c2 57);
      rewrite ?andb_false_r; try discriminate.
    all: destruct (N.eqb_spec c1 48) as [->|]; cbn [orb andb];
      [intros [= <-]; right; left; by eauto|].
    all: destruct (N.eqb_spec c1 32) as [->|]; cbn [orb andb];
      [intros [= <-]; do 2 right; left; by eauto | discriminate].
Qed.

Lemma month_text_cases a m :
  month_text a = Some m →
  (∃ c, a = [c] ∧ 49 ≤ c ≤ 57 ∧ m = c - 48) ∨
  (∃ c, a = [48; c] ∧ 49 ≤ c ≤ 57 ∧ m = c - 48) ∨
  (∃ c, a = [49; c] ∧ 48 ≤ c ≤ 50 ∧ m = 10 + (c - 48)).
Proof.
  destruct a as [|c1 [|c2 [|c3 a]]]; try discriminate; unfold month_text, in_1_9.
  - tests; cbn [andb]; intros [= <-]; left; eauto.
  - destruct (N.eqb_spec c1 49) as [->|].
    { destruct (N.leb_spec 48 c2), (N.leb_spec c2 50); cbn [andb];
        [intros [= <-]; do 2 right; eauto | simpl; discriminate ..]. }
    cbn [andb].
    destruct (N.eqb_spec c1 48) as [->|]; cbn [andb]; [|discriminate].
    destruct (N.leb_spec 49 c2), (N.leb_spec c2 57); cbn [andb];
      try discriminate.
    intros [= <-]. right. left. eauto.
Qed.

Lemma year_text_cases a y :
  year_text a = Some y →
  ∃ c1 c2 c3 c4 v1 v2 v3 v4,
    a = [c1; c2; c3; c4] ∧ decimal c1 = Some v1 ∧ decimal c2 = Some v2 ∧
    decimal c3 = Some v3 ∧ decimal c4 = Some v4 ∧
    y = 1000 * v1 + 100 * v2 + 10 * v3 + v4.
Proof.
  destruct a as [|c1 [|c2 [|c3 [|c4 [|c5 a]]]]]; try discriminate.
  cbn [year_text].
  destruct (decimal c1) eqn:E1; [|discriminate].
  destruct (decimal c2) eqn:E2; [|discriminate].
  destruct (decimal c3) eqn:E3; [|discriminate].
  destruct (decimal c4) eqn:E4; [|discriminate].
  simpl. intros [= <-]. eauto 20.
Qed.

(** ** [int] on these texts *)

Lemma lstrip_nonspace c s : isspace c = false → lstrip (c :: s) = c :: s.
Proof. intros H. simpl. by rewrite H. Qed.

Lemma strip_nonspace s :
  Forall (λ c, isspace c = false) s → strip s = s.
Proof.
  intros H. unfold strip.
  assert (∀ t, Forall (λ c, isspace c = false) t → lstrip t = t) as Hl.
  { intros t [|c t' Hc _]; [done | by apply lstrip_nonspace]. }
  rewrite (Hl s H). rewrite Hl; [apply rev_involutive|].
  apply Forall_forall. intros c Hc. rewrite Forall_forall in H. apply H.
  apply list_elem_of_In, in_rev. by apply list_elem_of_In.
Qed.

Lemma strip_space_cons s : strip (32 :: s) = strip s.
Proof. reflexivity. Qed.

Lemma digit_not_space c : 48 ≤ c ≤ 57 → isspace c = false.
Proof.
  intros H. apply decimal_not_space. rewrite decimal_ascii_digit by done. eauto.
Qed.

Lemma int_digits s :
  s ≠ [] → Forall (λ c, isspace c = false) s →
  int s = foldl (λ acc c, a ← acc; v ← decimal c; Some (10 * a + v)) (Some 0) s.
Proof.
  intros Hne H. unfold int. rewrite (strip_nonspace s H). by destruct s.
Qed.

Lemma int_space_cons s : int (32 :: s) = int s.
Proof. reflexivity. Qed.

(** The digits of a text of ASCII digits and decimal digits are no spaces. *)
Ltac no_spaces :=
  repeat (apply Forall_cons; split;
          [first [apply digit_not_space; lia
                 | apply decimal_not_space; eexists; eassumption]|]);
  by apply Forall_nil.

Lemma int_day_text a d : day_text a = Some d → int a = Some d.
Proof.
  intros H. apply day_text_cases in H
    as [(c & -> & Hc & ->)|[(c & -> & Hc & ->)|[(c & -> & Hc & ->)|
       [(c & -> & Hc & ->)|(c1 & c2 & v & -> & Hc & Hv & ->)]]]];
    rewrite ?int_space_cons;
    (rewrite int_digits; [|done|no_spaces]);
    simpl; rewrite ?Hv, ?decimal_ascii_digit by lia; simpl; f_equal; lia.
Qed.

Lemma int_month_text a m : month_text a = Some m → int a = Some m.
Proof.
  intros H. apply month_text_cases in H
    as [(c & -> & Hc & ->)|[(c & -> & Hc & ->)|(c & -> & Hc & ->)]];
    (rewrite int_digits; [|done|no_spaces]);
    simpl; rewrite ?decimal_ascii_digit by lia; simpl; f_equal; lia.
Qed.

Lemma int_year_text a y : year_text a = Some y → int a = Some y.
Proof.
  intros H. apply year_text_cases in H
    as (c1 & c2 & c3 & c4 & v1 & v2 & v3 & v4 & -> & E1 & E2 & E3 & E4 & ->).
  rewrite int_digits; [|done|].
  - simpl. rewrite E1. simpl. rewrite E2. simpl. rewrite E3. simpl. rewrite E4.
    simpl. f_equal. lia.
  - no_spaces.
Qed.

(** ** No period inside a field *)

Lemma day_text_no_period a : is_Some (day_text a) → 46 ∉ a.
Proof.
  intros [d H]. apply day_text_cases in H
    as [(c & -> & Hc & _)|[(c & -> & Hc & _)|[(c & -> & Hc & _)|
       [(c & -> & Hc & _)|(c1 & c2 & v & -> & Hc & Hv & _)]]]];
    rewrite ?not_elem_of_cons; repeat split;
    first [apply not_elem_of_nil | lia | idtac].
  intros <-. by eapply decimal_not_period; [eexists|].
Qed.

Lemma month_text_no_period a : is_Some (month_text a) → 46 ∉ a.
Proof.
  intros [m H]. apply month_text_cases in H
    as [(c & -> & Hc & _)|[(c & -> & Hc & _)|(c & -> & Hc & _)]];
    rewrite ?not_elem_of_cons; repeat split;
    first [apply not_elem_of_nil | lia].
Qed.

Lemma year_text_no_period a : is_Some (year_text a) → 46 ∉ a.
Proof.
  intros [y H]. apply year_text_cases in H
    as (c1 & c2 & c3 & c4 & v1 & v2 & v3 & v4 & -> & E1 & E2 & E3 & E4 & _).
  rewrite !not_elem_of_cons. repeat split; try apply not_elem_of_nil;
    intros <-; by eapply decimal_not_period; [eexists|].
Qed.

Lemma year_text_length a : is_Some (year_text a) → length a = 4%nat.
Proof.
  intros [y H]. apply year_text_cases in H
    as (c1 & c2 & c3 & c4 & v1 & v2 & v3 & v4 & -> & _). done.
Qed.

(** ** Splitting at the periods *)

Lemma split_on_not_nil sep s : split_on sep s ≠ [].
Proof.
  destruct s as [|c s]; simpl; [done|].
  destruct (c =? sep); [done|]. by destruct (split_on sep s).
Qed.

Lemma split_on_no_sep sep a : sep ∉ a → split_on sep a = [a].
Proof.
  induction a as [|c a IH]; [done|].
  rewrite not_elem_of_cons. intros [Hne Ha]. simpl.
  destruct (N.eqb_spec c sep); [congruence|]. by rewrite IH.
Qed.

Lemma split_on_app sep a s :
  sep ∉ a → split_on sep (a ++ sep :: s) = a :: split_on sep s.
Proof.
  induction a as [|c a IH].
  - intros _. simpl. by rewrite N.eqb_refl.
  - rewrite not_elem_of_cons. intros [Hne Ha]. simpl.
    destruct (N.eqb_spec c sep); [congruence|]. by rewrite IH.
Qed.

Lemma split_on_cons_inv sep s a rest :
  split_on sep s = a :: rest →
  (sep ∉ a) ∧
  ((rest = [] ∧ s = a) ∨ (∃ s', s = a ++ sep :: s' ∧ split_on sep s' = rest)).
Proof.
  revert a rest. induction s as [|c s IH]; intros a rest; simpl.
  - intros [= <- <-]. split; [apply not_elem_of_nil | by left].
  - destruct (N.eqb_spec c sep) as [->|Hne].
    + intros [= <- <-]. split; [apply not_elem_of_nil|]. right. by exists s.
    + destruct (split_on sep s) as [|f fs] eqn:E; [by apply split_on_not_nil in E|].
      intros [= <- <-]. destruct (IH f fs eq_refl) as [Hf Hs].
      split; [rewrite not_elem_of_cons; split; [congruence | done]|].
      destruct Hs as [[-> ->]|(s' & -> & Hs')]; [by left|].
      right. by exists s'.
Qed.

Lemma split_on_three sep s a b c :
  split_on sep s = [a; b; c] ↔
  s = a ++ sep :: b ++ sep :: c ∧ (sep ∉ a) ∧ (sep ∉ b) ∧ (sep ∉ c).
Proof.
  split.
  - intros H.
    apply split_on_cons_inv in H as [Ha [[[=] _]|(s1 & -> & H)]].
    apply split_on_cons_inv in H as [Hb [[[=] _]|(s2 & -> & H)]].
    apply split_on_cons_inv in H as [Hc [[_ ->]|(s3 & -> & H)]]; [done|].
    by apply split_on_not_nil in H.
  - intros (-> & Ha & Hb & Hc).
    by rewrite !split_on_app, split_on_no_sep.
Qed.

(** ** [strptime] reads exactly the dates of birth of [read_dob] *)

Lemma format_regex_unique s d m y :
  (d, m, y, []) ∈ format_regex s →
  ∀ x, x ∈ format_regex s → x = (d, m, y, []).
Proof.
  intros H [[[d' m'] y'] r'] H'.
  apply elem_of_format_regex in H as (Hs & Hd & Hm & Hy).
  apply elem_of_format_regex in H' as (Hs' & Hd' & Hm' & Hy').
  rewrite Hs in Hs'.
  apply not_elem_of_app_cons_inv_l in Hs' as (-> & _ & Hs');
    [|by apply day_text_no_period..].
  apply not_elem_of_app_cons_inv_l in Hs' as (-> & _ & Hs');
    [|by apply month_text_no_period..].
  apply app_inj_1 in Hs' as [-> <-];
    [done | by rewrite !year_text_length].
Qed.

Lemma head_format_regex s d m y :
  (d, m, y, []) ∈ format_regex s → head (format_regex s) = Some (d, m, y, []).
Proof.
  intros H. pose proof (format_regex_unique s d m y H) as Huniq.
  destruct (format_regex s) as [|x l]; [by apply elem_of_nil in H|].
  simpl. f_equal. apply Huniq, list_elem_of_here.
Qed.

Lemma strptime_read_dob s dt : strptime s = Return dt ↔ read_dob s = Some dt.
Proof.
  split.
  - unfold strptime.
    destruct (head (format_regex s)) as [[[[d m] y] rest]|] eqn:Hhead; [|discriminate].
    destruct rest as [|c rest]; [|discriminate]. cbn [truthy].
    apply head_Some_elem_of, elem_of_format_regex in Hhead
      as (-> & [dv Hd] & [mv Hm] & [yv Hy]).
    rewrite (int_year_text _ _ Hy), (int_month_text _ _ Hm), (int_day_text _ _ Hd).
    destruct (valid_date yv mv dv) eqn:Hvalid; [|discriminate].
    intros [= <-]. unfold read_dob. rewrite app_nil_r.
    rewrite (proj2 (split_on_three 46 _ d m y)).
    + rewrite Hd, Hm, Hy. simpl. by rewrite Hvalid.
    + split; [done|].
      split; [apply day_text_no_period; eauto|].
      split; [apply month_text_no_period; eauto | apply year_text_no_period; eauto].
  - unfold read_dob.
    destruct (split_on 46 s) as [|ds [|ms [|ys [|? ?]]]] eqn:Hsplit; try discriminate.
    apply split_on_three in Hsplit as (-> & _).
    destruct (day_text ds) as [d|] eqn:Hd; [|discriminate].
    destruct (month_text ms) as [m|] eqn:Hm; [|discriminate].
    destruct (year_text ys) as [y|] eqn:Hy; [|discriminate].
    simpl. destruct (valid_date y m d) eqn:Hvalid; [|discriminate].
    intros [= <-]. unfold strptime.
    rewrite (head_format_regex _ ds ms ys).
    + cbn [truthy].
      rewrite (int_year_text _ _ Hy), (int_month_text _ _ Hm), (int_day_text _ _ Hd).
      by rewrite Hvalid.
    + apply elem_of_format_regex. rewrite app_nil_r, Hd, Hm, Hy. eauto.
Qed.

Lemma strptime_raises s :
  read_dob s = None → ∃ why, strptime s = Raise (ValueError why).
Proof.
  intros Hnone. destruct (strptime s) as [dt|[why]] eqn:E; [|eauto].
  apply strptime_read_dob in E. congruence.
Qed.

Lemma strptime_valid s dt :
  strptime s = Return dt → valid_date (year dt) (month dt) (day dt) = true.
Proof.
  unfold strptime. repeat case_match; try discriminate. by intros [= <-].
Qed.

(** ** The digits of a valid date *)

(** A property checked for every number below [k] holds for each of them. *)
Lemma below_forallb (P : N → bool) (k : N) :
  forallb P (List.map N.of_nat (seq 0 (N.to_nat k))) = true →
  ∀ n, n < k → P n = true.
Proof.
  intros H n Hn. rewrite forallb_forall in H. apply H.
  apply in_map_iff. exists (N.to_nat n). split; [lia|]. apply in_seq. lia.
Qed.

Lemma valid_date_bounds y m d :
  valid_date y m d = true → 1 ≤ y ≤ 9999 ∧ 1 ≤ m ≤ 12 ∧ 1 ≤ d ≤ 31.
Proof.
  unfold valid_date. rewrite !andb_true_iff, !N.leb_le.
  intros (((((Hy1 & Hy2) & Hm1) & Hm2) & Hd1) & Hd2).
  split; [done|]. split; [done|]. split; [done|].
  assert (days_in_month y m ≤ 31) as Hdim; [|lia].
  unfold days_in_month. destruct ((m =? 2) && is_leap y); [lia|].
  assert (N.to_nat m < 13)%nat as Hlt by lia.
  destruct (N.to_nat m) as [|[|[|[|[|[|[|[|[|[|[|[|[|k]]]]]]]]]]]]]; simpl; lia.
Qed.

Lemma two_digits_facts n :
  n < 100 →
  format_0d 2 n = two_digits n ∧ (46 ∉ two_digits n) ∧
  (1 ≤ n ≤ 31 → day_text (two_digits n) = Some n) ∧
  (1 ≤ n ≤ 12 → month_text (two_digits n) = Some n).
Proof.
  intros Hn.
  pose (P := λ n, bool_decide (format_0d 2 n = two_digits n) &&
                  bool_decide (46 ∉ two_digits n) &&
                  (negb ((1 <=? n) && (n <=? 31)) ||
                   bool_decide (day_text (two_digits n) = Some n)) &&
                  (negb ((1 <=? n) && (n <=? 12)) ||
                   bool_decide (month_text (two_digits n) = Some n))).
  assert (P n = true) as H.
  { apply (below_forallb P 100); [vm_compute; reflexivity | done]. }
  unfold P in H. rewrite !andb_true_iff, !orb_true_iff, !bool_decide_eq_true in H.
  destruct H as (((H1 & H2) & H3) & H4).
  split; [done|]. split; [done|]. split; intros [??].
  - destruct H3 as [H3|H3]; [|done].
    apply negb_true_iff, andb_false_iff in H3 as [?%N.leb_gt|?%N.leb_gt]; lia.
  - destruct H4 as [H4|H4]; [|done].
    apply negb_true_iff, andb_false_iff in H4 as [?%N.leb_gt|?%N.leb_gt]; lia.
Qed.

Lemma four_digits_facts n :
  n < 10000 →
  format_0d 4 n = four_digits n ∧ (46 ∉ four_digits n) ∧
  drop 2 (four_digits n) = two_digits (n mod 100) ∧
  year_text (four_digits n) = Some n.
Proof.
  intros Hn.
  pose (P := λ n, bool_decide (format_0d 4 n = four_digits n) &&
                  bool_decide (46 ∉ four_digits n) &&
                  bool_decide (drop 2 (four_digits n) = two_digits (n mod 100)) &&
                  bool_decide (year_text (four_digits n) = Some n)).
  assert (P n = true) as H.
  { apply (below_forallb P 10000); [vm_compute; reflexivity | done]. }
  unfold P in H. rewrite !andb_true_iff, !bool_decide_eq_true in H.
  tauto.
Qed.

(** A valid date written DD.MM.YYYY is read as that date. *)
Lemma read_dob_strict y m d :
  valid_date y m d = true →
  read_dob (two_digits d ++ 46 :: two_digits m ++ 46 :: four_digits y) =
    Some {| year := y; month := m; day := d |}.
Proof.
  intros Hvalid. destruct (valid_date_bounds _ _ _ Hvalid) as (Hy & Hm & Hd).
  destruct (two_digits_facts d) as (_ & Pd & Hday & _); [lia|].
  destruct (two_digits_facts m) as (_ & Pm & _ & Hmonth); [lia|].
  destruct (four_digits_facts y) as (_ & Py & _ & Hyear); [lia|].
  unfold read_dob. rewrite (proj2 (split_on_three 46 _ _ _ _)) by done.
  rewrite Hday, Hmonth, Hyear by done. simpl. by rewrite Hvalid.
Qed.

Lemma extract_birth_tokens_parsed dob dt :
  strptime dob = Return dt → extract_birth_tokens dob = Return (birth_tokens dt).
Proof.
  intros H. destruct (valid_date_bounds _ _ _ (strptime_valid _ _ H)) as (Hy & Hm & Hd).
  unfold extract_birth_tokens. rewrite H. simpl.
  destruct (two_digits_facts (day dt)) as (-> & _); [lia|].
  destruct (two_digits_facts (month dt)) as (-> & _); [lia|].
  destruct (four_digits_facts (year dt)) as (-> & _ & -> & _); [lia|].
  reflexivity.
Qed.

(** C4. For every date of birth that parses, [extract_birth_tokens] returns
    the set of the ten tokens dd, mm, yyyy, yy, dd+mm, mm+dd, yyyy+mm+dd,
    dd+mm+yyyy, yy+mm+dd and dd+mm+yy of its date; a valid calendar date
    written DD.MM.YYYY does parse, as that date; and for "15.06.1990" the
    set is the one of the specification. *)
Theorem birth_tokens_of_valid_date :
  (∀ dob dt,
     strptime dob = Return dt →
     extract_birth_tokens dob = Return (birth_tokens dt)) ∧
  (∀ y m d,
     valid_date y m d = true →
     let dd := two_digits d in
     let mm := two_digits m in
     let yyyy := four_digits y in
     let yy := two_digits (y mod 100) in
     extract_birth_tokens (dd ++ py "." ++ mm ++ py "." ++ yyyy) =
       Return {[ dd; mm; yyyy; yy; dd ++ mm; mm ++ dd; yyyy ++ mm ++ dd;
                 dd ++ mm ++ yyyy; yy ++ mm ++ dd; dd ++ mm ++ yy ]}) ∧
  extract_birth_tokens (py "15.06.1990") =
    Return {[ py "15"; py "06"; py "1990"; py "90"; py "1506"; py "0615";
              py "19900615"; py "15061990"; py "900615"; py "150690" ]}.
Proof.
  split; [exact extract_birth_tokens_parsed|]. split.
  - intros y m d Hvalid dd mm yyyy yy.
    apply (extract_birth_tokens_parsed _ {| year := y; month := m; day := d |}).
    apply strptime_read_dob. by apply read_dob_strict.
  - vm_compute. reflexivity.
Qed.

(** C5, as the code has it.  [extract_birth_tokens] raises [ValueError] for
    every string that is not a real calendar date of the years 1 to 9999
    written day.month.year, where the day is one digit 1-9, two digits 01-31
    or a space and one digit, the month is one digit 1-9 or two digits
    01-12, and the year is four decimal digits; in particular it raises for
    "31.02.2000".  It raises for no other string. *)
Theorem extract_birth_tokens_rejects :
  (∀ dob, read_dob dob = None →
          ∃ why, extract_birth_tokens dob = Raise (ValueError why)) ∧
  (∀ dob dt, read_dob dob = Some dt →
             extract_birth_tokens dob = Return (birth_tokens dt)) ∧
  read_dob (py "31.02.2000") = None ∧
  extract_birth_tokens (py "31.02.2000") = Raise (ValueError out_of_range).
Proof.
  split; [|split; [|split]].
  - intros dob Hnone. destruct (strptime_raises dob Hnone) as [why Hwhy].
    exists why. unfold extract_birth_tokens. by rewrite Hwhy.
  - intros dob dt H. by apply extract_birth_tokens_parsed, strptime_read_dob.
  - vm_compute. reflexivity.
  - vm_compute. reflexivity.
Qed.

(** ** Further properties *)

(** X1. [strptime] with the format "%d.%m.%Y" returns a date exactly for the
    strings [read_dob] reads, and then that date. *)
Theorem strptime_accepts_exactly dob dt :
  strptime dob = Return dt ↔ read_dob dob = Some dt.
Proof. apply strptime_read_dob. Qed.

(** ** The tables of penalties and recommendations *)

Lemma total_penalty_snoc l i :
  total_penalty (l ++ [i]) = (total_penalty l + issue_penalty i)%Z.
Proof.
  unfold total_penalty. induction l as [|j l IH]; csimpl; [lia|].
  rewrite IH. lia.
Qed.

Lemma recommendation_rank_advice i :
  recommendation_rank (issue_advice i) = issue_rank i.
Proof. by destruct i. Qed.

Lemma tabled_skip k v : tabled k v → tabled (S k) v.
Proof.
  intros [? ? Hi ? Hr ? ? ? Hb]. split; try done.
  - eapply Forall_impl; [exact Hi|]. simpl. lia.
  - eapply Forall_impl; [exact Hr|]. simpl. lia.
  - assert (penalty_budget k ≤ penalty_budget (S k))%Z; [|lia].
    do 9 (destruct k as [|k]; [simpl; lia|]). simpl. lia.
Qed.

Lemma sorted_snoc (l : list nat) (k : nat) :
  StronglySorted lt l → Forall (λ n, (n < k)%nat) l → StronglySorted lt (l ++ [k]).
Proof.
  intros Hs Hlt. apply StronglySorted_app. split; [|split; [done|]].
  - intros x1 x2 H1 ->%list_elem_of_singleton.
    rewrite Forall_forall in Hlt. by apply Hlt.
  - repeat constructor.
Qed.

Lemma below_snoc (l : list nat) (k : nat) :
  Forall (λ n, (n < k)%nat) l → Forall (λ n, (n < S k)%nat) (l ++ [k]).
Proof.
  intros Hlt. apply Forall_app. split.
  - eapply Forall_impl; [exact Hlt|]. simpl. lia.
  - repeat constructor.
Qed.

Lemma length_good_not_below (l : list recommendation) :
  Forall (λ n, (n < 4)%nat) (recommendation_rank <$> l) → LENGTH_GOOD ∉ l.
Proof.
  intros Hlt Hin. rewrite Forall_fmap, Forall_forall in Hlt.
  specialize (Hlt _ Hin). simpl in Hlt. lia.
Qed.

(** The [k]-th check keeps the tables. *)
Lemma tabled_combine k v f : tabled k v → finding k f → tabled (S k) (combine v f).
Proof.
  intros Hv [|i Hrank|Hk].
  - rewrite combine_no_findings. by apply tabled_skip.
  - rewrite <- flag_combine. destruct Hv as [Hs Hi Hilt Hr Hrlt Ha Ho Hl Hb].
    split; simpl.
    + rewrite total_penalty_snoc, Hs. lia.
    + rewrite fmap_app. simpl. rewrite Hrank. by apply sorted_snoc.
    + rewrite fmap_app. simpl. rewrite Hrank. by apply below_snoc.
    + rewrite fmap_app. simpl. rewrite recommendation_rank_advice, Hrank.
      by apply sorted_snoc.
    + rewrite fmap_app. simpl. rewrite recommendation_rank_advice, Hrank.
      by apply below_snoc.
    + intros j. rewrite !elem_of_app, !list_elem_of_singleton.
      intros [Hj| ->]; [left; by apply Ha | by right].
    + intros r. rewrite !elem_of_app, !list_elem_of_singleton.
      intros [Hr'| ->].
      * destruct (Ho r Hr') as [->|(j & Hj & <-)]; [by left|].
        right. exists j. rewrite elem_of_app. tauto.
      * right. exists i. rewrite elem_of_app, list_elem_of_singleton. tauto.
    + rewrite !length_app, Hl. simpl.
      assert (bool_decide (LENGTH_GOOD ∈ v_recs v ++ [issue_advice i]) =
              bool_decide (LENGTH_GOOD ∈ v_recs v)) as ->; [|lia].
      apply bool_decide_ext. rewrite elem_of_app, list_elem_of_singleton.
      split; [|tauto]. intros [?|Heq]; [done|]. by destruct i.
    + rewrite total_penalty_snoc.
      assert (0 ≤ issue_penalty i ∧
              penalty_budget k + issue_penalty i ≤ penalty_budget (S k))%Z as Hp
        by (rewrite <- Hrank; by destruct i).
      simpl in Hp. lia.
  - subst k. rewrite <- advise_combine. destruct Hv as [Hs Hi Hilt Hr Hrlt Ha Ho Hl Hb].
    pose proof (length_good_not_below _ Hrlt) as Hfresh.
    split; simpl; try done.
    + eapply Forall_impl; [exact Hilt|]. simpl. lia.
    + rewrite fmap_app. by apply sorted_snoc.
    + rewrite fmap_app. by apply below_snoc.
    + intros j Hj. rewrite elem_of_app. left. by apply Ha.
    + intros r. rewrite elem_of_app, list_elem_of_singleton.
      intros [Hr'| ->]; [by apply Ho | by left].
    + rewrite length_app, Hl. simpl.
      rewrite (bool_decide_eq_false_2 _ Hfresh).
      rewrite bool_decide_eq_true_2; [lia|].
      rewrite elem_of_app, list_elem_of_singleton. tauto.
    + simpl in Hb. lia.
Qed.

Lemma initial_vars_tabled : tabled 1 initial_vars.
Proof.
  split; simpl; try done; try apply SSorted_nil; try apply Forall_nil_2;
    try (intros ? H; by apply elem_of_nil in H).
Qed.

Lemma check_first_name_finding pn fn :
  finding 1 (check_first_name pn fn no_findings).
Proof.
  unfold check_first_name. case_match;
    [by apply (finding_issue 1 CONTAINS_FIRST_NAME) | constructor].
Qed.

Lemma check_last_name_finding pn ln :
  finding 2 (check_last_name pn ln no_findings).
Proof.
  unfold check_last_name. case_match;
    [by apply (finding_issue 2 CONTAINS_LAST_NAME) | constructor].
Qed.

Lemma check_birth_finding password dob fb :
  check_birth password dob no_findings = Return fb → finding 3 fb.
Proof.
  unfold check_birth. destruct (extract_birth_tokens dob) as [tokens|[why]]; simpl.
  - intros [= <-]. case_match; [constructor|].
    by apply (finding_issue 3 (CONTAINS_BIRTH_FRAGMENT _)).
  - intros [= <-]. by apply (finding_issue 3 INVALID_DOB_FORMAT).
Qed.

Lemma check_length_finding password :
  finding 4 (check_length password no_findings).
Proof.
  unfold check_length. repeat case_match;
    [ by apply (finding_issue 4 TOO_SHORT)
    | by apply (finding_issue 4 MEDIUM_LENGTH)
    | by apply finding_length_good
    | constructor ].
Qed.

Lemma check_classes_finding password :
  finding 5 (check_classes password no_findings).
Proof.
  unfold check_classes. destruct (char_classes password) as [[[l u] d] s].
  repeat case_match;
    [ by apply (finding_issue 5 SINGLE_CHAR_CLASS)
    | by apply (finding_issue 5 TWO_CHAR_CLASSES)
    | by apply (finding_issue 5 NO_SPECIAL_CHARS)
    | constructor ].
Qed.

Lemma check_repeats_finding password :
  finding 6 (check_repeats password no_findings).
Proof.
  unfold check_repeats. case_match;
    [by apply (finding_issue 6 REPEATED_CHARS) | constructor].
Qed.

Lemma check_sequences_finding password :
  finding 7 (check_sequences password no_findings).
Proof.
  unfold check_sequences. case_match;
    [by apply (finding_issue 7 HAS_SEQUENCE) | constructor].
Qed.

Lemma check_common_words_finding password :
  finding 8 (check_common_words password no_findings).
Proof.
  unfold check_common_words. case_match;
    [by apply (finding_issue 8 COMMON_WORD) | constructor].
Qed.

(** The variables after the eight checks follow the tables. *)
Lemma run_checks_tabled password first_name last_name dob :
  ∃ v, run_checks password first_name last_name dob = Return v ∧ tabled 9 v.
Proof.
  destruct (run_checks_findings password first_name last_name dob) as (f3 & Hf3 & Hrun).
  eexists. split; [exact Hrun|].
  apply tabled_combine; [|apply check_common_words_finding].
  apply tabled_combine; [|apply check_sequences_finding].
  apply tabled_combine; [|apply check_repeats_finding].
  apply tabled_combine; [|apply check_classes_finding].
  apply tabled_combine; [|apply check_length_finding].
  apply tabled_combine; [|by eapply check_birth_finding].
  apply tabled_combine; [|apply check_last_name_finding].
  apply tabled_combine; [|apply check_first_name_finding].
  apply initial_vars_tabled.
Qed.

Lemma increasing_NoDup (l : list nat) : StronglySorted lt l → NoDup l.
Proof.
  induction 1 as [|x l Hs IH Hx]; constructor; [|done].
  intros Hin. rewrite Forall_forall in Hx. specialize (Hx _ Hin). lia.
Qed.

Lemma increasing_length (l : list nat) (a b : nat) :
  StronglySorted lt l → Forall (λ n, (a ≤ n < b)%nat) l → (length l ≤ b - a)%nat.
Proof.
  intros Hs. revert a. induction Hs as [|x l Hs IH Hx]; intros a Hb; simpl; [lia|].
  apply Forall_cons in Hb as [Hxb Hb].
  assert (length l ≤ b - S x)%nat; [|lia].
  apply IH. rewrite Forall_forall in *. intros n Hn.
  specialize (Hx _ Hn). specialize (Hb _ Hn). lia.
Qed.

Lemma ranked_NoDup {A} (rank : A → nat) (l : list A) :
  StronglySorted lt (rank <$> l) → NoDup l.
Proof. intros H. eapply NoDup_fmap_1, increasing_NoDup, H. Qed.

Lemma first_occurrences_NoDup {A} `{EqDecision A} (l : list A) :
  NoDup l → first_occurrences l = l.
Proof.
  induction 1 as [|x l Hx Hl IH]; simpl; [done|]. rewrite IH. f_equal.
  clear IH Hl. induction l as [|y l IH]; [done|].
  apply not_elem_of_cons in Hx as [Hne Hx].
  rewrite filter_cons_True by done. by rewrite IH.
Qed.

(** The result in terms of the variables after the eight checks: removing
    duplicates changes nothing, and there are at most eight issues. *)
Lemma analysis_tabled password first_name last_name dob :
  ∃ v r,
    run_checks password first_name last_name dob = Return v ∧ tabled 9 v ∧
    analyze_password password first_name last_name dob = Return r ∧
    score r = clamp (v_score v) ∧
    issues r = v_issues v ∧
    recommendations r =
      v_recs v ++ (match v_issues v with [] => [GOOD_PRACTICE] | _ => [] end) ∧
    pw_length r = Z.of_nat (length password) ∧
    (length (v_issues v) ≤ 8)%nat.
Proof.
  destruct (run_checks_tabled password first_name last_name dob) as (v & Hrun & Hv).
  destruct (analyze_password_unfold _ _ _ _ _ Hrun)
    as (r & Hr & Hscore & Hiss & Hrecs & Hlen & _).
  exists v, r. do 5 (split; [done|]). split; [|split; [done|]].
  - assert (GOOD_PRACTICE ∉ v_recs v) as Hfresh.
    { intros Hin. pose proof (tabled_recs_lt _ _ Hv) as Hlt.
      rewrite Forall_fmap, Forall_forall in Hlt.
      specialize (Hlt _ Hin). simpl in Hlt. lia. }
    pose proof (tabled_recs _ _ Hv) as Hsorted.
    rewrite Hrecs, dict_keys_fromkeys.
    destruct (v_issues v); simpl.
    + apply first_occurrences_NoDup, NoDup_app.
      split; [by eapply ranked_NoDup|]. split; [|apply NoDup_singleton].
      intros x Hx ->%list_elem_of_singleton. done.
    + rewrite app_nil_r. apply first_occurrences_NoDup. by eapply ranked_NoDup.
  - rewrite <- (length_fmap issue_rank).
    change 8%nat with (9 - 1)%nat. apply increasing_length; [apply Hv|].
    pose proof (tabled_issues_lt _ _ Hv) as Hlt.
    rewrite Forall_fmap, Forall_forall in *. intros i Hi. specialize (Hlt i Hi).
    unfold compose in *. split; [destruct i; simpl; lia | done].
Qed.

(** X2. The score of the result is 10 less the sum of the penalties that
    the table gives for the issues it lists (3 for a name or a fragment of
    the date of birth, 1 for an unreadable date, 4 and 2 for the lengths, 4,
    2 and 1 for the character classes, 1 for repeats, 2 for sequences, 3 for
    common words), clamped to 1..10; the penalties add up to 23 at most. *)
Theorem score_is_ten_less_penalties password first_name last_name dob :
  ∃ v r,
    run_checks password first_name last_name dob = Return v ∧
    analyze_password password first_name last_name dob = Return r ∧
    v_score v = (10 - total_penalty (issues r))%Z ∧
    score r = clamp (10 - total_penalty (issues r)) ∧
    (0 ≤ total_penalty (issues r) ≤ 23)%Z.
Proof.
  destruct (run_checks_tabled password first_name last_name dob) as (v & Hrun & Hv).
  destruct (analyze_password_unfold _ _ _ _ _ Hrun) as (r & Hr & Hscore & Hiss & _).
  exists v, r. split; [exact Hrun|]. split; [exact Hr|].
  rewrite Hscore, Hiss, (tabled_score _ _ Hv).
  split; [done|]. split; [done|]. exact (tabled_budget _ _ Hv).
Qed.

(** X3. The issues of the result stand in the order of the checks that
    report them (first name, last name, date of birth, length, character
    classes, repeats, sequences, common words), at most one from each check;
    so no issue is listed twice and there are at most eight. *)
Theorem issues_in_check_order password first_name last_name dob :
  ∃ r,
    analyze_password password first_name last_name dob = Return r ∧
    StronglySorted lt (issue_rank <$> issues r) ∧
    NoDup (issues r) ∧
    (length (issues r) ≤ 8)%nat.
Proof.
  destruct (analysis_tabled password first_name last_name dob)
    as (v & r & _ & Hv & Hr & _ & Hiss & _ & _ & Hlen).
  exists r. split; [exact Hr|]. rewrite Hiss.
  pose proof (tabled_issues _ _ Hv) as Hsorted.
  split; [done|]. split; [by eapply ranked_NoDup | done].
Qed.

(** X4. Removing duplicates changes nothing: the recommendations of the
    result are the ones the checks recorded, in that order, followed by the
    advice on good practice exactly when no issue was found.  Each issue
    comes with its recommendation, every other recommendation is the remark
    that the length is good or the advice on good practice, and the list is
    never empty. *)
Theorem recommendations_follow_issues password first_name last_name dob :
  ∃ v r,
    run_checks password first_name last_name dob = Return v ∧
    analyze_password password first_name last_name dob = Return r ∧
    recommendations r =
      v_recs v ++ (match issues r with [] => [GOOD_PRACTICE] | _ => [] end) ∧
    recommendations r ≠ [] ∧
    (GOOD_PRACTICE ∈ recommendations r ↔ issues r = []) ∧
    (∀ i, i ∈ issues r → issue_advice i ∈ recommendations r) ∧
    (∀ x, x ∈ recommendations r →
          x = LENGTH_GOOD ∨ x = GOOD_PRACTICE ∨
          ∃ i, i ∈ issues r ∧ issue_advice i = x) ∧
    length (recommendations r) =
      (length (issues r)
       + (if bool_decide (LENGTH_GOOD ∈ recommendations r) then 1 else 0)
       + (match issues r with [] => 1 | _ => 0 end))%nat.
Proof.
  destruct (analysis_tabled password first_name last_name dob)
    as (v & r & Hrun & Hv & Hr & _ & Hiss & Heq & _).
  exists v, r. split; [exact Hrun|]. split; [exact Hr|].
  destruct Hv as [_ _ _ Hsorted Hlt Hadvice Horigin Hlen _].
  assert (GOOD_PRACTICE ∉ v_recs v) as Hfresh.
  { intros Hin. rewrite Forall_fmap, Forall_forall in Hlt.
    specialize (Hlt _ Hin). simpl in Hlt. lia. }
  rewrite Heq, Hiss. split; [done|].
  destruct (v_issues v) as [|i0 more] eqn:Hi.
  - split; [by destruct (v_recs v)|].
    split; [split; [done|]; intros _; rewrite elem_of_app, list_elem_of_singleton; tauto|].
    split; [by intros i ?%elem_of_nil|].
    split.
    + intros x. rewrite elem_of_app, list_elem_of_singleton.
      intros [Hx| ->]; [|tauto].
      destruct (Horigin x Hx) as [->|(i & ?%elem_of_nil & _)]; [tauto | done].
    + rewrite length_app, Hlen. simpl.
      assert (bool_decide (LENGTH_GOOD ∈ v_recs v ++ [GOOD_PRACTICE]) =
              bool_decide (LENGTH_GOOD ∈ v_recs v)) as ->; [|lia].
      apply bool_decide_ext. rewrite elem_of_app, list_elem_of_singleton.
      split; [|tauto]. by intros [?|[=]].
  - rewrite app_nil_r.
    split.
    { intros Hnil. pose proof (Hadvice i0 (list_elem_of_here _ _)) as Hin.
      rewrite Hnil in Hin. by apply elem_of_nil in Hin. }
    split; [split; [done | discriminate]|].
    split; [done|].
    split.
    + intros x Hx. destruct (Horigin x Hx) as [->|?]; tauto.
    + rewrite Hlen. simpl. lia.
Qed.

(** ** Which issue comes from which condition *)

Lemma finding_rank k f i : finding k f → i ∈ v_issues f → issue_rank i = k.
Proof.
  intros [|j Hj|Hk]; simpl.
  - by intros ?%elem_of_nil.
  - by intros ->%list_elem_of_singleton.
  - by intros ?%elem_of_nil.
Qed.

(** An issue is in the result exactly when the check of its rank, made on
    its own, reports it. *)
Lemma analysis_issue_origin password first_name last_name dob :
  ∃ f3 r,
    check_birth password dob no_findings = Return f3 ∧
    analyze_password password first_name last_name dob = Return r ∧
    ∀ i, i ∈ issues r ↔
         i ∈ v_issues
               (match issue_rank i with
                | 1 => check_first_name (normalize password) (normalize first_name)
                         no_findings
                | 2 => check_last_name (normalize password) (normalize last_name)
                         no_findings
                | 3 => f3
                | 4 => check_length password no_findings
                | 5 => check_classes password no_findings
                | 6 => check_repeats password no_findings
                | 7 => check_sequences password no_findings
                | _ => check_common_words password no_findings
                end%nat).
Proof.
  destruct (analysis_findings password first_name last_name dob)
    as (f3 & r & Hf3 & Hr & Hiss & _).
  exists f3, r. split; [exact Hf3|]. split; [exact Hr|].
  intros i. rewrite Hiss. split.
  - intros [H|[H|[H|[H|[H|[H|[H|H]]]]]]].
    + by rewrite (finding_rank _ _ _ (check_first_name_finding _ _) H).
    + by rewrite (finding_rank _ _ _ (check_last_name_finding _ _) H).
    + by rewrite (finding_rank _ _ _ (check_birth_finding _ _ _ Hf3) H).
    + by rewrite (finding_rank _ _ _ (check_length_finding _) H).
    + by rewrite (finding_rank _ _ _ (check_classes_finding _) H).
    + by rewrite (finding_rank _ _ _ (check_repeats_finding _) H).
    + by rewrite (finding_rank _ _ _ (check_sequences_finding _) H).
    + by rewrite (finding_rank _ _ _ (check_common_words_finding _) H).
  - destruct i; simpl; tauto.
Qed.

(** X5. The result reports CONTAINS_FIRST_NAME exactly when the normalized
    first name is not empty and occurs in the normalized password, and
    CONTAINS_LAST_NAME likewise for the last name; a name that is empty or
    made of separators only is never reported. *)
Theorem name_issues_iff password first_name last_name dob :
  ∃ r,
    analyze_password password first_name last_name dob = Return r ∧
    (CONTAINS_FIRST_NAME ∈ issues r ↔
       normalize first_name ≠ [] ∧
       substring (normalize first_name) (normalize password)) ∧
    (CONTAINS_LAST_NAME ∈ issues r ↔
       normalize last_name ≠ [] ∧
       substring (normalize last_name) (normalize password)).
Proof.
  destruct (analysis_issue_origin password first_name last_name dob)
    as (f3 & r & _ & Hr & Hiss).
  exists r. split; [exact Hr|].
  rewrite (Hiss CONTAINS_FIRST_NAME), (Hiss CONTAINS_LAST_NAME). simpl.
  unfold check_first_name, check_last_name. rewrite <- !str_in_spec.
  split.
  - destruct (normalize first_name) as [|c fn]; simpl.
    + rewrite elem_of_nil. tauto.
    + destruct (str_in (c :: fn) (normalize password)); simpl;
        rewrite ?list_elem_of_singleton, ?elem_of_nil;
        (split; [try done; intros _; by split | try done; by intros [_ ?]]).
  - destruct (normalize last_name) as [|c ln]; simpl.
    + rewrite elem_of_nil. tauto.
    + destruct (str_in (c :: ln) (normalize password)); simpl;
        rewrite ?list_elem_of_singleton, ?elem_of_nil;
        (split; [try done; intros _; by split | try done; by intros [_ ?]]).
Qed.

(** ** Repeats, sequences and common words *)

Lemma has_triple_repeat_spec s :
  has_triple_repeat s = true ↔
  ∃ pre c post, s = pre ++ c :: c :: c :: post ∧ c ≠ 10.
Proof.
  induction s as [|a s IH]; simpl.
  - split; [discriminate|]. intros (pre & c & post & H & _). by destruct pre.
  - destruct s as [|b [|c s]].
    + split; [discriminate|]. intros (pre & x & post & H & _).
      by destruct pre as [|? [|? ?]].
    + split; [discriminate|]. intros (pre & x & post & H & _).
      by destruct pre as [|? [|? [|? ?]]].
    + rewrite orb_true_iff, IH. split.
      * intros [H|(pre & x & post & -> & Hx)].
        -- apply andb_true_iff in H as [H Hbc%N.eqb_eq].
           apply andb_true_iff in H as [Ha%negb_true_iff%N.eqb_neq Hab%N.eqb_eq].
           subst b c. by exists [], a, s.
        -- by exists (a :: pre), x, post.
      * intros (pre & x & post & H & Hx). destruct pre as [|a' pre].
        -- injection H as -> -> -> ->. left.
           rewrite !N.eqb_refl. by apply N.eqb_neq in Hx as ->.
        -- injection H as -> H. right. by exists pre, x, post.
Qed.

(** X6. The result reports REPEATED_CHARS exactly when some character other
    than the newline stands three times in a row in the raw password. *)
Theorem repeated_chars_iff password first_name last_name dob :
  ∃ r,
    analyze_password password first_name last_name dob = Return r ∧
    (REPEATED_CHARS ∈ issues r ↔
       ∃ pre c post, password = pre ++ [c; c; c] ++ post ∧ c ≠ 10).
Proof.
  destruct (analysis_issue_origin password first_name last_name dob)
    as (f3 & r & _ & Hr & Hiss).
  exists r. split; [exact Hr|].
  rewrite (Hiss REPEATED_CHARS). simpl. unfold check_repeats.
  rewrite <- (has_triple_repeat_spec password).
  destruct (has_triple_repeat password); simpl;
    rewrite ?list_elem_of_singleton, ?elem_of_nil; split; done.
Qed.

Lemma total_penalty_app l1 l2 :
  total_penalty (l1 ++ l2) = (total_penalty l1 + total_penalty l2)%Z.
Proof.
  unfold total_penalty. induction l1 as [|j l1 IH]; csimpl; [lia|].
  rewrite IH. lia.
Qed.

Lemma total_penalty_nonneg l : (0 ≤ total_penalty l)%Z.
Proof.
  unfold total_penalty. induction l as [|j l IH]; csimpl; [lia|].
  assert (0 ≤ issue_penalty j)%Z by (by destruct j). lia.
Qed.

Lemma total_penalty_elem i l : i ∈ l → (issue_penalty i ≤ total_penalty l)%Z.
Proof.
  intros (l1 & l2 & ->)%list_elem_of_split.
  rewrite total_penalty_app. change (i :: l2) with ([i] ++ l2).
  rewrite total_penalty_app.
  pose proof (total_penalty_nonneg l1). pose proof (total_penalty_nonneg l2).
  unfold total_penalty at 2. simpl. lia.
Qed.

(** Two different issues of a list cost at least their two penalties. *)
Lemma total_penalty_two i j l :
  i ∈ l → j ∈ l → i ≠ j →
  (issue_penalty i + issue_penalty j ≤ total_penalty l)%Z.
Proof.
  intros (l1 & l2 & ->)%list_elem_of_split Hj Hne.
  assert (j ∈ l1 ++ l2) as Hj'.
  { rewrite elem_of_app in *. rewrite elem_of_cons in Hj.
    destruct Hj as [?|[->|?]]; tauto. }
  apply total_penalty_elem in Hj'.
  rewrite total_penalty_app in *. change (i :: l2) with ([i] ++ l2).
  rewrite total_penalty_app. unfold total_penalty at 2. simpl. lia.
Qed.

Lemma substring_trans (a b c : str) : substring a b → substring b c → substring a c.
Proof.
  intros (p1 & q1 & ->) (p2 & q2 & ->). exists (p2 ++ p1), (q1 ++ q2).
  by rewrite <- !app_assoc.
Qed.

Lemma common_words_existsb (p : str) :
  existsb (λ w, str_in w p) (elements COMMON_WORDS) = true
  ↔ ∃ w, w ∈ COMMON_WORDS ∧ substring w p.
Proof.
  rewrite existsb_exists. split.
  - intros (w & Hw & Hin). exists w. split.
    + apply (proj1 (elem_of_elements _ _)), (proj2 (list_elem_of_In _ _)), Hw.
    + apply str_in_spec, Hin.
  - intros (w & Hw & Hin). exists w. split.
    + apply (proj1 (list_elem_of_In _ _)), (proj2 (elem_of_elements _ _)), Hw.
    + apply str_in_spec, Hin.
Qed.

Lemma check_common_words_issue (p : str) :
  COMMON_WORD ∈ v_issues (check_common_words p no_findings)
  ↔ ∃ w, w ∈ COMMON_WORDS ∧ substring w (lower p).
Proof.
  rewrite <- common_words_existsb. unfold check_common_words.
  destruct (existsb _ _); cbn [flag v_issues no_findings app].
  - rewrite list_elem_of_singleton. tauto.
  - rewrite elem_of_nil. split; [tauto | discriminate].
Qed.

Lemma check_sequences_issue (p : str) :
  HAS_SEQUENCE ∈ v_issues (check_sequences p no_findings) ↔ has_sequences p = true.
Proof.
  unfold check_sequences.
  destruct (has_sequences p); cbn [flag v_issues no_findings app].
  - rewrite list_elem_of_singleton. tauto.
  - rewrite elem_of_nil. split; [tauto | discriminate].
Qed.

(** X7. The result reports COMMON_WORD exactly when one of the eleven
    common words occurs in the lowercased password, and HAS_SEQUENCE exactly
    when four consecutive characters of one of the five reference strings
    occur in it. *)
Theorem common_word_iff password first_name last_name dob :
  ∃ r,
    analyze_password password first_name last_name dob = Return r ∧
    (COMMON_WORD ∈ issues r ↔
       ∃ w, w ∈ COMMON_WORDS ∧ substring w (lower password)) ∧
    (HAS_SEQUENCE ∈ issues r ↔
       ∃ ref i, ref ∈ sequences ∧ (i < length ref - 3)%nat ∧
                substring (slice ref i (i + 4)) (lower password)).
Proof.
  destruct (analysis_issue_origin password first_name last_name dob)
    as (f3 & r & _ & Hr & Hiss).
  exists r. split; [exact Hr|]. split.
  - rewrite (Hiss COMMON_WORD). cbn [issue_rank]. apply check_common_words_issue.
  - rewrite (Hiss HAS_SEQUENCE). cbn [issue_rank].
    rewrite check_sequences_issue. apply has_sequences_spec.
Qed.

(** X8. The common words qwerty and 123456 hold a window of a reference
    sequence: a password in which one of them occurs (in any letter case) is
    reported both for a common word and for a sequence, and its score is at
    most 5. *)
Theorem keyboard_words_cost_five password first_name last_name dob :
  substring (py "qwerty") (lower password) ∨
  substring (py "123456") (lower password) →
  ∃ r,
    analyze_password password first_name last_name dob = Return r ∧
    COMMON_WORD ∈ issues r ∧ HAS_SEQUENCE ∈ issues r ∧ (score r ≤ 5)%Z.
Proof.
  intros Hword.
  destruct (run_checks_tabled password first_name last_name dob) as (v & Hrun & Hv).
  destruct (analysis_issue_origin password first_name last_name dob)
    as (f3 & r & _ & Hr & Hiss).
  destruct (analyze_password_unfold _ _ _ _ _ Hrun) as (r' & Hr' & Hscore & Hiss' & _).
  rewrite Hr in Hr'. injection Hr' as <-.
  exists r. split; [exact Hr|].
  assert (COMMON_WORD ∈ issues r) as H1.
  { rewrite (Hiss COMMON_WORD). cbn [issue_rank]. apply check_common_words_issue.
    destruct Hword as [H|H].
    - exists (py "qwerty"). split; [|exact H]. vm_compute. reflexivity.
    - exists (py "123456"). split; [|exact H]. vm_compute. reflexivity. }
  assert (HAS_SEQUENCE ∈ issues r) as H2.
  { rewrite (Hiss HAS_SEQUENCE). cbn [issue_rank].
    apply check_sequences_issue, has_sequences_spec. destruct Hword as [H|H].
    - exists (py "qwertyuiop"), 0%nat.
      split; [unfold sequences; rewrite !elem_of_cons; tauto|].
      split; [vm_compute; lia|].
      eapply substring_trans; [|exact H]. exists [], (py "ty"). vm_compute. reflexivity.
    - exists (py "0123456789"), 1%nat.
      split; [unfold sequences; rewrite !elem_of_cons; tauto|].
      split; [vm_compute; lia|].
      eapply substring_trans; [|exact H]. exists [], (py "56"). vm_compute. reflexivity. }
  split; [exact H1|]. split; [exact H2|].
  rewrite Hscore, (tabled_score _ _ Hv), <- Hiss'.
  pose proof (total_penalty_two COMMON_WORD HAS_SEQUENCE (issues r) H1 H2) as Hsum.
  cbn [issue_penalty] in Hsum. specialize (Hsum ltac:(discriminate)).
  unfold clamp. lia.
Qed.

(** ** The fragments of the date of birth *)

#[local] Instance str_le_total : Total str_le.
Proof.
  intros a. induction a as [|x a IH]; intros [|y b]; unfold str_le; simpl; try tauto.
  destruct (IH b) as [H|H]; unfold str_le in H;
    destruct (N.ltb_spec x y), (N.ltb_spec y x), (N.eqb_spec x y), (N.eqb_spec y x);
    simpl; try tauto; lia.
Qed.

#[local] Instance str_le_trans : Transitive str_le.
Proof.
  intros a. induction a as [|x a IH]; intros [|y b] [|z c]; unfold str_le; simpl;
    try tauto.
  specialize (IH b c). unfold str_le in IH.
  destruct (N.ltb_spec x y), (N.ltb_spec y z), (N.ltb_spec x z),
    (N.eqb_spec x y), (N.eqb_spec y z), (N.eqb_spec x z); simpl; try tauto; lia.
Qed.

#[local] Instance str_le_antisymm : AntiSymm (=) str_le.
Proof.
  intros a. induction a as [|x a IH]; intros [|y b]; unfold str_le; simpl;
    try tauto.
  specialize (IH b). unfold str_le in IH.
  destruct (N.ltb_spec x y), (N.ltb_spec y x), (N.eqb_spec x y), (N.eqb_spec y x);
    simpl; try tauto; try lia.
  intros H1 H2. f_equal; [done | by apply IH].
Qed.

Lemma sorted_facts (l : list str) :
  StronglySorted str_le (sorted l) ∧ sorted l ≡ₚ l.
Proof.
  split.
  - apply (StronglySorted_merge_sort str_le).
  - apply (merge_sort_Permutation str_le).
Qed.

Lemma found_tokens_facts (tokens : gset str) (password : str) :
  let ts := sorted (List.filter (λ t, str_in t password) (elements tokens)) in
  StronglySorted str_le ts ∧ NoDup ts ∧
  ∀ t, t ∈ ts ↔ t ∈ tokens ∧ substring t password.
Proof.
  intros ts. destruct (sorted_facts
    (List.filter (λ t, str_in t password) (elements tokens))) as [Hs Hp].
  fold ts in Hs, Hp. split; [exact Hs|]. split.
  - rewrite Hp. apply NoDup_ListNoDup, List.NoDup_filter, NoDup_ListNoDup.
    exact (NoDup_elements tokens).
  - intros t. rewrite Hp, list_elem_of_In, filter_In, <- list_elem_of_In.
    rewrite str_in_spec. by rewrite (elem_of_elements tokens t).
Qed.

Lemma sorted_nil_iff (l : list str) : sorted l = [] ↔ l = [].
Proof.
  destruct (sorted_facts l) as [_ Hp]. split; intros H.
  - rewrite H in Hp. by apply Permutation_nil_l in Hp.
  - subst l. by apply Permutation_nil_r in Hp.
Qed.

Lemma sorted_list_unique (l1 l2 : list str) :
  StronglySorted str_le l1 → NoDup l1 →
  StronglySorted str_le l2 → NoDup l2 →
  (∀ t, t ∈ l1 ↔ t ∈ l2) → l1 = l2.
Proof.
  intros S1 N1 S2 N2 H. apply (StronglySorted_unique str_le); [done..|].
  by apply NoDup_Permutation.
Qed.

(** What the third check records when it starts from nothing. *)
Lemma check_birth_issues password dob :
  ∃ fb,
    check_birth password dob no_findings = Return fb ∧
    v_issues fb =
      match read_dob dob with
      | None => [INVALID_DOB_FORMAT]
      | Some dt =>
          match List.filter (λ t, str_in t password) (elements (birth_tokens dt)) with
          | [] => []
          | found => [CONTAINS_BIRTH_FRAGMENT (sorted found)]
          end
      end.
Proof.
  destruct (read_dob dob) as [dt|] eqn:E.
  - apply strptime_read_dob, extract_birth_tokens_parsed in E.
    unfold check_birth. rewrite E.
    cbn [mbind outcome_bind mret outcome_ret try_except_ValueError].
    eexists. split; [reflexivity|]. by destruct (List.filter _ _).
  - apply strptime_raises in E as [why E].
    assert (extract_birth_tokens dob = Raise (ValueError why)) as E'
      by (unfold extract_birth_tokens; by rewrite E).
    rewrite (check_birth_invalid _ _ _ no_findings E').
    eexists. split; [reflexivity|]. reflexivity.
Qed.

(** X9. The result reports INVALID_DOB_FORMAT exactly when the date of
    birth cannot be read, and a list of fragments exactly when the date reads
    and some token of it occurs in the password as typed: the list then
    holds each such token once, in increasing order, whatever the order in
    which the set of tokens is traversed. *)
Theorem birth_fragments_iff password first_name last_name dob :
  ∃ r,
    analyze_password password first_name last_name dob = Return r ∧
    (INVALID_DOB_FORMAT ∈ issues r ↔ read_dob dob = None) ∧
    (∀ ts, CONTAINS_BIRTH_FRAGMENT ts ∈ issues r ↔
       ∃ dt, read_dob dob = Some dt ∧ ts ≠ [] ∧
             StronglySorted str_le ts ∧ NoDup ts ∧
             ∀ t, t ∈ ts ↔ t ∈ birth_tokens dt ∧ substring t password).
Proof.
  destruct (analysis_issue_origin password first_name last_name dob)
    as (f3 & r & Hf3 & Hr & Hiss).
  destruct (check_birth_issues password dob) as (fb & Hfb & Hissues).
  rewrite Hf3 in Hfb. injection Hfb as <-.
  exists r. split; [exact Hr|]. split.
  - rewrite (Hiss INVALID_DOB_FORMAT). cbn [issue_rank]. rewrite Hissues.
    destruct (read_dob dob) as [dt|].
    + destruct (List.filter _ _); rewrite ?elem_of_nil, ?list_elem_of_singleton;
        split; [tauto | discriminate | discriminate | discriminate].
    + rewrite list_elem_of_singleton. tauto.
  - intros ts. rewrite (Hiss (CONTAINS_BIRTH_FRAGMENT ts)). cbn [issue_rank].
    rewrite Hissues. destruct (read_dob dob) as [dt|].
    + pose proof (found_tokens_facts (birth_tokens dt) password) as (Hs & Hn & Hm).
      pose proof (sorted_nil_iff
        (List.filter (λ t, str_in t password) (elements (birth_tokens dt)))) as Hnil.
      destruct (List.filter _ _) as [|t0 found] eqn:E.
      * rewrite elem_of_nil. split; [tauto|]. intros (dt' & [= <-] & Hne & _ & _ & H).
        destruct ts as [|t ts]; [done|].
        assert (t ∈ birth_tokens dt ∧ substring t password) as HH
          by (apply H; left).
        apply Hm in HH. rewrite (proj2 Hnil eq_refl) in HH.
        by apply elem_of_nil in HH.
      * rewrite list_elem_of_singleton. split.
        -- intros [= ->]. exists dt. split; [done|]. split; [|done].
           intros H. by apply Hnil in H.
        -- intros (dt' & [= <-] & Hne & Hs' & Hn' & Hm'). f_equal.
           apply sorted_list_unique; [done..|]. intros t. by rewrite Hm, Hm'.
    + rewrite list_elem_of_singleton. split; [discriminate|].
      by intros (dt & ? & _).
Qed.

Lemma two_digits_digit_string n : n < 100 → digit_string (two_digits n).
Proof.
  intros H. unfold digit_string, two_digits.
  repeat apply Forall_cons_2; [| |apply Forall_nil_2];
    zify; Z.to_euclidean_division_equations; lia.
Qed.

Lemma four_digits_digit_string n : n < 10000 → digit_string (four_digits n).
Proof.
  intros H. unfold digit_string, four_digits.
  repeat apply Forall_cons_2; [| | | |apply Forall_nil_2];
    zify; Z.to_euclidean_division_equations; lia.
Qed.

Lemma elem_of_birth_tokens t dt :
  t ∈ birth_tokens dt ↔
  let dd := two_digits (day dt) in
  let mm := two_digits (month dt) in
  let yyyy := four_digits (year dt) in
  let yy := two_digits (year dt mod 100) in
  t = dd ∨ t = mm ∨ t = yyyy ∨ t = yy ∨ t = dd ++ mm ∨ t = mm ++ dd ∨
  t = yyyy ++ mm ++ dd ∨ t = dd ++ mm ++ yyyy ∨
  t = yy ++ mm ++ dd ∨ t = dd ++ mm ++ yy.
Proof.
  unfold birth_tokens. cbv zeta. rewrite !elem_of_union, !elem_of_singleton. tauto.
Qed.

Lemma extract_birth_tokens_date dob tokens :
  extract_birth_tokens dob = Return tokens →
  ∃ dt, read_dob dob = Some dt ∧ tokens = birth_tokens dt ∧
        1 ≤ year dt ≤ 9999 ∧ 1 ≤ month dt ≤ 12 ∧ 1 ≤ day dt ≤ 31.
Proof.
  intros H. destruct (strptime dob) as [dt|e] eqn:E.
  - exists dt. split; [by apply strptime_read_dob|].
    rewrite (extract_birth_tokens_parsed _ _ E) in H. injection H as <-.
    split; [done|]. apply valid_date_bounds, (strptime_valid _ _ E).
  - unfold extract_birth_tokens in H. rewrite E in H. discriminate H.
Qed.

Lemma birth_token_shape t dt :
  1 ≤ year dt ≤ 9999 → 1 ≤ month dt ≤ 12 → 1 ≤ day dt ≤ 31 →
  t ∈ birth_tokens dt →
  digit_string t ∧
  (length t = 2 ∨ length t = 4 ∨ length t = 6 ∨ length t = 8)%nat.
Proof.
  intros Hy Hm Hd Ht. apply elem_of_birth_tokens in Ht. cbv zeta in Ht.
  assert (digit_string (two_digits (day dt))) as Dd
    by (apply two_digits_digit_string; lia).
  assert (digit_string (two_digits (month dt))) as Dm
    by (apply two_digits_digit_string; lia).
  assert (digit_string (four_digits (year dt))) as Dy
    by (apply four_digits_digit_string; lia).
  assert (digit_string (two_digits (year dt mod 100))) as Dyy
    by (apply two_digits_digit_string; zify; Z.to_euclidean_division_equations; lia).
  unfold digit_string in *.
  destruct_or!; subst t; (split; [repeat apply Forall_app_2; assumption|]);
    rewrite ?length_app; simpl; lia.
Qed.

(** X10. The tokens of a date of birth that reads are strings of two, four,
    six or eight ASCII digits, and there are at least four and at most ten
    of them (tokens that coincide count once). *)
Theorem birth_tokens_are_digit_strings dob tokens :
  extract_birth_tokens dob = Return tokens →
  (4 ≤ size tokens ≤ 10)%nat ∧
  ∀ t, t ∈ tokens →
       digit_string t ∧
       (length t = 2 ∨ length t = 4 ∨ length t = 6 ∨ length t = 8)%nat.
Proof.
  intros H. apply extract_birth_tokens_date in H as (dt & _ & -> & Hy & Hm & Hd).
  split; [|intros t; by apply birth_token_shape].
  set (dd := two_digits (day dt)). set (mm := two_digits (month dt)).
  set (yyyy := four_digits (year dt)). set (yy := two_digits (year dt mod 100)).
  split.
  - assert (NoDup [dd; yyyy; yy ++ mm ++ dd; yyyy ++ mm ++ dd]) as Hnd.
    { apply (NoDup_fmap_1 length). vm_compute.
      repeat (apply NoDup_cons_2; [rewrite ?elem_of_cons, elem_of_nil; lia|]).
      apply NoDup_nil_2. }
    change (size (birth_tokens dt)) with (length (elements (birth_tokens dt))).
    change 4%nat with (length [dd; yyyy; yy ++ mm ++ dd; yyyy ++ mm ++ dd]).
    apply submseteq_length, NoDup_submseteq; [exact Hnd|].
    intros t Ht. apply (proj2 (elem_of_elements (birth_tokens dt) t)).
    apply elem_of_birth_tokens. cbv zeta. fold dd mm yyyy yy.
    rewrite !elem_of_cons, elem_of_nil in Ht. tauto.
  - change (size (birth_tokens dt)) with (length (elements (birth_tokens dt))).
    change 10%nat with
      (length [dd; mm; yyyy; yy; dd ++ mm; mm ++ dd; yyyy ++ mm ++ dd;
               dd ++ mm ++ yyyy; yy ++ mm ++ dd; dd ++ mm ++ yy]).
    apply submseteq_length, NoDup_submseteq; [exact (NoDup_elements (birth_tokens dt))|].
    intros t Ht. apply (proj1 (elem_of_elements (birth_tokens dt) t)) in Ht.
    apply elem_of_birth_tokens in Ht. cbv zeta in Ht. fold dd mm yyyy yy in Ht.
    rewrite !elem_of_cons, elem_of_nil. tauto.
Qed.

(** X11. A password without ASCII digits is never reported for fragments
    of the date of birth, whatever the date. *)
Theorem no_digit_no_birth_fragment password first_name last_name dob :
  Forall (λ c, ¬ 48 ≤ c ≤ 57) password →
  ∃ r,
    analyze_password password first_name last_name dob = Return r ∧
    ∀ ts, CONTAINS_BIRTH_FRAGMENT ts ∉ issues r.
Proof.
  intros Hpw.
  destruct (analysis_issue_origin password first_name last_name dob)
    as (f3 & r & Hf3 & Hr & Hiss).
  destruct (check_birth_issues password dob) as (fb & Hfb & Hissues).
  rewrite Hf3 in Hfb. injection Hfb as <-.
  exists r. split; [exact Hr|]. intros ts.
  rewrite (Hiss (CONTAINS_BIRTH_FRAGMENT ts)). cbn [issue_rank]. rewrite Hissues.
  destruct (read_dob dob) as [dt|] eqn:E;
    [|rewrite list_elem_of_singleton; discriminate].
  apply strptime_read_dob, strptime_valid, valid_date_bounds in E as (Hy & Hm & Hd).
  destruct (List.filter _ _) as [|t found] eqn:Ef; [apply not_elem_of_nil|].
  exfalso.
  assert (In t (List.filter (λ t, str_in t password) (elements (birth_tokens dt))))
    as Ht by (rewrite Ef; by left).
  apply filter_In in Ht as [Ht Hin]. apply list_elem_of_In in Ht.
  apply (proj1 (elem_of_elements (birth_tokens dt) t)) in Ht.
  apply (birth_token_shape _ _ Hy Hm Hd) in Ht as [Hdigits Hlen].
  apply str_in_spec in Hin as (pre & post & ->).
  destruct t as [|c t]; [simpl in Hlen; lia|].
  apply Forall_cons_1 in Hdigits as [Hc _].
  apply Forall_app in Hpw as [_ Hpw]. apply Forall_cons_1 in Hpw as [Hpw _].
  by apply Hpw.
Qed.

Lemma read_dob_year_suffix dob dt :
  ascii_string dob → read_dob dob = Some dt →
  ∃ pre, dob = pre ++ four_digits (year dt).
Proof.
  intros Hascii. unfold read_dob.
  destruct (split_on 46 dob) as [|ds [|ms [|ys [|? ?]]]] eqn:E; try done.
  apply split_on_three in E as (-> & _).
  destruct (day_text ds) as [d|]; [|done]. destruct (month_text ms) as [m|]; [|done].
  destruct (year_text ys) as [y|] eqn:Ey; [|done]. simpl.
  destruct (valid_date y m d); [|done]. intros [= <-]. simpl.
  exists (ds ++ 46 :: ms ++ [46]). rewrite <- !app_assoc. simpl.
  rewrite <- app_assoc. simpl. do 4 f_equal.
  apply year_text_cases in Ey
    as (c1 & c2 & c3 & c4 & v1 & v2 & v3 & v4 & -> & H1 & H2 & H3 & H4 & ->).
  unfold ascii_string in Hascii.
  repeat (rewrite Forall_app in Hascii || rewrite Forall_cons in Hascii).
  destruct Hascii as (_ & _ & _ & _ & A1 & A2 & A3 & A4 & _).
  assert (∀ c v, c < 128 → decimal c = Some v → 48 ≤ c ≤ 57 ∧ v = c - 48) as Hdec.
  { intros c v Hc. unfold decimal, is_ascii, ascii_isdigit.
    apply N.ltb_lt in Hc as ->.
    destruct (N.leb_spec 48 c), (N.leb_spec c 57); simpl; try done.
    intros [= <-]. lia. }
  apply (Hdec _ _ A1) in H1 as [? ->]. apply (Hdec _ _ A2) in H2 as [? ->].
  apply (Hdec _ _ A3) in H3 as [? ->]. apply (Hdec _ _ A4) in H4 as [? ->].
  unfold four_digits.
  repeat f_equal; zify; Z.to_euclidean_division_equations; lia.
Qed.

(** X12. A password that holds the date of birth as it was typed (in ASCII,
    and readable) is reported for fragments of it, the four-digit year among
    them. *)
Theorem dob_in_password_is_reported password first_name last_name dob dt :
  ascii_string dob → read_dob dob = Some dt → substring dob password →
  ∃ r ts,
    analyze_password password first_name last_name dob = Return r ∧
    CONTAINS_BIRTH_FRAGMENT ts ∈ issues r ∧
    four_digits (year dt) ∈ ts.
Proof.
  intros Hascii Hdt Hsub.
  destruct (analysis_issue_origin password first_name last_name dob)
    as (f3 & r & Hf3 & Hr & Hiss).
  destruct (check_birth_issues password dob) as (fb & Hfb & Hissues).
  rewrite Hf3 in Hfb. injection Hfb as <-. rewrite Hdt in Hissues.
  pose proof (found_tokens_facts (birth_tokens dt) password) as (_ & _ & Hm).
  assert (four_digits (year dt) ∈
            sorted (List.filter (λ t, str_in t password)
                      (elements (birth_tokens dt)))) as Hin.
  { apply Hm. split.
    - apply elem_of_birth_tokens. cbv zeta. tauto.
    - destruct (read_dob_year_suffix dob dt Hascii Hdt) as (pre & Hpre).
      eapply substring_trans; [|exact Hsub]. exists pre, []. by rewrite app_nil_r. }
  pose proof (sorted_nil_iff
    (List.filter (λ t, str_in t password) (elements (birth_tokens dt)))) as Hnil.
  destruct (List.filter _ _) as [|t0 found] eqn:E.
  - rewrite (proj2 Hnil eq_refl) in Hin. by apply elem_of_nil in Hin.
  - exists r, (sorted (t0 :: found)). split; [exact Hr|]. split; [|exact Hin].
    apply (proj2 (Hiss _)). cbn [issue_rank]. rewrite Hissues. by left.
Qed.

(** ** Normalized strings *)

Lemma lstrip_spec s : ∃ ws, s = ws ++ lstrip s ∧ Forall (λ c, isspace c = true) ws.
Proof.
  induction s as [|c s (ws & IH & Hws)]; [by exists []|]. simpl.
  destruct (isspace c) eqn:E.
  - exists (c :: ws). split; [by rewrite IH at 1 | by apply Forall_cons_2].
  - by exists [].
Qed.

(** [s.strip()] takes white space away at both ends. *)
Lemma strip_spec s :
  ∃ ws1 ws2, s = ws1 ++ strip s ++ ws2 ∧
             Forall (λ c, isspace c = true) ws1 ∧ Forall (λ c, isspace c = true) ws2.
Proof.
  destruct (lstrip_spec s) as (ws1 & H1 & Hws1).
  destruct (lstrip_spec (rev (lstrip s))) as (ws2 & H2 & Hws2).
  exists ws1, (rev ws2). split; [|split; [done|]].
  - rewrite H1 at 1. f_equal. unfold strip. rewrite <- rev_app_distr, <- H2.
    by rewrite rev_involutive.
  - apply Forall_forall. intros c Hc. rewrite Forall_forall in Hws2.
    apply Hws2, list_elem_of_In, in_rev, list_elem_of_In, Hc.
Qed.

Lemma lower_ascii s : ascii_string s → lower s = map ascii_tolower s.
Proof.
  unfold lower.
  assert (∀ i c, c < 128 → lower_at s i c = [ascii_tolower c]) as Hf.
  { intros i c Hc. unfold lower_at, is_ascii. by apply N.ltb_lt in Hc as ->. }
  revert Hf. generalize (lower_at s).
  induction s as [|c s IH]; intros f Hf Hs; [done|].
  apply Forall_cons_1 in Hs as [Hc Hs]. rewrite imap_cons. simpl.
  rewrite IH; [|intros i c' Hc'; by apply Hf|done]. by rewrite Hf.
Qed.

Lemma is_separator_ascii c : c < 128 → is_separator c = ascii_is_separator c.
Proof.
  intros Hc. unfold is_separator, ascii_is_separator, isspace, is_ascii.
  by apply N.ltb_lt in Hc as ->.
Qed.

Lemma ascii_tolower_lt c : c < 128 → ascii_tolower c < 128.
Proof.
  intros Hc. unfold ascii_tolower, ascii_isupper.
  destruct (N.leb_spec 65 c), (N.leb_spec c 90); simpl; lia.
Qed.

Lemma ascii_tolower_separator c :
  ascii_is_separator (ascii_tolower c) = ascii_is_separator c.
Proof.
  unfold ascii_tolower, ascii_isupper.
  destruct (N.leb_spec 65 c), (N.leb_spec c 90); simpl; try done.
  unfold ascii_is_separator, ascii_isspace.
  repeat match goal with
         | |- context [?a <=? ?b] => destruct (N.leb_spec a b); try lia
         | |- context [?a =? ?b] => destruct (N.eqb_spec a b); try lia
         end; done.
Qed.

Lemma ascii_tolower_idemp c : ascii_tolower (ascii_tolower c) = ascii_tolower c.
Proof.
  unfold ascii_tolower, ascii_isupper.
  destruct (N.leb_spec 65 c), (N.leb_spec c 90); simpl;
    repeat match goal with
           | |- context [?a <=? ?b] => destruct (N.leb_spec a b); try lia
           end; done.
Qed.

Lemma remove_separators_ascii s :
  ascii_string s →
  remove_separators s = List.filter (λ c, negb (ascii_is_separator c)) s.
Proof.
  unfold remove_separators. induction 1 as [|c s Hc Hs IH]; [done|].
  simpl. by rewrite IH, is_separator_ascii.
Qed.

Lemma remove_separators_spaces ws :
  Forall (λ c, isspace c = true) ws → remove_separators ws = [].
Proof.
  unfold remove_separators. induction 1 as [|c s Hc Hs IH]; [done|].
  simpl. unfold is_separator. by rewrite Hc.
Qed.

Lemma remove_separators_app a b :
  remove_separators (a ++ b) = remove_separators a ++ remove_separators b.
Proof. apply List.filter_app. Qed.

Lemma filter_map_tolower s :
  List.filter (λ c, negb (ascii_is_separator c)) (map ascii_tolower s) =
  map ascii_tolower (List.filter (λ c, negb (ascii_is_separator c)) s).
Proof.
  induction s as [|c s IH]; [done|]. simpl. rewrite ascii_tolower_separator, IH.
  by destruct (ascii_is_separator c).
Qed.

Lemma normalize_closed_form s :
  ascii_string s →
  normalize s = map ascii_tolower (List.filter (λ c, negb (ascii_is_separator c)) s).
Proof.
  intros Hs. destruct (strip_spec s) as (ws1 & ws2 & Heq & H1 & H2).
  assert (ascii_string (strip s)) as Hstrip.
  { unfold ascii_string in *. rewrite Heq in Hs.
    apply Forall_app in Hs as [_ Hs]. by apply Forall_app in Hs as [Hs _]. }
  unfold normalize. rewrite (lower_ascii _ Hstrip).
  rewrite remove_separators_ascii
    by (apply Forall_fmap, (Forall_impl _ _ _ Hstrip); intros c; apply ascii_tolower_lt).
  rewrite filter_map_tolower. f_equal.
  rewrite <- !remove_separators_ascii by done.
  rewrite Heq at 2. rewrite !remove_separators_app.
  rewrite (remove_separators_spaces ws1), (remove_separators_spaces ws2) by done.
  by rewrite app_nil_r.
Qed.

(** X13. On ASCII strings, normalizing removes the white space, the
    underscores, the hyphens and the periods, wherever they stand, turns the
    capital letters A-Z into a-z and changes nothing else; the result is
    ASCII again, holds none of these characters, and normalizing it once
    more changes nothing. *)
Theorem normalize_ascii s :
  ascii_string s →
  normalize s =
    map ascii_tolower (List.filter (λ c, negb (ascii_is_separator c)) s) ∧
  ascii_string (normalize s) ∧
  Forall (λ c, ascii_is_separator c = false ∧ ascii_isupper c = false) (normalize s) ∧
  normalize (normalize s) = normalize s.
Proof.
  intros Hs.
  assert (Forall (λ c, is_separator c = false) (normalize s)) as Hsep.
  { unfold normalize, remove_separators. apply Forall_forall. intros c Hc.
    apply list_elem_of_In, filter_In in Hc as [_ Hc]. by apply negb_true_iff. }
  revert Hsep. rewrite (normalize_closed_form s Hs).
  set (t := List.filter _ s). intros Hsep.
  assert (ascii_string t) as Ht.
  { apply Forall_forall. intros c Hc. unfold t in Hc.
    apply list_elem_of_In, filter_In in Hc as [Hc _].
    unfold ascii_string in Hs. rewrite Forall_forall in Hs.
    by apply Hs, list_elem_of_In. }
  assert (ascii_string (map ascii_tolower t)) as Ht'.
  { apply Forall_fmap, (Forall_impl _ _ _ Ht). intros c. apply ascii_tolower_lt. }
  split; [done|]. split; [done|]. split.
  - apply Forall_forall. intros c Hc. split.
    + rewrite Forall_forall in Hsep. rewrite <- is_separator_ascii; [by apply Hsep|].
      unfold ascii_string in Ht'. rewrite Forall_forall in Ht'. by apply Ht'.
    + apply list_elem_of_In, in_map_iff in Hc as (c' & <- & _).
      unfold ascii_tolower, ascii_isupper.
      destruct (N.leb_spec 65 c'), (N.leb_spec c' 90); simpl;
        repeat match goal with
               | |- context [?a <=? ?b] => destruct (N.leb_spec a b); try lia
               end; done.
  - rewrite (normalize_closed_form _ Ht'). rewrite filter_map_tolower.
    rewrite map_map.
    assert (List.filter (λ c, negb (ascii_is_separator c)) t = t) as ->.
    { unfold t. clear. induction s as [|c s IH]; [done|]. simpl.
      destruct (ascii_is_separator c) eqn:E; simpl; [done|]. by rewrite E, IH. }
    apply map_ext. intros c. apply ascii_tolower_idemp.
Qed.

(** X14. The names are compared as normalized: two ASCII spellings of a
    name that differ only in the case of the letters and in white space,
    underscores, hyphens and periods give the same analysis. *)
Theorem names_compared_normalized
    password first_name first_name' last_name last_name' dob :
  ascii_string first_name → ascii_string first_name' →
  ascii_string last_name → ascii_string last_name' →
  map ascii_tolower (List.filter (λ c, negb (ascii_is_separator c)) first_name) =
    map ascii_tolower (List.filter (λ c, negb (ascii_is_separator c)) first_name') →
  map ascii_tolower (List.filter (λ c, negb (ascii_is_separator c)) last_name) =
    map ascii_tolower (List.filter (λ c, negb (ascii_is_separator c)) last_name') →
  analyze_password password first_name last_name dob =
    analyze_password password first_name' last_name' dob.
Proof.
  intros Hf Hf' Hl Hl' Ef El.
  rewrite <- !normalize_closed_form in Ef, El by done.
  unfold analyze_password, run_checks. by rewrite Ef, El.
Qed.

(** ** The perfect score *)

Lemma finding_issues k f :
  finding k f → v_issues f = [] ∨ ∃ i, issue_rank i = k ∧ v_issues f = [i].
Proof. intros [|i Hi|Hk]; [by left | right; by exists i | by left]. Qed.

Lemma total_penalty_zero l : total_penalty l = 0%Z ↔ l = [].
Proof.
  split; [|by intros ->]. destruct l as [|i l]; [done|]. intros H.
  pose proof (total_penalty_elem i (i :: l) ltac:(left)) as Hi.
  assert (1 ≤ issue_penalty i)%Z by (destruct i; simpl; lia). lia.
Qed.

(** The result has no issue exactly when none of the eight checks, made on
    its own, reports one. *)
Lemma analysis_clean password first_name last_name dob :
  ∃ f3 r,
    check_birth password dob no_findings = Return f3 ∧
    analyze_password password first_name last_name dob = Return r ∧
    (issues r = [] ↔
       v_issues (check_first_name (normalize password) (normalize first_name)
                   no_findings) = [] ∧
       v_issues (check_last_name (normalize password) (normalize last_name)
                   no_findings) = [] ∧
       v_issues f3 = [] ∧
       v_issues (check_length password no_findings) = [] ∧
       v_issues (check_classes password no_findings) = [] ∧
       v_issues (check_repeats password no_findings) = [] ∧
       v_issues (check_sequences password no_findings) = [] ∧
       v_issues (check_common_words password no_findings) = []).
Proof.
  destruct (analysis_issue_origin password first_name last_name dob)
    as (f3 & r & Hf3 & Hr & Hiss).
  exists f3, r. split; [exact Hf3|]. split; [exact Hr|]. split.
  - intros Hnil.
    assert (∀ k f, finding k f →
              (∀ i, issue_rank i = k → i ∈ v_issues f → i ∈ issues r) →
              v_issues f = []) as Hclean.
    { intros k f [-> | (i & Hi & Hf)]%finding_issues H; [done|].
      specialize (H i Hi). rewrite Hf, Hnil in H.
      exfalso. eapply not_elem_of_nil, H. by left. }
    repeat split.
    + apply (Hclean 1%nat); [apply check_first_name_finding|].
      intros i Hi. rewrite (Hiss i), Hi. done.
    + apply (Hclean 2%nat); [apply check_last_name_finding|].
      intros i Hi. rewrite (Hiss i), Hi. done.
    + apply (Hclean 3%nat); [by apply (check_birth_finding password dob)|].
      intros i Hi. rewrite (Hiss i), Hi. done.
    + apply (Hclean 4%nat); [apply check_length_finding|].
      intros i Hi. rewrite (Hiss i), Hi. done.
    + apply (Hclean 5%nat); [apply check_classes_finding|].
      intros i Hi. rewrite (Hiss i), Hi. done.
    + apply (Hclean 6%nat); [apply check_repeats_finding|].
      intros i Hi. rewrite (Hiss i), Hi. done.
    + apply (Hclean 7%nat); [apply check_sequences_finding|].
      intros i Hi. rewrite (Hiss i), Hi. done.
    + apply (Hclean 8%nat); [apply check_common_words_finding|].
      intros i Hi. rewrite (Hiss i), Hi. done.
  - intros (H1 & H2 & H3 & H4 & H5 & H6 & H7 & H8).
    destruct (issues r) as [|i l] eqn:E; [done|]. exfalso.
    assert (i ∈ i :: l) as Hi by left.
    apply (proj1 (Hiss i)) in Hi. revert Hi.
    destruct i; cbn [issue_rank];
      rewrite ?H1, ?H2, ?H3, ?H4, ?H5, ?H6, ?H7, ?H8; apply not_elem_of_nil.
Qed.

Lemma check_name_clean pn n :
  v_issues (check_first_name pn n no_findings) = [] ↔ n = [] ∨ ¬ substring n pn.
Proof.
  unfold check_first_name. rewrite <- str_in_spec.
  destruct n as [|c n]; simpl; [tauto|].
  destruct (str_in (c :: n) pn); simpl; split; try done; [|by right].
  intros [?|H]; [done|]. by destruct H.
Qed.

Lemma check_last_name_clean pn n :
  v_issues (check_last_name pn n no_findings) = [] ↔ n = [] ∨ ¬ substring n pn.
Proof.
  unfold check_last_name. rewrite <- str_in_spec.
  destruct n as [|c n]; simpl; [tauto|].
  destruct (str_in (c :: n) pn); simpl; split; try done; [|by right].
  intros [?|H]; [done|]. by destruct H.
Qed.

Lemma check_length_clean password :
  v_issues (check_length password no_findings) = [] ↔ (12 ≤ length password)%nat.
Proof.
  destruct (check_length_cases password no_findings)
    as [[H ->]|[[H ->]|[[H ->]|[H ->]]]]; simpl; split; try done; lia.
Qed.

Lemma check_classes_clean password :
  v_issues (check_classes password no_findings) = [] ↔
  let '(l, u, d, s) := char_classes password in
  let n := class_count {| lowercase := l; uppercase := u; digits := d; special := s |} in
  n = 4%nat ∨ (n = 3%nat ∧ s = true).
Proof.
  pose proof (check_classes_cases password no_findings) as H.
  destruct (char_classes password) as [[[l u] d] s]. cbv zeta in *.
  destruct H as [[H ->]|[[H ->]|[(H & Hs & ->)|[H ->]]]]; simpl; split; try done;
    try lia.
  intros [?|[_ ?]]; [lia|congruence].
Qed.

Lemma check_repeats_clean password :
  v_issues (check_repeats password no_findings) = [] ↔
  ∀ pre c post, password = pre ++ [c; c; c] ++ post → c = 10.
Proof.
  unfold check_repeats.
  destruct (has_triple_repeat password) eqn:E; simpl; split; try done.
  - intros H. apply has_triple_repeat_spec in E as (pre & c & post & Heq & Hc).
    by specialize (H pre c post Heq).
  - intros _ pre c post Heq. destruct (N.eq_dec c 10) as [|Hc]; [done|].
    assert (has_triple_repeat password = true) as E'; [|congruence].
    apply has_triple_repeat_spec. by exists pre, c, post.
Qed.

Lemma check_sequences_clean password :
  v_issues (check_sequences password no_findings) = [] ↔ has_sequences password = false.
Proof. unfold check_sequences. by destruct (has_sequences password). Qed.

Lemma check_common_words_clean password :
  v_issues (check_common_words password no_findings) = [] ↔
  ∀ w, w ∈ COMMON_WORDS → ¬ substring w (lower password).
Proof.
  assert ((∀ w, w ∈ COMMON_WORDS → ¬ substring w (lower password)) ↔
          ¬ ∃ w, w ∈ COMMON_WORDS ∧ substring w (lower password)) as ->.
  { split.
    - intros H (w & Hw & Hs). by apply (H w).
    - intros H w Hw Hs. apply H. by exists w. }
  rewrite <- common_words_existsb. unfold check_common_words.
  destruct (existsb _ _); cbn [flag v_issues no_findings app].
  - split; [discriminate | intros H; by destruct H].
  - split; [intros _; discriminate | reflexivity].
Qed.

Lemma check_birth_clean password dob fb :
  check_birth password dob no_findings = Return fb →
  (v_issues fb = [] ↔
   ∃ dt, read_dob dob = Some dt ∧ ∀ t, t ∈ birth_tokens dt → ¬ substring t password).
Proof.
  intros Hfb. destruct (check_birth_issues password dob) as (fb' & Hfb' & Hissues).
  rewrite Hfb in Hfb'. injection Hfb' as <-. rewrite Hissues. clear Hissues.
  destruct (read_dob dob) as [dt|]; [|split; [done | by intros (? & ? & _)]].
  pose proof (found_tokens_facts (birth_tokens dt) password) as (_ & _ & Hm).
  pose proof (sorted_nil_iff
    (List.filter (λ t, str_in t password) (elements (birth_tokens dt)))) as Hnil.
  destruct (List.filter _ _) as [|t0 found] eqn:E.
  - split; [|done]. intros _. exists dt. split; [done|]. intros t Ht Hs.
    eapply not_elem_of_nil. rewrite <- (proj2 Hnil eq_refl). by apply Hm.
  - split; [done|]. intros (dt' & [= <-] & Hno). exfalso.
    destruct (sorted (t0 :: found)) as [|t ts] eqn:Es;
      [discriminate (proj1 Hnil eq_refl)|].
    destruct (proj1 (Hm t)) as [Ht Hs]; [by left|]. by apply (Hno t).
Qed.

(** X15. The score is 10 exactly when the password passes all eight
    checks: neither name (unless empty once normalized) occurs in the
    normalized password, the date of birth reads and none of its tokens
    occurs in the password, the password has at least 12 characters and all
    four character classes or three of them with a special character, no
    character other than the newline stands three times in a row, and no
    window of a reference sequence and no common word occurs in it. *)
Theorem perfect_score_iff password first_name last_name dob :
  ∃ r,
    analyze_password password first_name last_name dob = Return r ∧
    (score r = 10%Z ↔
       (normalize first_name = [] ∨
        ¬ substring (normalize first_name) (normalize password)) ∧
       (normalize last_name = [] ∨
        ¬ substring (normalize last_name) (normalize password)) ∧
       (∃ dt, read_dob dob = Some dt ∧
              ∀ t, t ∈ birth_tokens dt → ¬ substring t password) ∧
       (12 ≤ length password)%nat ∧
       (class_count (classes r) = 4%nat ∨
        class_count (classes r) = 3%nat ∧ special (classes r) = true) ∧
       (∀ pre c post, password = pre ++ [c; c; c] ++ post → c = 10) ∧
       has_sequences password = false ∧
       (∀ w, w ∈ COMMON_WORDS → ¬ substring w (lower password))).
Proof.
  destruct (run_checks_tabled password first_name last_name dob) as (v & Hrun & Hv).
  destruct (analyze_password_unfold _ _ _ _ _ Hrun)
    as (r' & Hr' & Hscore & Hiss' & _ & _ & Hcls).
  destruct (analysis_clean password first_name last_name dob)
    as (f3 & r & Hf3 & Hr & Hclean).
  rewrite Hr in Hr'. injection Hr' as <-.
  exists r. split; [exact Hr|].
  assert (score r = 10%Z ↔ issues r = []) as ->.
  { rewrite <- total_penalty_zero, Hscore, (tabled_score _ _ Hv), <- Hiss'.
    pose proof (total_penalty_nonneg (issues r)). unfold clamp. lia. }
  pose proof (check_name_clean (normalize password) (normalize first_name)) as C1.
  pose proof (check_last_name_clean (normalize password) (normalize last_name)) as C2.
  pose proof (check_birth_clean _ _ _ Hf3) as C3.
  pose proof (check_length_clean password) as C4.
  pose proof (check_classes_clean password) as C5.
  pose proof (check_repeats_clean password) as C6.
  pose proof (check_sequences_clean password) as C7.
  pose proof (check_common_words_clean password) as C8.
  rewrite Hcls in C5. cbv zeta in C5.
  assert ({| lowercase := lowercase (classes r); uppercase := uppercase (classes r);
             digits := digits (classes r); special := special (classes r) |} =
          classes r) as Hrec by (by destruct (classes r)).
  rewrite Hrec in C5. clear -Hclean C1 C2 C3 C4 C5 C6 C7 C8.
  rewrite <- C1, <- C2, <- C3, <- C4, <- C5, <- C6, <- C7, <- C8. exact Hclean.
Qed.

(** ** The character classes of ASCII passwords *)

Lemma ascii_classes_of c :
  c < 128 →
  (islower c = true ↔ 97 ≤ c ≤ 122) ∧ (isupper c = true ↔ 65 ≤ c ≤ 90) ∧
  (isdigit c = true ↔ 48 ≤ c ≤ 57) ∧
  (negb (isalnum c) = true ↔ ¬ (48 ≤ c ≤ 57 ∨ 65 ≤ c ≤ 90 ∨ 97 ≤ c ≤ 122)).
Proof.
  intros Hc. unfold islower, isupper, isdigit, isalnum, is_ascii.
  apply N.ltb_lt in Hc as ->.
  unfold ascii_isalnum, ascii_islower, ascii_isupper, ascii_isdigit.
  destruct (N.leb_spec 97 c), (N.leb_spec c 122), (N.leb_spec 65 c),
    (N.leb_spec c 90), (N.leb_spec 48 c), (N.leb_spec c 57); simpl;
    repeat split; intros; try done; try lia.
Qed.

Lemma existsb_ascii (f : N → bool) (P : N → Prop) (s : str) :
  ascii_string s → (∀ c, c < 128 → f c = true ↔ P c) →
  existsb f s = true ↔ ∃ c, c ∈ s ∧ P c.
Proof.
  intros Hs Hf. unfold ascii_string in Hs. rewrite Forall_forall in Hs.
  rewrite existsb_exists. split; intros (c & Hc & H).
  - apply list_elem_of_In in Hc. exists c. split; [done|]. by apply Hf; [apply Hs|].
  - exists c. split; [by apply list_elem_of_In|]. by apply Hf; [apply Hs|].
Qed.

Lemma class_count_ascii s :
  ascii_string s →
  let c := {| lowercase := existsb islower s; uppercase := existsb isupper s;
              digits := existsb isdigit s;
              special := existsb (λ c, negb (isalnum c)) s |} in
  (class_count c ≤ length s)%nat ∧ (s ≠ [] → (1 ≤ class_count c)%nat).
Proof.
  induction 1 as [|c s Hc Hs IH]; [by split|]. cbv zeta in *.
  destruct IH as [IH _]. revert IH. unfold class_count. cbn [existsb length].
  cbn [lowercase uppercase digits special].
  destruct (ascii_classes_of c Hc) as (Hl & Hu & Hd & Hsp).
  destruct (existsb islower s), (existsb isupper s), (existsb isdigit s),
    (existsb (λ c, negb (isalnum c)) s);
    destruct (islower c), (isupper c), (isdigit c), (negb (isalnum c));
    simpl; intros IH; (split; [|intros _]); try lia;
    exfalso; intuition lia.
Qed.

(** X16. On an ASCII password the four flags say whether a letter a-z, a
    letter A-Z, a digit 0-9, and any other character occur.  Every character
    belongs to exactly one class, so the number of classes found is at most
    the length of the password, and at least one unless it is empty. *)
Theorem ascii_char_classes password :
  ascii_string password →
  let '(l, u, d, s) := char_classes password in
  let n := class_count {| lowercase := l; uppercase := u; digits := d; special := s |} in
  (l = true ↔ ∃ c, c ∈ password ∧ 97 ≤ c ≤ 122) ∧
  (u = true ↔ ∃ c, c ∈ password ∧ 65 ≤ c ≤ 90) ∧
  (d = true ↔ ∃ c, c ∈ password ∧ 48 ≤ c ≤ 57) ∧
  (s = true ↔
     ∃ c, c ∈ password ∧ ¬ (48 ≤ c ≤ 57 ∨ 65 ≤ c ≤ 90 ∨ 97 ≤ c ≤ 122)) ∧
  (n ≤ length password)%nat ∧
  (password ≠ [] → (1 ≤ n)%nat).
Proof.
  intros Hs. unfold char_classes. cbv zeta.
  split; [apply existsb_ascii; [done|]; intros c Hc; apply (ascii_classes_of c Hc)|].
  split; [apply existsb_ascii; [done|]; intros c Hc; apply (ascii_classes_of c Hc)|].
  split; [apply existsb_ascii; [done|]; intros c Hc; apply (ascii_classes_of c Hc)|].
  split; [apply existsb_ascii; [done|]; intros c Hc; apply (ascii_classes_of c Hc)|].
  apply (class_count_ascii password Hs).
Qed.

(** ** The command line *)

Lemma bind_print (x : output) {B} (f : () → io B) (w : console) :
  (print x ≫= f) w = f () {| stdin := stdin w; stdout := stdout w ++ [x] |}.
Proof. reflexivity. Qed.

Lemma bind_input p {B} (f : str → io B) line rest out :
  ((strip <$> input p) ≫= f) {| stdin := line :: rest; stdout := out |} =
    f (strip line) {| stdin := rest; stdout := out ++ [PROMPT p] |}.
Proof. reflexivity. Qed.

Lemma bind_input_eof p {B} (f : str → io B) out :
  ((strip <$> input p) ≫= f) {| stdin := []; stdout := out |} =
    (inr EOFError, {| stdin := []; stdout := out ++ [PROMPT p] |}).
Proof. reflexivity. Qed.

Lemma bind_call {A B} (m : outcome A) (a : A) (f : A → io B) (w : console) :
  m = Return a → (call m ≫= f) w = f a w.
Proof. by intros ->. Qed.

Lemma for_each_print {A} (g : Z → A → output) (l : list (Z * A)) (w : console) :
  for_each (λ '(i, x), print (g i x)) l w =
    (inl (), {| stdin := stdin w; stdout := stdout w ++ ((λ '(i, x), g i x) <$> l) |}).
Proof.
  revert w. induction l as [|[i x] l IH]; intros w.
  - simpl. unfold mret, io_ret. rewrite app_nil_r. by destruct w.
  - cbn [for_each]. rewrite bind_print, IH. cbn [stdin stdout fmap list_fmap].
    by rewrite <- app_assoc.
Qed.

Lemma bind_for_each_print {A B} (g : Z → A → output) (l : list (Z * A))
    (f : () → io B) (w : console) :
  (for_each (λ '(i, x), print (g i x)) l ≫= f) w =
    f () {| stdin := stdin w; stdout := stdout w ++ ((λ '(i, x), g i x) <$> l) |}.
Proof.
  change ((for_each (λ '(i, x), print (g i x)) l ≫= f) w) with
    (match for_each (λ '(i, x), print (g i x)) l w with
     | (inl a, w') => f a w'
     | (inr e, w') => (inr e, w')
     end).
  by rewrite for_each_print.
Qed.

Lemma enumerate_lines {A} (g : Z → A → output) (l : list A) :
  (λ '(i, x), g i x) <$> enumerate l 1 = imap (λ i x, g (1 + Z.of_nat i)%Z x) l.
Proof. unfold enumerate. by rewrite fmap_imap. Qed.

(** What [main] does with four lines of input or more. *)
Lemma main_run first_name last_name dob password rest out r :
  analyze_password (strip password) (strip first_name) (strip last_name) (strip dob)
    = Return r →
  main {| stdin := first_name :: last_name :: dob :: password :: rest;
          stdout := out |} =
    (inl (),
     {| stdin := rest;
        stdout :=
          out ++
          [BANNER; PROMPT ASK_FIRST_NAME; PROMPT ASK_LAST_NAME; PROMPT ASK_DOB;
           PROMPT ASK_PASSWORD; RESULT_HEADER; SCORE_LINE (score r);
           LENGTH_LINE (pw_length r);
           match (List.filter snd (class_items (classes r))).*1 with
           | [] => CLASSES_LINE_NONE
           | names => CLASSES_LINE names
           end;
           ISSUES_HEADER] ++
          match issues r with
          | [] => [NO_ISSUES_LINE]
          | l => imap (λ i x, ISSUE_LINE (1 + Z.of_nat i)%Z x) l
          end ++
          [RECOMMENDATIONS_HEADER] ++
          imap (λ i x, RECOMMENDATION_LINE (1 + Z.of_nat i)%Z x) (recommendations r)
     |}).
Proof.
  intros Hr. unfold main.
  rewrite bind_print. cbn [stdin stdout]. rewrite !bind_input.
  rewrite (bind_call _ _ _ _ Hr). rewrite !bind_print. cbn [stdin stdout].
  destruct (issues r) as [|i l] eqn:Ei.
  - rewrite !bind_print. cbn [stdin stdout].
    rewrite (for_each_print RECOMMENDATION_LINE), enumerate_lines. cbn [stdin stdout].
    f_equal. f_equal. rewrite <- !app_assoc. reflexivity.
  - rewrite (bind_for_each_print ISSUE_LINE), enumerate_lines. cbn [stdin stdout].
    rewrite bind_print. cbn [stdin stdout].
    rewrite (for_each_print RECOMMENDATION_LINE), enumerate_lines. cbn [stdin stdout].
    f_equal. f_equal. rewrite <- !app_assoc. reflexivity.
Qed.

(** What it does with less. *)
Lemma main_eof lines out :
  (length lines < 4)%nat →
  main {| stdin := lines; stdout := out |} =
    (inr EOFError,
     {| stdin := [];
        stdout := out ++ BANNER ::
          (PROMPT <$> take (S (length lines))
                        [ASK_FIRST_NAME; ASK_LAST_NAME; ASK_DOB; ASK_PASSWORD]) |}).
Proof.
  intros Hlen. unfold main. rewrite bind_print. cbn [stdin stdout].
  destruct lines as [|l1 [|l2 [|l3 [|l4 rest]]]]; [| | | |simpl in Hlen; lia];
    rewrite ?bind_input, bind_input_eof; rewrite <- !app_assoc; reflexivity.
Qed.

Lemma lstrip_idemp s : lstrip (lstrip s) = lstrip s.
Proof.
  induction s as [|c s IH]; [done|]. simpl.
  destruct (isspace c) eqn:E; [done|]. simpl. by rewrite E.
Qed.

Lemma lstrip_snoc s c : isspace c = false → lstrip (s ++ [c]) = lstrip s ++ [c].
Proof.
  intros Hc. induction s as [|a s IH]; simpl; [by rewrite Hc|].
  by destruct (isspace a).
Qed.

Lemma lstrip_head s : lstrip s = [] ∨ ∃ c t, lstrip s = c :: t ∧ isspace c = false.
Proof.
  induction s as [|c s IH]; [by left|]. simpl.
  destruct (isspace c) eqn:E; [done|]. right. by exists c, s.
Qed.

Lemma strip_strip s : strip (strip s) = strip s.
Proof.
  assert (lstrip (strip s) = strip s) as H.
  { unfold strip. destruct (lstrip_head s) as [->|(c & t & -> & Hc)]; [done|].
    simpl. rewrite (lstrip_snoc _ _ Hc), rev_app_distr. simpl. by rewrite Hc. }
  unfold strip at 1. rewrite H. unfold strip.
  by rewrite rev_involutive, lstrip_idemp.
Qed.

(** X17. Given four lines of input, [main] ends without an exception: it
    reads exactly these lines (first name, last name, date of birth,
    password), keeps what was written before, writes the banner and the four
    prompts, and then the analysis of the password against the other three,
    each stripped of the white space around it: the score (1 to 10), the
    length, the character classes found (in the order lowercase, uppercase,
    digits, special), the issues numbered from 1 (one line instead if there
    are none) and the recommendations numbered from 1, at least one. *)
Theorem main_reports first_name last_name dob password rest out :
  ∃ r names issue_lines,
    analyze_password (strip password) (strip first_name) (strip last_name)
        (strip dob) = Return r ∧
    main {| stdin := first_name :: last_name :: dob :: password :: rest;
            stdout := out |} =
      (inl (),
       {| stdin := rest;
          stdout :=
            out ++
            [BANNER; PROMPT ASK_FIRST_NAME; PROMPT ASK_LAST_NAME; PROMPT ASK_DOB;
             PROMPT ASK_PASSWORD; RESULT_HEADER; SCORE_LINE (score r);
             LENGTH_LINE (Z.of_nat (length (strip password)));
             match names with [] => CLASSES_LINE_NONE | _ => CLASSES_LINE names end;
             ISSUES_HEADER] ++
            issue_lines ++
            [RECOMMENDATIONS_HEADER] ++
            imap (λ i x, RECOMMENDATION_LINE (1 + Z.of_nat i)%Z x)
                 (recommendations r) |}) ∧
    (1 ≤ score r ≤ 10)%Z ∧
    names = List.filter (class_flag (classes r))
              [KEY_LOWERCASE; KEY_UPPERCASE; KEY_DIGITS; KEY_SPECIAL] ∧
    (issues r = [] ∧ issue_lines = [NO_ISSUES_LINE] ∨
     issues r ≠ [] ∧
     issue_lines = imap (λ i x, ISSUE_LINE (1 + Z.of_nat i)%Z x) (issues r)) ∧
    (1 ≤ length issue_lines ≤ 8)%nat ∧
    (1 ≤ length (recommendations r) ≤ 9)%nat.
Proof.
  destruct (analysis_tabled (strip password) (strip first_name) (strip last_name)
              (strip dob)) as (v & r & _ & Hv & Hr & Hscore & Hiss & Hrecs & Hlen & H8).
  exists r, (List.filter (class_flag (classes r))
               [KEY_LOWERCASE; KEY_UPPERCASE; KEY_DIGITS; KEY_SPECIAL]),
    (match issues r with
     | [] => [NO_ISSUES_LINE]
     | l => imap (λ i x, ISSUE_LINE (1 + Z.of_nat i)%Z x) l
     end).
  split; [exact Hr|]. split.
  { rewrite (main_run _ _ _ _ _ _ _ Hr), Hlen. do 4 f_equal.
    destruct (classes r) as [[] [] [] []]; reflexivity. }
  split; [rewrite Hscore; unfold clamp; lia|]. split; [done|].
  pose proof (tabled_length _ _ Hv) as Hl.
  rewrite Hrecs, Hiss, length_app. destruct (v_issues v) as [|i l].
  - split; [by left|]. simpl in *. case_bool_decide; lia.
  - split; [by right|]. rewrite length_imap. simpl in *. case_bool_decide; lia.
Qed.

(** X18. With fewer than four lines of input [main] raises [EOFError]:
    it has written the banner and the prompts up to the one that found no
    line, and nothing of a report. *)
Theorem main_needs_four_lines lines out :
  (length lines < 4)%nat →
  main {| stdin := lines; stdout := out |} =
    (inr EOFError,
     {| stdin := [];
        stdout := out ++ BANNER ::
          (PROMPT <$> take (S (length lines))
                        [ASK_FIRST_NAME; ASK_LAST_NAME; ASK_DOB; ASK_PASSWORD]) |}).
Proof. apply main_eof. Qed.

(** X19. White space around the lines typed changes neither the result of
    [main] nor what it writes. *)
Theorem main_ignores_surrounding_space lines out :
  (main {| stdin := lines; stdout := out |}).1 =
    (main {| stdin := strip <$> lines; stdout := out |}).1 ∧
  stdout (main {| stdin := lines; stdout := out |}).2 =
    stdout (main {| stdin := strip <$> lines; stdout := out |}).2.
Proof.
  destruct (decide (length lines < 4)%nat) as [Hlt|Hge].
  - rewrite !main_eof by (by rewrite ?length_fmap). by rewrite length_fmap.
  - destruct lines as [|l1 [|l2 [|l3 [|l4 rest]]]]; simpl in Hge; try lia.
    destruct (analysis_tabled (strip l4) (strip l1) (strip l2) (strip l3))
      as (v & r & _ & _ & Hr & _).
    rewrite (main_run _ _ _ _ _ _ _ Hr). cbn [fmap list_fmap].
    rewrite <- (strip_strip l1), <- (strip_strip l2), <- (strip_strip l3),
      <- (strip_strip l4) in Hr.
    by rewrite (main_run _ _ _ _ _ _ _ Hr).
Qed.

(** ** The empty password *)

Lemma birth_tokens_not_in_empty dt :
  List.filter (λ t, str_in t []) (elements (birth_tokens dt)) = [].
Proof.
  destruct (List.filter _ _) as [|t l] eqn:E; [done|]. exfalso.
  assert (In t (List.filter (λ t, str_in t []) (elements (birth_tokens dt)))) as Ht
    by (rewrite E; by left).
  apply filter_In in Ht as [Ht Hin]. apply list_elem_of_In in Ht.
  apply (proj1 (elem_of_elements (birth_tokens dt) t)) in Ht.
  apply elem_of_birth_tokens in Ht. cbv zeta in Ht.
  destruct_or!; subst t; discriminate Hin.
Qed.

(** X20. The empty password: the analysis reports that it is too short and
    has a single character class, before these that the date of birth is
    unreadable when it is, and nothing else; the score is 2, or 1 with an
    unreadable date, the length 0 and no character class is found. *)
Theorem empty_password first_name last_name dob :
  ∃ r,
    analyze_password [] first_name last_name dob = Return r ∧
    issues r =
      (match read_dob dob with Some _ => [] | None => [INVALID_DOB_FORMAT] end) ++
      [TOO_SHORT; SINGLE_CHAR_CLASS] ∧
    score r = (match read_dob dob with Some _ => 2 | None => 1 end)%Z ∧
    recommendations r =
      (match read_dob dob with Some _ => [] | None => [ENTER_VALID_DOB] end) ++
      [USE_AT_LEAST_12; MIX_CLASSES] ∧
    pw_length r = 0%Z ∧
    classes r = {| lowercase := false; uppercase := false; digits := false;
                   special := false |}.
Proof.
  assert (∀ v, check_birth [] dob v =
               Return (match read_dob dob with
                       | Some _ => v
                       | None => flag INVALID_DOB_FORMAT 1 ENTER_VALID_DOB v
                       end)) as Hbirth.
  { intros v. destruct (read_dob dob) as [dt|] eqn:E.
    - apply strptime_read_dob, extract_birth_tokens_parsed in E.
      unfold check_birth. rewrite E.
      cbn [mbind outcome_bind mret outcome_ret try_except_ValueError].
      by rewrite birth_tokens_not_in_empty.
    - apply strptime_raises in E as [why E].
      apply (check_birth_invalid _ _ (ValueError why)).
      unfold extract_birth_tokens. by rewrite E. }
  assert (∀ n v, check_first_name (normalize []) n v = v) as Hfn
    by (intros [|c n] v; reflexivity).
  assert (∀ n v, check_last_name (normalize []) n v = v) as Hln
    by (intros [|c n] v; reflexivity).
  unfold analyze_password, run_checks. rewrite Hfn, Hln, Hbirth.
  destruct (read_dob dob); eexists; (split; [vm_compute; reflexivity|]);
    repeat split.
Qed.

End WithUnicode.

(** * The theorems at concrete inputs

    Each statement below instantiates a theorem above, with its hypotheses,
    at an input on which they hold; [ascii_only] is the character database. *)

Lemma analyze_never_raises_witness :
  extract_birth_tokens (U := ascii_only) (py "31.02.2000") =
    Raise (ValueError out_of_range) ∧
  ∃ r, analyze_password (U := ascii_only)
         (py "Tr0ub4dor&3") (py "Ann") (py "Lee") (py "31.02.2000") = Return r ∧
       INVALID_DOB_FORMAT ∈ issues r ∧
       ENTER_VALID_DOB ∈ recommendations r.
Proof.
  assert (extract_birth_tokens (U := ascii_only) (py "31.02.2000") =
            Raise (ValueError out_of_range)) as He by (vm_compute; reflexivity).
  split; [exact He|].
  destruct (analyze_never_raises (U := ascii_only)
              (py "Tr0ub4dor&3") (py "Ann") (py "Lee") (py "31.02.2000"))
    as [_ H].
  destruct (H _ He) as (r & Hr & _ & _ & Hi & Hx & _).
  exists r. split; [exact Hr|]. split; [exact Hi | exact Hx].
Defined.

Lemma recommendations_distinct_first_seen_witness :
  ∃ r, analyze_password (U := ascii_only)
         (py "qwerty123") (py "John") (py "Smith") (py "01.01.2000") = Return r ∧
       recommendations r !! 0%nat = Some PREFER_12_OR_MORE ∧
       recommendations r !! 3%nat = Some AVOID_COMMON_WORDS ∧
       ∃ a b,
         first_index PREFER_12_OR_MORE
           [PREFER_12_OR_MORE; ADD_MORE_CLASSES; AVOID_SEQUENCES; AVOID_COMMON_WORDS]
           = Some a ∧
         first_index AVOID_COMMON_WORDS
           [PREFER_12_OR_MORE; ADD_MORE_CLASSES; AVOID_SEQUENCES; AVOID_COMMON_WORDS]
           = Some b ∧
         (a < b)%nat.
Proof.
  destruct (recommendations_distinct_first_seen (U := ascii_only)
              (py "qwerty123") (py "John") (py "Smith") (py "01.01.2000"))
    as (v & r & Hrun & Hr & _ & _ & Horder).
  vm_compute in Hrun. injection Hrun as <-.
  assert (recommendations r =
            [PREFER_12_OR_MORE; ADD_MORE_CLASSES; AVOID_SEQUENCES; AVOID_COMMON_WORDS])
    as Hrecs by (vm_compute in Hr; by injection Hr as <-).
  exists r. split; [exact Hr|].
  assert (recommendations r !! 0%nat = Some PREFER_12_OR_MORE) as H0
    by (by rewrite Hrecs).
  assert (recommendations r !! 3%nat = Some AVOID_COMMON_WORDS) as H3
    by (by rewrite Hrecs).
  split; [exact H0|]. split; [exact H3|].
  apply (Horder 0%nat 3%nat _ _ H0 H3). lia.
Defined.

Lemma birth_tokens_of_valid_date_witness :
  valid_date 1990 6 15 = true ∧
  extract_birth_tokens (U := ascii_only)
    (two_digits 15 ++ py "." ++ two_digits 6 ++ py "." ++ four_digits 1990) =
    Return (birth_tokens {| year := 1990; month := 6; day := 15 |}).
Proof.
  split; [vm_compute; reflexivity|].
  destruct (birth_tokens_of_valid_date (U := ascii_only)) as (_ & H & _).
  apply (H 1990 6 15). vm_compute. reflexivity.
Defined.

Lemma extract_birth_tokens_rejects_witness :
  read_dob (U := ascii_only) (py "15-06-1990") = None ∧
  ∃ why, extract_birth_tokens (U := ascii_only) (py "15-06-1990") =
           Raise (ValueError why).
Proof.
  assert (read_dob (U := ascii_only) (py "15-06-1990") = None) as H
    by (vm_compute; reflexivity).
  split; [exact H|].
  destruct (extract_birth_tokens_rejects (U := ascii_only)) as (Hraise & _).
  exact (Hraise _ H).
Defined.

(** C5 as the specification words it does not hold: "1.6.1990" is not
    written DD.MM.YYYY, and [extract_birth_tokens] reads it, as the first of
    June 1990, whatever the character database. *)
Lemma extract_birth_tokens_reads_short_dates :
  strict_dob (py "1.6.1990") = None ∧
  (∀ U : Unicode,
     extract_birth_tokens (py "1.6.1990") =
       Return {[ py "01"; py "06"; py "1990"; py "90"; py "0106"; py "0601";
                 py "19900601"; py "01061990"; py "900601"; py "010690" ]}).
Proof. split; [|intros U]; vm_compute; reflexivity. Qed.

Lemma length_bands_witness :
  (Z.of_nat (length (py "hunter2")) < 8)%Z ∧
  check_length (py "hunter2") initial_vars =
    flag TOO_SHORT 4 USE_AT_LEAST_12 initial_vars.
Proof.
  split; [vm_compute; reflexivity|].
  destruct (length_bands (U := ascii_only) (py "hunter2")) as [H _].
  destruct (H initial_vars) as [Hshort _].
  apply Hshort. vm_compute. reflexivity.
Defined.

Lemma class_count_cases_witness :
  char_classes (U := ascii_only) (py "Hunter22") = (true, true, true, false) ∧
  check_classes (U := ascii_only) (py "Hunter22") initial_vars =
    flag NO_SPECIAL_CHARS 1 ADD_SPECIAL initial_vars.
Proof.
  split; [vm_compute; reflexivity|].
  destruct (class_count_cases (U := ascii_only) (py "Hunter22")) as [H _].
  specialize (H initial_vars).
  change (char_classes (U := ascii_only) (py "Hunter22"))
    with (true, true, true, false) in H.
  destruct H as (_ & _ & H3 & _). apply H3. split; reflexivity.
Defined.

Lemma first_name_in_password_witness :
  normalize (U := ascii_only) (py "Ann") ≠ [] ∧
  substring (normalize (U := ascii_only) (py "Ann"))
            (normalize (U := ascii_only) (py "My-Ann-2024!")) ∧
  ∃ v r,
    run_checks (U := ascii_only)
      (py "My-Ann-2024!") (py "Ann") (py "Lee") (py "15.06.1990") = Return v ∧
    analyze_password (U := ascii_only)
      (py "My-Ann-2024!") (py "Ann") (py "Lee") (py "15.06.1990") = Return r ∧
    score r = clamp (v_score v) ∧
    CONTAINS_FIRST_NAME ∈ issues r ∧
    (v_score v ≤ 10 - 3)%Z.
Proof.
  assert (normalize (U := ascii_only) (py "Ann") ≠ []) as Hne
    by (vm_compute; discriminate).
  assert (substring (normalize (U := ascii_only) (py "Ann"))
                    (normalize (U := ascii_only) (py "My-Ann-2024!"))) as Hsub
    by (exists (py "my"), (py "2024!"); vm_compute; reflexivity).
  split; [exact Hne|]. split; [exact Hsub|].
  exact (first_name_in_password (U := ascii_only)
           (py "My-Ann-2024!") (py "Ann") (py "Lee") (py "15.06.1990") Hne Hsub).
Defined.

Lemma keyboard_words_cost_five_witness :
  (substring (py "qwerty") (lower (U := ascii_only) (py "MyQwerty!2024x")) ∨
   substring (py "123456") (lower (U := ascii_only) (py "MyQwerty!2024x"))) ∧
  ∃ r, analyze_password (U := ascii_only)
         (py "MyQwerty!2024x") (py "Ann") (py "Lee") (py "15.06.1990") = Return r ∧
       COMMON_WORD ∈ issues r ∧ HAS_SEQUENCE ∈ issues r ∧ (score r ≤ 5)%Z.
Proof.
  assert (substring (py "qwerty") (lower (U := ascii_only) (py "MyQwerty!2024x")) ∨
          substring (py "123456") (lower (U := ascii_only) (py "MyQwerty!2024x")))
    as H by (left; exists (py "my"), (py "!2024x"); vm_compute; reflexivity).
  split; [exact H|].
  exact (keyboard_words_cost_five (U := ascii_only)
           (py "MyQwerty!2024x") (py "Ann") (py "Lee") (py "15.06.1990") H).
Defined.

Lemma birth_tokens_are_digit_strings_witness :
  extract_birth_tokens (U := ascii_only) (py "15.06.1990") =
    Return (birth_tokens {| year := 1990; month := 6; day := 15 |}) ∧
  (4 ≤ size (birth_tokens {| year := 1990; month := 6; day := 15 |}) ≤ 10)%nat ∧
  ∀ t, t ∈ birth_tokens {| year := 1990; month := 6; day := 15 |} →
       digit_string t ∧
       (length t = 2 ∨ length t = 4 ∨ length t = 6 ∨ length t = 8)%nat.
Proof.
  assert (extract_birth_tokens (U := ascii_only) (py "15.06.1990") =
            Return (birth_tokens {| year := 1990; month := 6; day := 15 |})) as H
    by (apply extract_birth_tokens_parsed; vm_compute; reflexivity).
  split; [exact H|].
  exact (birth_tokens_are_digit_strings (U := ascii_only) _ _ H).
Defined.

Lemma no_digit_no_birth_fragment_witness :
  Forall (λ c, ¬ 48 ≤ c ≤ 57) (py "Correct-Horse!") ∧
  ∃ r, analyze_password (U := ascii_only)
         (py "Correct-Horse!") (py "Ann") (py "Lee") (py "15.06.1990") = Return r ∧
       ∀ ts, CONTAINS_BIRTH_FRAGMENT ts ∉ issues r.
Proof.
  assert (Forall (λ c, ¬ 48 ≤ c ≤ 57) (py "Correct-Horse!")) as H
    by (unfold py; simpl; repeat (apply Forall_cons_2; [lia|]); apply Forall_nil_2).
  split; [exact H|].
  exact (no_digit_no_birth_fragment (U := ascii_only)
           (py "Correct-Horse!") (py "Ann") (py "Lee") (py "15.06.1990") H).
Defined.

Lemma normalize_ascii_witness :
  ascii_string (py " Anna-Maria ") ∧
  normalize (U := ascii_only) (py " Anna-Maria ") =
    map ascii_tolower
      (List.filter (λ c, negb (ascii_is_separator c)) (py " Anna-Maria ")) ∧
  ascii_string (normalize (U := ascii_only) (py " Anna-Maria ")) ∧
  Forall (λ c, ascii_is_separator c = false ∧ ascii_isupper c = false)
    (normalize (U := ascii_only) (py " Anna-Maria ")) ∧
  normalize (U := ascii_only) (normalize (U := ascii_only) (py " Anna-Maria ")) =
    normalize (U := ascii_only) (py " Anna-Maria ").
Proof.
  assert (ascii_string (py " Anna-Maria ")) as H
    by (unfold ascii_string, py; simpl;
        repeat (apply Forall_cons_2; [lia|]); apply Forall_nil_2).
  split; [exact H|].
  exact (normalize_ascii (U := ascii_only) (py " Anna-Maria ") H).
Defined.

Lemma names_compared_normalized_witness :
  ascii_string (py "Anna-Maria") ∧ ascii_string (py "anna maria") ∧
  ascii_string (py "De_Vries") ∧ ascii_string (py "devries") ∧
  analyze_password (U := ascii_only)
    (py "AnnaMaria#2024") (py "Anna-Maria") (py "De_Vries") (py "15.06.1990") =
  analyze_password (U := ascii_only)
    (py "AnnaMaria#2024") (py "anna maria") (py "devries") (py "15.06.1990").
Proof.
  assert (∀ s, forallb (λ c, c <? 128) s = true → ascii_string s) as Hascii.
  { intros s Hs. apply Forall_forall. intros c Hc.
    rewrite forallb_forall in Hs. apply N.ltb_lt, Hs, list_elem_of_In, Hc. }
  assert (ascii_string (py "Anna-Maria")) as H1 by (apply Hascii; reflexivity).
  assert (ascii_string (py "anna maria")) as H2 by (apply Hascii; reflexivity).
  assert (ascii_string (py "De_Vries")) as H3 by (apply Hascii; reflexivity).
  assert (ascii_string (py "devries")) as H4 by (apply Hascii; reflexivity).
  split; [exact H1|]. split; [exact H2|]. split; [exact H3|]. split; [exact H4|].
  apply (names_compared_normalized (U := ascii_only)
           (py "AnnaMaria#2024") (py "Anna-Maria") (py "anna maria")
           (py "De_Vries") (py "devries") (py "15.06.1990") H1 H2 H3 H4);
    reflexivity.
Defined.

Lemma ascii_char_classes_witness :
  ascii_string (py "Hunter22") ∧
  char_classes (U := ascii_only) (py "Hunter22") = (true, true, true, false) ∧
  (∃ c, c ∈ py "Hunter22" ∧ 65 ≤ c ≤ 90) ∧
  ¬ (∃ c, c ∈ py "Hunter22" ∧ ¬ (48 ≤ c ≤ 57 ∨ 65 ≤ c ≤ 90 ∨ 97 ≤ c ≤ 122)).
Proof.
  assert (ascii_string (py "Hunter22")) as H
    by (unfold ascii_string, py; simpl;
        repeat (apply Forall_cons_2; [lia|]); apply Forall_nil_2).
  split; [exact H|]. split; [vm_compute; reflexivity|].
  pose proof (ascii_char_classes (U := ascii_only) (py "Hunter22") H) as Hc.
  change (char_classes (U := ascii_only) (py "Hunter22"))
    with (true, true, true, false) in Hc.
  destruct Hc as (_ & Hu & _ & Hs & _).
  split; [by apply Hu|]. intros Hx. by apply Hs in Hx.
Defined.

Lemma main_needs_four_lines_witness :
  (length [py "Ann"; py "Lee"] < 4)%nat ∧
  main (U := ascii_only) {| stdin := [py "Ann"; py "Lee"]; stdout := [] |} =
    (inr EOFError,
     {| stdin := [];
        stdout := [BANNER; PROMPT ASK_FIRST_NAME; PROMPT ASK_LAST_NAME;
                   PROMPT ASK_DOB] |}).
Proof.
  assert (length [py "Ann"; py "Lee"] < 4)%nat as H by (simpl; lia).
  split; [exact H|].
  exact (main_needs_four_lines (U := ascii_only) [py "Ann"; py "Lee"] [] H).
Defined.

Lemma dob_in_password_is_reported_witness :
  ascii_string (py "1.6.1990") ∧
  read_dob (U := ascii_only) (py "1.6.1990") =
    Some {| year := 1990; month := 6; day := 1 |} ∧
  substring (py "1.6.1990") (py "Ann-1.6.1990!") ∧
  ∃ r ts,
    analyze_password (U := ascii_only)
      (py "Ann-1.6.1990!") (py "Ann") (py "Lee") (py "1.6.1990") = Return r ∧
    CONTAINS_BIRTH_FRAGMENT ts ∈ issues r ∧
    py "1990" ∈ ts.
Proof.
  assert (ascii_string (py "1.6.1990")) as H1
    by (unfold ascii_string, py; simpl;
        repeat (apply Forall_cons_2; [lia|]); apply Forall_nil_2).
  assert (read_dob (U := ascii_only) (py "1.6.1990") =
            Some {| year := 1990; month := 6; day := 1 |}) as H2
    by (vm_compute; reflexivity).
  assert (substring (py "1.6.1990") (py "Ann-1.6.1990!")) as H3
    by (exists (py "Ann-"), (py "!"); reflexivity).
  split; [exact H1|]. split; [exact H2|]. split; [exact H3|].
  exact (dob_in_password_is_reported (U := ascii_only)
           (py "Ann-1.6.1990!") (py "Ann") (py "Lee") (py "1.6.1990") _ H1 H2 H3).
Defined.
